(** * BioRoute calculation engine: a shallow embedding

    Source files embedded here:
    - [backend/app/services/calculation_engine.py]: [StreamProperties],
      [CalculationEngine.build_graph], [calculate_route], the six category
      rules, [_sum_inputs] and [_aggregate_results];
    - [backend/main.py]: [validate_route].

    Conventions of the embedding.
    - A Python [float] is an IEEE 754 binary64 number: Rocq's primitive
      [float], with the same rounding.  Integer literals of the source that
      meet a float in an arithmetic expression are written as floats (the
      conversion is exact for every constant of the source).
    - A Python [dict] keeps insertion order: it is an association list whose
      keys are pairwise distinct ([PyDict]).
    - [StreamProperties] objects are mutable and shared: they live in a heap
      and the engine passes addresses around.
    - A raised exception is the [Raise] outcome of [result]; there are no
      partial results.
    - [networkx] is not part of the repository; module [nx] models the part of
      [DiGraph] the engine calls, after networkx 3.x. *)

From Stdlib Require Import String Ascii List Bool Arith ZArith Lia.
From Stdlib Require Import Floats.
Import ListNotations.

Set Warnings "-inexact-float".

(** ** Exceptions and outcomes *)

Inductive exn : Type :=
| ValueError (msg : string)
| KeyError (key : string)
| TypeError
| ZeroDivisionError
| RuntimeError (msg : string)
| NetworkXUnfeasible
| OutOfFuel.   (* not a Python exception: the bound of the model's [while] loop,
                  shown unreachable by [generations_inv] *)

Inductive result (A : Type) : Type :=
| Ok (a : A)
| Raise (e : exn).
Arguments Ok {A} a.
Arguments Raise {A} e.

Definition rbind {A B : Type} (r : result A) (k : A -> result B) : result B :=
  match r with
  | Ok a => k a
  | Raise e => Raise e
  end.

(** ** Python dictionaries *)

Module PyDict.
Section Dict.
Context {V : Type}.

Definition t : Type := list (string * V).

Fixpoint get (d : t) (k : string) : option V :=
  match d with
  | [] => None
  | (k', v) :: rest => if String.eqb k' k then Some v else get rest k
  end.

(* d.get(k, dflt) *)
Definition get_default (d : t) (k : string) (dflt : V) : V :=
  match get d k with
  | Some v => v
  | None => dflt
  end.

(* k in d *)
Definition mem (d : t) (k : string) : bool :=
  match get d k with
  | Some _ => true
  | None => false
  end.

(* d[k] = v : an existing key keeps its place, a new key goes last *)
Fixpoint set (d : t) (k : string) (v : V) : t :=
  match d with
  | [] => [(k, v)]
  | (k', v') :: rest =>
      if String.eqb k' k then (k', v) :: rest else (k', v') :: set rest k v
  end.

(* del d[k] *)
Fixpoint del (d : t) (k : string) : t :=
  match d with
  | [] => []
  | (k', v') :: rest =>
      if String.eqb k' k then rest else (k', v') :: del rest k
  end.

Definition keys (d : t) : list string := map fst d.

(* bool(d) is False *)
Definition is_empty (d : t) : bool :=
  match d with
  | [] => true
  | _ :: _ => false
  end.

(* {**d, **e} *)
Definition update (d e : t) : t :=
  fold_left (fun acc kv => set acc (fst kv) (snd kv)) e d.
End Dict.
Arguments t : clear implicits.
End PyDict.

Abbreviation dict := PyDict.t.

(** ** Streams *)

Record StreamProperties : Type := mkStream {
  mass_flow : float;
  volume_flow : float;
  energy_content : float;
  methane_content : float;
  cod : float;
  vs_content : float;
  temperature : float;
  pressure : float
}.

(* StreamProperties() : the dataclass defaults *)
Definition StreamProperties_default : StreamProperties :=
  {| mass_flow := 0; volume_flow := 0; energy_content := 0;
     methane_content := 0; cod := 0; vs_content := 0;
     temperature := 35; pressure := 1 |}.

(* Python's min(a, b): b when b < a, else a *)
Definition py_min (a b : float) : float :=
  if (b <? a)%float then b else a.

(* StreamProperties.__add__ *)
Definition stream_add (self other : StreamProperties) : StreamProperties :=
  {| mass_flow := mass_flow self + mass_flow other;
     volume_flow := volume_flow self + volume_flow other;
     energy_content := energy_content self + energy_content other;
     methane_content := methane_content self + methane_content other;
     cod := cod self + cod other;
     vs_content := vs_content self + vs_content other;
     temperature := (temperature self + temperature other) / 2;
     pressure := py_min (pressure self) (pressure other) |}%float.

Definition set_vs_content (s : StreamProperties) (v : float) : StreamProperties :=
  {| mass_flow := mass_flow s; volume_flow := volume_flow s;
     energy_content := energy_content s; methane_content := methane_content s;
     cod := cod s; vs_content := v;
     temperature := temperature s; pressure := pressure s |}.

(** ** The heap of stream objects, and the engine's monad *)

Definition loc : Type := nat.
Definition heap : Type := list StreamProperties.

Definition M (A : Type) : Type := heap -> result (A * heap).

Definition ret {A : Type} (a : A) : M A := fun h => Ok (a, h).

Definition raise {A : Type} (e : exn) : M A := fun _ => Raise e.

Definition bind {A B : Type} (m : M A) (k : A -> M B) : M B :=
  fun h =>
    match m h with
    | Ok (a, h') => k a h'
    | Raise e => Raise e
    end.

Declare Scope engine_scope.
Delimit Scope engine_scope with engine.
Notation "x <- m ;; k" := (bind m (fun x => k))
  (at level 61, m at next level, right associativity) : engine_scope.
Notation "' p <- m ;; k" := (bind m (fun p => k))
  (at level 61, p pattern, m at next level, right associativity) : engine_scope.

(* a constructor call: a new object at a new address *)
Definition alloc (s : StreamProperties) : M loc :=
  fun h => Ok (length h, h ++ [s]).

Definition deref (l : loc) : M StreamProperties :=
  fun h => Ok (nth l h StreamProperties_default, h).

Fixpoint update_nth (h : heap) (l : loc) (s : StreamProperties) : heap :=
  match h, l with
  | [], _ => []
  | _ :: rest, O => s :: rest
  | x :: rest, S l' => x :: update_nth rest l' s
  end.

(* attribute assignment on the object at [l] *)
Definition assign (l : loc) (s : StreamProperties) : M unit :=
  fun h => Ok (tt, update_nth h l s).

(** ** Python's round(x, ndigits) on floats

    CPython rounds the exact binary value of [x] to [ndigits] decimals, ties
    to even, and returns the float nearest to that decimal; NaN and the
    infinities round to themselves. *)

Definition round_half_even (num : Z) (e : Z) : Z :=
  (* nearest integer to num * 2^e, ties to even; num >= 0 *)
  match e with
  | Zneg p =>
      let d := Z.pow 2 (Zpos p) in
      let q := Z.div num d in
      let r := Z.modulo num d in
      match Z.compare (2 * r) d with
      | Lt => q
      | Gt => (q + 1)%Z
      | Eq => if Z.even q then q else (q + 1)%Z
      end
  | _ => (num * Z.pow 2 e)%Z
  end.

Definition py_round (x : float) (ndigits : nat) : float :=
  match Prim2SF x with
  | S754_finite s m e =>
      let p := Z.pow 10 (Z.of_nat ndigits) in
      match round_half_even (Zpos m * p) e with
      | Zpos k =>
          SF2Prim (SFdiv prec emax (S754_finite s k 0)
                                   (S754_finite false (Z.to_pos p) 0))
      | _ => if s then (-0)%float else 0%float
      end
  | _ => x
  end.

(** ** The technology catalogue and the request

    [TECH_DATABASE] entries ([backend/data/technologies.py]) and the dicts
    [model_dump] makes of [NodeInput] and [EdgeInput]; only the fields the
    engine and [validate_route] read. *)

Module ParamSpec.
Record t : Type := mk { key : string; default_value : float }.
End ParamSpec.

Module Tech.
Record t : Type := mk {
  id : string;
  category : string;
  name : string;
  accepts : list string;
  outputs : list string;
  parameters : list ParamSpec.t;
  defaults : dict float
}.
End Tech.

(* A node of the request.  The parameters are the numbers of the request,
   read as Python floats.  The request type leaves the values of
   "parameters" open; a request that puts a string, a null or an integer
   beyond the range of a float there is outside this model, and so are the
   TypeError and OverflowError it can cause in the rules.  Every statement
   below about the rules or the route is a statement about requests whose
   parameters are floats. *)
Module Node.
Record t : Type := mk {
  node_id : string;
  tech_id : string;
  parameters : dict float
}.
End Node.

Module Edge.
Record t : Type := mk { source : string; target : string }.
End Edge.

(** ** networkx.DiGraph, as far as the engine uses it

    [add_node] and [add_edge] follow [networkx/classes/digraph.py];
    [topological_sort] and [is_directed_acyclic_graph] follow
    [networkx/algorithms/dag.py], where [topological_sort] flattens

      indegree_map = {v: d for v, d in G.in_degree() if d > 0}
      zero_indegree = [v for v, d in G.in_degree() if d == 0]
      while zero_indegree:
          this_generation = zero_indegree
          zero_indegree = []
          for node in this_generation:
              if node not in G: raise RuntimeError(...)
              for child in G.neighbors(node):
                  try: indegree_map[child] -= 1
                  except KeyError: raise RuntimeError(...)
                  if indegree_map[child] == 0:
                      zero_indegree.append(child)
                      del indegree_map[child]
          yield this_generation
      if indegree_map: raise nx.NetworkXUnfeasible(...)

    and [is_directed_acyclic_graph] runs it to the end, answering False on
    NetworkXUnfeasible. *)

Module nx.

(* the attribute dict of a node: [tech_id] and [parameters] when the node
   came through [add_node], empty when [add_edge] created it *)
Definition attrs : Type := option (string * dict float).

(* [_node] is the node dict.  [_adj] lists the edges in the order of their
   first insertion: the key order of [_succ[u]] is [_adj] filtered on the
   source, the key order of [_pred[v]] is [_adj] filtered on the target. *)
Record DiGraph : Type := mkGraph {
  _node : dict attrs;
  _adj : list (string * string)
}.

Definition empty : DiGraph := {| _node := []; _adj := [] |}.

Definition edge_eqb (e f : string * string) : bool :=
  String.eqb (fst e) (fst f) && String.eqb (snd e) (snd f).

Definition has_node (g : DiGraph) (n : string) : bool :=
  PyDict.mem (_node g) n.

Definition has_edge (g : DiGraph) (u v : string) : bool :=
  existsb (edge_eqb (u, v)) (_adj g).

(* G.add_node(n, tech_id=..., parameters=...) *)
Definition add_node (g : DiGraph) (n : string) (a : string * dict float)
  : DiGraph :=
  {| _node := PyDict.set (_node g) n (Some a); _adj := _adj g |}.

(* the "if u not in self._succ" part of add_edge *)
Definition ensure_node (g : DiGraph) (n : string) : DiGraph :=
  if has_node g n then g
  else {| _node := _node g ++ [(n, None)]; _adj := _adj g |}.

(* G.add_edge(u, v) *)
Definition add_edge (g : DiGraph) (u v : string) : DiGraph :=
  let g := ensure_node (ensure_node g u) v in
  if has_edge g u v then g
  else {| _node := _node g; _adj := _adj g ++ [(u, v)] |}.

Definition nodes (g : DiGraph) : list string := PyDict.keys (_node g).

Definition successors (g : DiGraph) (u : string) : list string :=
  map snd (filter (fun e => String.eqb (fst e) u) (_adj g)).

Definition predecessors (g : DiGraph) (v : string) : list string :=
  map fst (filter (fun e => String.eqb (snd e) v) (_adj g)).

Definition in_degree (g : DiGraph) (v : string) : nat :=
  length (predecessors g v).

Definition changed : exn := RuntimeError "Graph changed during iteration".

(* for child in G.neighbors(node):
       indegree_map[child] -= 1
       if indegree_map[child] == 0:
           zero_indegree.append(child); del indegree_map[child] *)
Fixpoint relax (children : list string)
    (st : dict nat * list string) : result (dict nat * list string) :=
  match children with
  | [] => Ok st
  | child :: rest =>
      let '(indegree_map, zero_indegree) := st in
      match PyDict.get indegree_map child with
      | None => Raise changed
      | Some d =>
          let indegree_map := PyDict.set indegree_map child (d - 1) in
          if Nat.eqb (d - 1) 0
          then relax rest (PyDict.del indegree_map child,
                           zero_indegree ++ [child])
          else relax rest (indegree_map, zero_indegree)
      end
  end.

(* for node in this_generation: ... *)
Fixpoint process_generation (g : DiGraph) (this_generation : list string)
    (st : dict nat * list string) : result (dict nat * list string) :=
  match this_generation with
  | [] => Ok st
  | node :: rest =>
      if has_node g node
      then rbind (relax (successors g node) st) (process_generation g rest)
      else Raise changed
  end.

(* the while loop of topological_generations, its generations yielded in
   turn and flattened by topological_sort *)
Fixpoint generations (fuel : nat) (g : DiGraph)
    (indegree_map : dict nat) (zero_indegree : list string)
    : result (list string) :=
  match zero_indegree with
  | [] =>
      if PyDict.is_empty indegree_map then Ok [] else Raise NetworkXUnfeasible
  | _ :: _ =>
      match fuel with
      | O => Raise OutOfFuel
      | S fuel' =>
          rbind (process_generation g zero_indegree (indegree_map, []))
            (fun st =>
               rbind (generations fuel' g (fst st) (snd st))
                 (fun later => Ok (zero_indegree ++ later)))
      end
  end.

(* list(nx.topological_sort(G)) *)
Definition topological_sort (g : DiGraph) : result (list string) :=
  let indegree_map :=
    filter (fun vd => negb (Nat.eqb (snd vd) 0))
           (map (fun v => (v, in_degree g v)) (nodes g)) in
  let zero_indegree :=
    filter (fun v => Nat.eqb (in_degree g v) 0) (nodes g) in
  generations (S (length (nodes g))) g indegree_map zero_indegree.

(* nx.is_directed_acyclic_graph(G): has_cycle catches NetworkXUnfeasible only *)
Definition is_directed_acyclic_graph (g : DiGraph) : result bool :=
  match topological_sort g with
  | Ok _ => Ok true
  | Raise NetworkXUnfeasible => Ok false
  | Raise e => Raise e
  end.

End nx.

(** ** The calculation engine ([CalculationEngine]) *)

Inductive value : Type :=
| VNum (x : float)
| VStr (s : string).

Definition in_list (x : string) (l : list string) : bool :=
  existsb (String.eqb x) l.

(* x / y on Python floats *)
Definition py_div (x y : float) : M float :=
  if (y =? 0)%float then raise ZeroDivisionError else ret (x / y)%float.

Section Rules.
  Local Open Scope string_scope.
  Local Open Scope list_scope.
  Local Open Scope float_scope.
  Local Open Scope engine_scope.

(* the loop of _sum_inputs: result = result + inp *)
Fixpoint sum_rest (result : loc) (rest : list loc) : M loc :=
  match rest with
  | [] => ret result
  | inp :: rest' =>
      a <- deref result ;;
      b <- deref inp ;;
      r <- alloc (stream_add a b) ;;
      sum_rest r rest'
  end.

Definition _sum_inputs (inputs : list loc) : M loc :=
  match inputs with
  | [] => alloc StreamProperties_default
  | first :: rest => sum_rest first rest
  end.

Definition _calc_feedstock (tech : Tech.t) (params : dict float)
  : M (loc * dict value) :=
  let quantity :=
    PyDict.get_default params "quantity"
      (match Tech.parameters tech with
       | p :: _ => ParamSpec.default_value p
       | [] => 100
       end) in
  let defaults := Tech.defaults tech in
  if in_list (Tech.id tech) ["vinasse"; "wash_water"] then
    let cod := quantity * PyDict.get_default defaults "cod" 25 in
    stream <- alloc
      {| mass_flow := 0; volume_flow := quantity; energy_content := 0;
         methane_content := 0; cod := cod; vs_content := cod * 0.7;
         temperature := 35; pressure := 1 |} ;;
    s <- deref stream ;;
    ret (stream,
         [ ("input_quantity", VNum quantity);
           ("input_unit", VStr "m³/day");
           ("cod_total", VNum cod);
           ("vs_available", VNum (vs_content s)) ])
  else
    let moisture := PyDict.get_default defaults "moisture" 50 / 100 in
    let vs_fraction := PyDict.get_default defaults "vs" 85 / 100 in
    let lhv := PyDict.get_default defaults "lhv" 7.5 in
    let dry_mass := quantity * (1 - moisture) in
    let vs_mass := dry_mass * vs_fraction * 1000 in
    let energy := quantity * 1000 * (1 - moisture) * lhv in
    stream <- alloc
      {| mass_flow := quantity * 1000; volume_flow := 0;
         energy_content := energy; methane_content := 0; cod := 0;
         vs_content := vs_mass; temperature := 35; pressure := 1 |} ;;
    ret (stream,
         [ ("input_quantity", VNum quantity);
           ("input_unit", VStr "t/day");
           ("dry_mass", VNum dry_mass);
           ("vs_available", VNum vs_mass);
           ("energy_available_mj", VNum energy) ]).

Definition _calc_pretreatment (tech : Tech.t) (params : dict float)
    (inputs : list loc) : M (loc * dict value) :=
  combined <- _sum_inputs inputs ;;
  let biogas_increase :=
    PyDict.get_default (Tech.defaults tech) "biogas_increase" 15 / 100 in
  let energy_use := PyDict.get_default (Tech.defaults tech) "energy_use" 0.3 in
  (* output_stream = combined : the same object *)
  let output_stream := combined in
  (* output_stream.vs_content *= (1 + biogas_increase) *)
  o <- deref output_stream ;;
  _ <- assign output_stream
         (set_vs_content o (vs_content o * (1 + biogas_increase))) ;;
  c <- deref combined ;;
  let parasitic_energy :=
    if String.eqb (Tech.id tech) "thermal_hydrolysis"
    then vs_content c * energy_use
    else if String.eqb (Tech.id tech) "mechanical_prep"
    then (mass_flow c / 1000) * energy_use
    else 0 in
  o' <- deref output_stream ;;
  ret (output_stream,
       [ ("biogas_increase_percent", VNum (biogas_increase * 100));
         ("parasitic_energy_kwh", VNum parasitic_energy);
         ("effective_vs_output", VNum (vs_content o')) ]).

Definition _calc_digester (tech : Tech.t) (params : dict float)
    (inputs : list loc) : M (loc * dict value) :=
  combined <- _sum_inputs inputs ;;
  c <- deref combined ;;
  let efficiency :=
    PyDict.get_default params "efficiency"
      (PyDict.get_default (Tech.defaults tech) "efficiency" 0.70) in
  let efficiency := if 1 <? efficiency then efficiency / 100 else efficiency in
  let ch4_content := PyDict.get_default (Tech.defaults tech) "ch4_content" 0.60 in
  '(biogas_production, ch4_production) <-
    (if 0 <? cod c then
       let ch4_production := cod c * 0.35 * efficiency in
       biogas_production <- py_div ch4_production ch4_content ;;
       ret (biogas_production, ch4_production)
     else
       let biogas_production := vs_content c * 0.40 * efficiency in
       let ch4_production := biogas_production * ch4_content in
       ret (biogas_production, ch4_production)) ;;
  let energy_output_mj := ch4_production * 35.8 in
  let energy_output_kwh := energy_output_mj / 3.6 in
  stream <- alloc
    {| mass_flow := 0; volume_flow := biogas_production;
       energy_content := energy_output_mj;
       methane_content := ch4_production; cod := 0; vs_content := 0;
       temperature := 35; pressure := 1 |} ;;
  ret (stream,
       [ ("biogas_nm3_day", VNum (py_round biogas_production 1));
         ("methane_nm3_day", VNum (py_round ch4_production 1));
         ("methane_content_percent", VNum (py_round (ch4_content * 100) 1));
         ("conversion_efficiency", VNum (py_round (efficiency * 100) 1));
         ("energy_output_mj_day", VNum (py_round energy_output_mj 0));
         ("energy_output_kwh_day", VNum (py_round energy_output_kwh 0));
         ("hrt_days", VNum (PyDict.get_default (Tech.defaults tech) "hrt" 20));
         ("olr", VNum (PyDict.get_default (Tech.defaults tech) "olr" 3)) ]).

Definition _calc_upgrading (tech : Tech.t) (params : dict float)
    (inputs : list loc) : M (loc * dict value) :=
  combined <- _sum_inputs inputs ;;
  c <- deref combined ;;
  let defaults := Tech.defaults tech in
  let recovery :=
    PyDict.get_default params "recovery"
      (PyDict.get_default defaults "recovery" 0.96) in
  let recovery := if 1 <? recovery then recovery / 100 else recovery in
  let energy_use := PyDict.get_default defaults "energy_use" 0.25 in
  let biomethane := methane_content c * recovery in
  let ch4_purity := PyDict.get_default defaults "ch4_purity" 0.97 in
  let parasitic_load := volume_flow c * energy_use in
  let co2_flow :=
    volume_flow c * (1 - PyDict.get_default defaults "ch4_content" 0.60) in
  stream <- alloc
    {| mass_flow := 0; volume_flow := biomethane;
       energy_content := biomethane * 35.8;
       methane_content := biomethane; cod := 0; vs_content := 0;
       temperature := 35; pressure := 1 |} ;;
  ret (stream,
       [ ("biogas_input_nm3_day", VNum (py_round (volume_flow c) 1));
         ("biomethane_nm3_day", VNum (py_round biomethane 1));
         ("methane_purity_percent", VNum (py_round (ch4_purity * 100) 1));
         ("methane_recovery_percent", VNum (py_round (recovery * 100) 1));
         ("methane_loss_nm3_day",
          VNum (py_round (methane_content c - biomethane) 1));
         ("parasitic_energy_kwh_day", VNum (py_round parasitic_load 0));
         ("co2_separated_nm3_day", VNum (py_round co2_flow 1)) ]).

Definition _calc_enduse (tech : Tech.t) (params : dict float)
    (inputs : list loc) : M (loc * dict value) :=
  combined <- _sum_inputs inputs ;;
  c <- deref combined ;;
  let defaults := Tech.defaults tech in
  let results : dict value :=
    if in_list (Tech.id tech)
         ["ice_cogen"; "gas_turbine"; "microturbine"; "fuel_cell"] then
      let elec_eff :=
        PyDict.get_default params "elec_efficiency"
          (PyDict.get_default defaults "elec_eff" 0.38) in
      let therm_eff :=
        PyDict.get_default params "therm_efficiency"
          (PyDict.get_default defaults "therm_eff" 0.45) in
      let elec_eff := if 1 <? elec_eff then elec_eff / 100 else elec_eff in
      let therm_eff := if 1 <? therm_eff then therm_eff / 100 else therm_eff in
      let energy_input_kwh := methane_content c * 9.97 in
      let electricity_kwh := energy_input_kwh * elec_eff in
      let thermal_kwh := energy_input_kwh * therm_eff in
      let elec_price := PyDict.get_default params "elec_price" 350 in
      let daily_revenue := (electricity_kwh / 1000) * elec_price in
      let annual_revenue := daily_revenue * 330 in
      [ ("methane_input_nm3_day", VNum (py_round (methane_content c) 1));
        ("energy_input_kwh_day", VNum (py_round energy_input_kwh 0));
        ("electricity_kwh_day", VNum (py_round electricity_kwh 0));
        ("electricity_mwh_year",
         VNum (py_round (electricity_kwh * 330 / 1000) 0));
        ("thermal_kwh_day", VNum (py_round thermal_kwh 0));
        ("electrical_efficiency_percent", VNum (py_round (elec_eff * 100) 1));
        ("thermal_efficiency_percent", VNum (py_round (therm_eff * 100) 1));
        ("total_efficiency_percent",
         VNum (py_round ((elec_eff + therm_eff) * 100) 1));
        ("daily_revenue_brl", VNum (py_round daily_revenue 2));
        ("annual_revenue_brl", VNum (py_round annual_revenue 0)) ]
    else if in_list (Tech.id tech) ["biomethane_gnv"; "biomethane_grid"] then
      let price :=
        PyDict.get_default params "price"
          (PyDict.get_default defaults "price" 3.50) in
      let daily_revenue := methane_content c * price in
      let annual_revenue := daily_revenue * 330 in
      [ ("biomethane_nm3_day", VNum (py_round (methane_content c) 1));
        ("biomethane_nm3_year", VNum (py_round (methane_content c * 330) 0));
        ("price_per_nm3", VNum price);
        ("daily_revenue_brl", VNum (py_round daily_revenue 2));
        ("annual_revenue_brl", VNum (py_round annual_revenue 0)) ]
    else if String.eqb (Tech.id tech) "boiler" then
      let therm_eff :=
        PyDict.get_default params "therm_efficiency"
          (PyDict.get_default defaults "therm_eff" 0.85) in
      let therm_eff := if 1 <? therm_eff then therm_eff / 100 else therm_eff in
      let thermal_kwh := (energy_content c / 3.6) * therm_eff in
      [ ("methane_input_nm3_day", VNum (py_round (methane_content c) 1));
        ("thermal_kwh_day", VNum (py_round thermal_kwh 0));
        ("thermal_efficiency_percent", VNum (py_round (therm_eff * 100) 1)) ]
    else if String.eqb (Tech.id tech) "flare" then
      let destruction_eff :=
        PyDict.get_default defaults "destruction_efficiency" 0.99 in
      let co2_reduction := methane_content c * 21 * destruction_eff in
      [ ("methane_flared_nm3_day", VNum (py_round (methane_content c) 1));
        ("destruction_efficiency_percent",
         VNum (py_round (destruction_eff * 100) 1));
        ("co2eq_avoided_kg_day", VNum (py_round co2_reduction 0)) ]
    else [] in
  (* End-use nodes don't have output streams (terminal nodes) *)
  stream <- alloc StreamProperties_default ;;
  ret (stream, results).

Definition _calc_byproduct (tech : Tech.t) (params : dict float)
    (inputs : list loc) : M (loc * dict value) :=
  combined <- _sum_inputs inputs ;;
  let results :=
    [ ("tech_name", VStr (Tech.name tech));
      ("value_per_unit",
       VNum (PyDict.get_default (Tech.defaults tech) "value" 0)) ] in
  stream <- alloc StreamProperties_default ;;
  ret (stream, results).

Definition _calculate_node (tech : Tech.t) (params : dict float)
    (inputs : list loc) : M (loc * dict value) :=
  let category := Tech.category tech in
  if String.eqb category "feedstock" then _calc_feedstock tech params
  else if String.eqb category "pretreatment" then
    _calc_pretreatment tech params inputs
  else if String.eqb category "digester" then _calc_digester tech params inputs
  else if String.eqb category "upgrading" then
    _calc_upgrading tech params inputs
  else if String.eqb category "enduse" then _calc_enduse tech params inputs
  else if String.eqb category "byproduct" then
    _calc_byproduct tech params inputs
  else
    (* Pass-through for unknown types *)
    s <- _sum_inputs inputs ;; ret (s, []).

End Rules.

Section Engine.
  Local Open Scope string_scope.
  Local Open Scope list_scope.
  Local Open Scope engine_scope.

(* self.tech_db *)
Variable tech_db : dict Tech.t.

Definition cycle_message : string :=
  "Route contains cycles - invalid configuration".

Definition build_graph (nodes : list Node.t) (edges : list Edge.t)
  : result nx.DiGraph :=
  let g := nx.empty in
  let g :=
    fold_left (fun g node =>
                 nx.add_node g (Node.node_id node)
                   (Node.tech_id node, Node.parameters node))
              nodes g in
  let g :=
    fold_left (fun g edge => nx.add_edge g (Edge.source edge) (Edge.target edge))
              edges g in
  rbind (nx.is_directed_acyclic_graph g)
    (fun dag => if dag then Ok g else Raise (ValueError cycle_message)).

(* f"{p}->{node_id}" *)
Definition stream_key (p node_id : string) : string :=
  (p ++ "->" ++ node_id)%string.

(* [streams.get(f"{p}->{node_id}", StreamProperties()) for p in predecessors]:
   the default object is built at every call of get *)
Fixpoint gather_inputs (streams : dict loc) (node_id : string)
    (predecessors : list string) : M (list loc) :=
  match predecessors with
  | [] => ret []
  | p :: rest =>
      dflt <- alloc StreamProperties_default ;;
      let s := PyDict.get_default streams (stream_key p node_id) dflt in
      ss <- gather_inputs streams node_id rest ;;
      ret (s :: ss)
  end.

(* for successor in self.graph.successors(node_id):
       streams[f"{node_id}->{successor}"] = output_stream *)
Definition propagate (streams : dict loc) (node_id : string)
    (output_stream : loc) (successors : list string) : dict loc :=
  fold_left (fun streams successor =>
               PyDict.set streams (stream_key node_id successor) output_stream)
            successors streams.

Definition unknown_tech (tech_id : string) : exn :=
  ValueError ("Technology '" ++ tech_id ++ "' not found in database")%string.

(* one turn of the loop "for node_id in calc_order" *)
Definition process_node (g : nx.DiGraph)
    (st : dict loc * dict (dict value)) (node_id : string)
  : M (dict loc * dict (dict value)) :=
  let '(streams, node_results) := st in
  match PyDict.get (nx._node g) node_id with
  | None => raise (KeyError node_id)
  | Some None => raise (KeyError "tech_id")
  | Some (Some (tech_id, params)) =>
      match PyDict.get tech_db tech_id with
      | None => raise (unknown_tech tech_id)
      | Some tech =>
          input_streams <-
            gather_inputs streams node_id (nx.predecessors g node_id) ;;
          '(output_stream, results) <-
            _calculate_node tech params input_streams ;;
          let node_results :=
            PyDict.set node_results node_id
              (PyDict.update results
                 [ ("tech_id", VStr tech_id);
                   ("tech_name", VStr (Tech.name tech));
                   ("category", VStr (Tech.category tech)) ]) in
          ret (propagate streams node_id output_stream
                 (nx.successors g node_id),
               node_results)
      end
  end.

Fixpoint process_nodes (g : nx.DiGraph) (calc_order : list string)
    (st : dict loc * dict (dict value))
  : M (dict loc * dict (dict value)) :=
  match calc_order with
  | [] => ret st
  | node_id :: rest =>
      st' <- process_node g st node_id ;;
      process_nodes g rest st'
  end.

(* total += results.get(key, 0) *)
Definition add_metric (results : dict value) (key : string) (total : float)
  : result float :=
  match PyDict.get results key with
  | None => Ok (total + 0)%float
  | Some (VNum x) => Ok (total + x)%float
  | Some (VStr _) => Raise TypeError
  end.

Record totals : Type := mkTotals {
  total_biogas : float;
  total_methane : float;
  total_biomethane : float;
  total_electricity : float;
  total_thermal : float;
  total_revenue : float
}.

Fixpoint sum_metrics (node_results : dict (dict value)) (t : totals)
  : result totals :=
  match node_results with
  | [] => Ok t
  | (_, results) :: rest =>
      rbind (add_metric results "biogas_nm3_day" (total_biogas t)) (fun b =>
      rbind (add_metric results "methane_nm3_day" (total_methane t)) (fun m =>
      rbind (add_metric results "biomethane_nm3_day" (total_biomethane t)) (fun bm =>
      rbind (add_metric results "electricity_kwh_day" (total_electricity t)) (fun e =>
      rbind (add_metric results "thermal_kwh_day" (total_thermal t)) (fun th =>
      rbind (add_metric results "annual_revenue_brl" (total_revenue t)) (fun r =>
      sum_metrics rest
        {| total_biogas := b; total_methane := m; total_biomethane := bm;
           total_electricity := e; total_thermal := th;
           total_revenue := r |}))))))
  end.

Record CalculationResult : Type := mkResult {
  success : bool;
  summary : dict float;
  node_details : dict (dict value);
  streams_out : dict StreamProperties
}.

Definition _aggregate_results (node_results : dict (dict value))
    (streams : dict loc) : M CalculationResult :=
  fun h =>
    match sum_metrics node_results
            {| total_biogas := 0; total_methane := 0; total_biomethane := 0;
               total_electricity := 0; total_thermal := 0;
               total_revenue := 0 |} with
    | Raise e => Raise e
    | Ok t =>
        let emissions_avoided_daily :=
          ((total_methane t + total_biomethane t) * 2.75)%float in
        let emissions_avoided_annual :=
          (emissions_avoided_daily * 330)%float in
        Ok ({| success := true;
               summary :=
                 [ ("biogas_nm3_day", py_round (total_biogas t) 0);
                   ("methane_nm3_day", py_round (total_methane t) 0);
                   ("biomethane_nm3_day", py_round (total_biomethane t) 0);
                   ("electricity_kwh_day", py_round (total_electricity t) 0);
                   ("electricity_mwh_year",
                    py_round (total_electricity t * 330 / 1000)%float 0);
                   ("thermal_kwh_day", py_round (total_thermal t) 0);
                   ("annual_revenue_brl", py_round (total_revenue t) 0);
                   ("emissions_avoided_kg_day",
                    py_round emissions_avoided_daily 0);
                   ("emissions_avoided_ton_year",
                    py_round (emissions_avoided_annual / 1000)%float 1) ];
               node_details := node_results;
               (* {k: asdict(v) for k, v in streams.items()} *)
               streams_out :=
                 map (fun kv =>
                        (fst kv, nth (snd kv) h StreamProperties_default))
                     streams |}, h)
    end.

(* the body of calculate_route after build_graph, on the engine's heap *)
Definition run_route (g : nx.DiGraph) (calc_order : list string)
  : M CalculationResult :=
  '(streams, node_results) <- process_nodes g calc_order ([], []) ;;
  _aggregate_results node_results streams.

Definition calculate_route (nodes : list Node.t) (edges : list Edge.t)
  : result CalculationResult :=
  rbind (build_graph nodes edges) (fun g =>
  (* NetworkXUnfeasible and RuntimeError are not NetworkXError: the
     except clause lets them through *)
  rbind (nx.topological_sort g) (fun calc_order =>
  match run_route g calc_order [] with
  | Ok (r, _) => Ok r
  | Raise e => Raise e
  end)).

(** ** [validate_route] of [backend/main.py] *)

(* one entry of the [errors] list.  [details] is an f-string that prints two
   Python sets, whose order is not fixed; the entry keeps what it prints. *)
Record error_entry : Type := mkError {
  err_edge : option string;
  err_error : string;
  err_details : option (string * list string * string * list string)
}.

Record report : Type := mkReport {
  rep_success : bool;
  rep_valid : bool;
  rep_errors : list error_entry;
  rep_message : option string
}.

(* next(n for n in nodes_data if n['node_id'] == k); inside a coroutine the
   StopIteration of an exhausted generator surfaces as a RuntimeError *)
Definition next_node (nodes_data : list Node.t) (k : string) : result Node.t :=
  match find (fun n => String.eqb (Node.node_id n) k) nodes_data with
  | Some n => Ok n
  | None => Raise (RuntimeError "coroutine raised StopIteration")
  end.

(* TECH_DATABASE[k] *)
Definition tech_lookup (k : string) : result Tech.t :=
  match PyDict.get tech_db k with
  | Some t => Ok t
  | None => Raise (KeyError k)
  end.

(* source_outputs.intersection(target_accepts) is not empty *)
Definition intersects (source_outputs target_accepts : list string) : bool :=
  existsb (fun o => in_list o target_accepts) source_outputs.

Definition incompatible (edge : Edge.t) (source_tech target_tech : Tech.t)
  : error_entry :=
  {| err_edge := Some (Edge.source edge ++ " -> " ++ Edge.target edge)%string;
     err_error := "Incompatible connection";
     err_details :=
       Some (Tech.name source_tech, Tech.outputs source_tech,
             Tech.name target_tech, Tech.accepts target_tech) |}.

(* the loop "for edge in edges_data" *)
Fixpoint check_edges (nodes_data : list Node.t) (edges_data : list Edge.t)
    (errors : list error_entry) : result (list error_entry) :=
  match edges_data with
  | [] => Ok errors
  | edge :: rest =>
      rbind (next_node nodes_data (Edge.source edge)) (fun source_node =>
      rbind (next_node nodes_data (Edge.target edge)) (fun target_node =>
      rbind (tech_lookup (Node.tech_id source_node)) (fun source_tech =>
      rbind (tech_lookup (Node.tech_id target_node)) (fun target_tech =>
      match Tech.accepts target_tech with
      | [] => check_edges nodes_data rest errors
      | _ :: _ =>
          if intersects (Tech.outputs source_tech) (Tech.accepts target_tech)
          then check_edges nodes_data rest errors
          else check_edges nodes_data rest
                 (errors ++ [incompatible edge source_tech target_tech])
      end))))
  end.

Definition validate_route (nodes_data : list Node.t) (edges_data : list Edge.t)
  : result report :=
  match build_graph nodes_data edges_data with
  | Raise (ValueError msg) =>
      Ok {| rep_success := false; rep_valid := false;
            rep_errors :=
              [ {| err_edge := None; err_error := msg; err_details := None |} ];
            rep_message := None |}
  | Raise e => Raise e
  | Ok _ =>
      match check_edges nodes_data edges_data [] with
      | Raise (ValueError msg) =>
          Ok {| rep_success := false; rep_valid := false;
                rep_errors :=
                  [ {| err_edge := None; err_error := msg;
                       err_details := None |} ];
                rep_message := None |}
      | Raise e => Raise e
      | Ok [] =>
          Ok {| rep_success := true; rep_valid := true; rep_errors := [];
                rep_message := Some "Route configuration is valid" |}
      | Ok errors =>
          Ok {| rep_success := false; rep_valid := false;
                rep_errors := errors; rep_message := None |}
      end
  end.

End Engine.

(** ** Catalogue entries used in the examples

    Eight of the 29 entries of [TECH_DATABASE]
    ([backend/data/technologies.py]), copied with their ids, categories,
    kinds, parameters and defaults; the display names are shortened to ASCII.
    Only closed examples use them: every general statement is over an
    arbitrary catalogue. *)

Module Catalogue.
  Local Open Scope string_scope.
  Local Open Scope float_scope.

Definition bagasse : Tech.t :=
  Tech.mk "bagasse" "feedstock" "Bagaco de Cana" [] ["solid_biomass"]
    [ParamSpec.mk "quantity" 100]
    [("lhv", 7.5); ("moisture", 50); ("vs", 85); ("density", 150)].

Definition vinasse : Tech.t :=
  Tech.mk "vinasse" "feedstock" "Vinhaca" [] ["liquid_organic"]
    [ParamSpec.mk "quantity" 1000]
    [("cod", 25); ("bod", 15); ("ph", 4.5); ("temperature", 80)].

Definition thermal_hydrolysis : Tech.t :=
  Tech.mk "thermal_hydrolysis" "pretreatment" "Hidrolise Termica"
    ["solid_biomass"] ["treated_solid"]
    [ParamSpec.mk "temperature" 170]
    [("biogas_increase", 25); ("energy_use", 0.5); ("retention_time", 30)].

Definition cstr : Tech.t :=
  Tech.mk "cstr" "digester" "CSTR"
    ["solid_biomass"; "treated_solid"; "liquid_organic"]
    ["biogas"; "digestate"]
    [ParamSpec.mk "efficiency" 70; ParamSpec.mk "hrt" 25]
    [("efficiency", 0.70); ("hrt", 25); ("olr", 3.0); ("temperature", 35);
     ("ch4_content", 0.60)].

Definition uasb : Tech.t :=
  Tech.mk "uasb" "digester" "UASB" ["liquid_organic"]
    ["biogas"; "digestate"]
    [ParamSpec.mk "efficiency" 80; ParamSpec.mk "hrt" 1.0]
    [("efficiency", 0.80); ("hrt", 1.0); ("olr", 15.0); ("temperature", 35);
     ("ch4_content", 0.65)].

Definition psa : Tech.t :=
  Tech.mk "psa" "upgrading" "PSA" ["biogas"] ["biomethane"; "co2"]
    [ParamSpec.mk "recovery" 98]
    [("recovery", 0.98); ("energy_use", 0.25); ("ch4_purity", 0.98);
     ("capex", 1200)].

Definition ice_cogen : Tech.t :=
  Tech.mk "ice_cogen" "enduse" "Motor a Gas (Cogeracao)"
    ["biogas"; "biomethane"] ["electricity"; "heat"]
    [ParamSpec.mk "elec_efficiency" 40; ParamSpec.mk "therm_efficiency" 45;
     ParamSpec.mk "elec_price" 350]
    [("elec_eff", 0.40); ("therm_eff", 0.45); ("capex", 1500);
     ("opex", 0.015)].

Definition boiler : Tech.t :=
  Tech.mk "boiler" "enduse" "Caldeira" ["biogas"; "biomethane"] ["heat"]
    [ParamSpec.mk "therm_efficiency" 85]
    [("therm_eff", 0.85); ("capex", 200); ("steam_pressure", 21)].

Definition TECH_DATABASE : dict Tech.t :=
  [ ("bagasse", bagasse); ("vinasse", vinasse);
    ("thermal_hydrolysis", thermal_hydrolysis); ("cstr", cstr);
    ("uasb", uasb); ("psa", psa); ("ice_cogen", ice_cogen);
    ("boiler", boiler) ].
End Catalogue.

(** ** Vocabulary of the statements *)

(* the stream object a rule returns, read from the heap it leaves *)
Definition emitted (r : result (loc * dict value * heap))
  : option StreamProperties :=
  match r with
  | Ok (l, _, h) => Some (nth l h StreamProperties_default)
  | Raise _ => None
  end.

(* a metric of the result record a rule returns *)
Definition metric (r : result (loc * dict value * heap)) (key : string)
  : option value :=
  match r with
  | Ok (_, results, _) => PyDict.get results key
  | Raise _ => None
  end.

(* a stream whose eight fields are zero *)
Definition all_zero : StreamProperties :=
  {| mass_flow := 0; volume_flow := 0; energy_content := 0;
     methane_content := 0; cod := 0; vs_content := 0;
     temperature := 0; pressure := 0 |}.

(* agreement on the six flow/content fields *)
Definition flow_eq (s1 s2 : StreamProperties) : Prop :=
  mass_flow s1 = mass_flow s2 /\
  volume_flow s1 = volume_flow s2 /\
  energy_content s1 = energy_content s2 /\
  methane_content s1 = methane_content s2 /\
  cod s1 = cod s2 /\
  vs_content s1 = vs_content s2.

(* a stream carrying only a mass flow *)
Definition mass_only (m : float) : StreamProperties :=
  {| mass_flow := m; volume_flow := 0; energy_content := 0;
     methane_content := 0; cod := 0; vs_content := 0;
     temperature := 35; pressure := 1 |}.

(* the ratio normalisation, in the words of the specification *)
Definition as_fraction (x : float) : float :=
  if (1 <? x)%float then (x / 100)%float else x.

(** ** Graph vocabulary *)

(* the request's edge list links u to v *)
Definition connects (edges : list Edge.t) (u v : string) : Prop :=
  In (Edge.mk u v) edges.

(* the graph has the edge u -> v *)
Definition nx_edge (g : nx.DiGraph) (u v : string) : Prop :=
  In (u, v) (nx._adj g).

(* a directed walk of one edge or more *)
Inductive path (R : string -> string -> Prop) : string -> string -> Prop :=
| path_edge (u v : string) : R u v -> path R u v
| path_step (u w v : string) : R u w -> path R w v -> path R u v.

Definition has_cycle (edges : list Edge.t) : Prop :=
  exists v, path (connects edges) v v.

Definition acyclic (edges : list Edge.t) : Prop :=
  forall v, ~ path (connects edges) v v.

(* the place of the first x in l; length l when there is none *)
Fixpoint index_of (x : string) (l : list string) : nat :=
  match l with
  | [] => 0
  | y :: rest => if String.eqb y x then 0 else S (index_of x rest)
  end.

(* p comes before n in the calculation order *)
Definition before (order : list string) (p n : string) : Prop :=
  In p order /\ In n order /\ index_of p order < index_of n order.

(* every edge of E into a listed node comes from an earlier listed node *)
Definition ordered (E : list (string * string)) (Z : list string) : Prop :=
  forall p c, In (p, c) E -> In c Z -> index_of p Z < index_of c Z.

(* a list whose consecutive elements are linked *)
Fixpoint is_walk (R : string -> string -> Prop) (l : list string) : Prop :=
  match l with
  | a :: (b :: _) as tl => R a b /\ is_walk R tl
  | _ => True
  end.

(** Bookkeeping for Kahn's algorithm: the edges still counted in
    [indegree_map] once the nodes of [D] are done and the children of [u]
    outside [rem] have been relaxed. *)

Definition alive (D : list string) (u : string) (rem : list string)
    (e : string * string) : bool :=
  negb (in_list (fst e) D) &&
  (negb (String.eqb (fst e) u) || in_list (snd e) rem).

Definition deg (E : list (string * string)) (D : list string) (u : string)
    (rem : list string) (v : string) : nat :=
  length (filter (fun e => String.eqb (snd e) v && alive D u rem e) E).

Definition deg0 (E : list (string * string)) (D : list string) (v : string)
  : nat :=
  length (filter (fun e => String.eqb (snd e) v && negb (in_list (fst e) D)) E).

Definition pos_opt (n : nat) : option nat :=
  match n with
  | O => None
  | S _ => Some n
  end.

(* the graph invariants that add_node and add_edge maintain *)
Definition wf_graph (g : nx.DiGraph) : Prop :=
  NoDup (nx.nodes g) /\
  NoDup (nx._adj g) /\
  forall u v, In (u, v) (nx._adj g) -> In u (nx.nodes g) /\ In v (nx.nodes g).

(* the state of the algorithm between two nodes of a generation *)
Definition inv0 (g : nx.DiGraph) (D : list string) (indeg : dict nat)
    (Z : list string) : Prop :=
  NoDup (PyDict.keys indeg) /\
  (forall v, PyDict.get indeg v = pos_opt (deg0 (nx._adj g) D v)) /\
  NoDup Z /\
  (forall v, In v Z <-> In v (nx.nodes g) /\ deg0 (nx._adj g) D v = 0) /\
  incl D Z /\
  ordered (nx._adj g) Z.

(* the state inside the loop over the children of u *)
Definition inv1 (g : nx.DiGraph) (D : list string) (u : string)
    (rem : list string) (indeg : dict nat) (Z : list string) : Prop :=
  NoDup (PyDict.keys indeg) /\
  (forall v, PyDict.get indeg v = pos_opt (deg (nx._adj g) D u rem v)) /\
  NoDup Z /\
  (forall v, In v Z <-> In v (nx.nodes g) /\ deg (nx._adj g) D u rem v = 0) /\
  incl D Z /\
  ordered (nx._adj g) Z /\
  In u Z /\ ~ In u D.

(* the graph build_graph assembles, before it checks for cycles *)
Definition assembled (nodes : list Node.t) (edges : list Edge.t) : nx.DiGraph :=
  fold_left (fun g edge => nx.add_edge g (Edge.source edge) (Edge.target edge))
    edges
    (fold_left (fun g node =>
                  nx.add_node g (Node.node_id node)
                    (Node.tech_id node, Node.parameters node))
               nodes nx.empty).

(* an edge names a node id that the node list does not declare *)
Definition dangling (nodes : list Node.t) (edges : list Edge.t) (z : string)
  : Prop :=
  ~ In z (map Node.node_id nodes) /\
  exists e, In e edges /\ (Edge.source e = z \/ Edge.target e = z).

(** ** Vocabulary for [validate_route] *)

(* the technologies at the two ends of an edge, when both ends are declared
   nodes and both technologies are in the catalogue *)
Definition techs_of (tech_db : dict Tech.t) (nodes : list Node.t)
    (edge : Edge.t) : option (Tech.t * Tech.t) :=
  match find (fun n => String.eqb (Node.node_id n) (Edge.source edge)) nodes,
        find (fun n => String.eqb (Node.node_id n) (Edge.target edge)) nodes
  with
  | Some source_node, Some target_node =>
      match PyDict.get tech_db (Node.tech_id source_node),
            PyDict.get tech_db (Node.tech_id target_node) with
      | Some source_tech, Some target_tech => Some (source_tech, target_tech)
      | _, _ => None
      end
  | _, _ => None
  end.

(* the target accepts some kinds and the source produces none of them *)
Definition offending (tech_db : dict Tech.t) (nodes : list Node.t)
    (edge : Edge.t) : bool :=
  match techs_of tech_db nodes edge with
  | Some (source_tech, target_tech) =>
      match Tech.accepts target_tech with
      | [] => false
      | _ :: _ =>
          negb (intersects (Tech.outputs source_tech) (Tech.accepts target_tech))
      end
  | None => false
  end.

(* the error entries an edge is due: one when it offends, none otherwise *)
Definition errors_for (tech_db : dict Tech.t) (nodes : list Node.t)
    (edge : Edge.t) : list error_entry :=
  match techs_of tech_db nodes edge with
  | Some (source_tech, target_tech) =>
      if offending tech_db nodes edge
      then [incompatible edge source_tech target_tech]
      else []
  | None => []
  end.

(* closes a goal [x <> y] between two float constants *)
Ltac float_discr :=
  let H := fresh in
  intro H; apply (f_equal Prim2SF) in H; vm_compute in H; discriminate H.

(** ** Vocabulary of the further properties *)

(* the six metrics _aggregate_results adds up *)
Definition summed_keys : list string :=
  [ "biogas_nm3_day"; "methane_nm3_day"; "biomethane_nm3_day";
    "electricity_kwh_day"; "thermal_kwh_day"; "annual_revenue_brl" ]%string.

(* none of the summed metrics of a result record is a string *)
Definition numeric (results : dict value) : bool :=
  forallb (fun k => match PyDict.get results k with
                    | Some (VStr _) => false
                    | _ => true
                    end) summed_keys.

(* a result record carries the annotations calculate_route adds *)
Definition annotated (results : dict value) (tech_id : string) (tech : Tech.t)
  : Prop :=
  PyDict.get results "tech_id" = Some (VStr tech_id) /\
  PyDict.get results "tech_name" = Some (VStr (Tech.name tech)) /\
  PyDict.get results "category" = Some (VStr (Tech.category tech)).

(* the exceptions calculate_route can end with *)
Definition route_error (e : exn) : Prop :=
  e = ValueError cycle_message \/
  (exists tech_id, e = unknown_tech tech_id) \/
  e = KeyError "tech_id" \/
  e = ZeroDivisionError.

(* what [process_nodes] can raise *)
Definition node_error (e : exn) : Prop :=
  (exists tech_id, e = unknown_tech tech_id) \/
  e = KeyError "tech_id" \/ e = ZeroDivisionError.

(** ** The HTTP layer (backend/main.py) *)

Module api.

(* the detail of an HTTPException: a text, or f"{prefix}{str(e)}", kept as
   the prefix and the exception whose text follows it *)
Inductive detail : Type :=
| Text (s : string)
| TextOf (prefix : string) (e : exn).

Inductive response (A : Type) : Type :=
| Return (body : A)
| HTTPException (status_code : nat) (d : detail).
Arguments Return {A} body.
Arguments HTTPException {A} status_code d.

(* GET /api/technologies/{category}; the body is
   (success, category, count, technologies) *)
Definition get_technologies_by_category (tech_db : dict Tech.t)
    (category : string) : response (bool * string * nat * dict Tech.t) :=
  let filtered :=
    filter (fun kv => String.eqb (Tech.category (snd kv)) category) tech_db in
  if PyDict.is_empty filtered then
    HTTPException 404
      (Text ("No technologies found for category '" ++ category ++ "'")%string)
  else Return (true, category, length filtered, filtered).

(* GET /api/technologies/detail/{tech_id}; the body is (success, technology) *)
Definition get_technology_detail (tech_db : dict Tech.t) (tech_id : string)
    : response (bool * Tech.t) :=
  match PyDict.get tech_db tech_id with
  | None => HTTPException 404 (Text ("Technology '" ++ tech_id ++ "' not found")%string)
  | Some tech => Return (true, tech)
  end.

(* the request body of POST /api/scenarios *)
Module ScenarioCreate.
Record t : Type := mk {
  name : string;
  description : option string;
  nodes : list Node.t;
  edges : list Edge.t
}.
End ScenarioCreate.

(* a stored scenario *)
Module Scenario.
Record t : Type := mk {
  id : string;
  name : string;
  description : option string;
  nodes : list Node.t;
  edges : list Edge.t;
  share_token : string;
  created_at : string;
  updated_at : string
}.
End Scenario.

(* scenarios_storage *)
Definition storage : Type := dict Scenario.t.

(* POST /api/scenarios.  The two uuid4 values and the two readings of the
   clock come from outside: [uuid_a] is str(uuid.uuid4()), [uuid_b] is
   uuid.uuid4().hex, [now_a] and [now_b] are datetime.now().isoformat().
   Nothing in the body of the try raises, so its except branch is not
   modelled.  The body is (success, id, share_token, share_url). *)
Definition create_scenario (scenarios_storage : storage)
    (scenario : ScenarioCreate.t) (uuid_a uuid_b now_a now_b : string)
    : response (bool * string * string * string) * storage :=
  let scenario_id := uuid_a in
  let share_token := substring 0 8 uuid_b in
  let stored :=
    {| Scenario.id := scenario_id;
       Scenario.name := ScenarioCreate.name scenario;
       Scenario.description := ScenarioCreate.description scenario;
       Scenario.nodes := ScenarioCreate.nodes scenario;
       Scenario.edges := ScenarioCreate.edges scenario;
       Scenario.share_token := share_token;
       Scenario.created_at := now_a;
       Scenario.updated_at := now_b |} in
  (Return (true, scenario_id, share_token, ("/s/" ++ share_token)%string),
   PyDict.set scenarios_storage scenario_id stored).

Definition scenario_not_found {A : Type} (scenario_id : string) : response A :=
  HTTPException 404 (Text ("Scenario '" ++ scenario_id ++ "' not found")%string).

(* GET /api/scenarios/{scenario_id}; the body is (success, scenario) *)
Definition get_scenario (scenarios_storage : storage) (scenario_id : string)
    : response (bool * Scenario.t) :=
  match PyDict.get scenarios_storage scenario_id with
  | None => scenario_not_found scenario_id
  | Some scenario => Return (true, scenario)
  end.

(* GET /api/scenarios/shared/{share_token}: next(...) over the values in
   insertion order *)
Definition get_shared_scenario (scenarios_storage : storage)
    (share_token : string) : response (bool * Scenario.t) :=
  match find (fun kv => String.eqb (Scenario.share_token (snd kv)) share_token)
             scenarios_storage with
  | None => HTTPException 404 (Text "Shared scenario not found")
  | Some (_, scenario) => Return (true, scenario)
  end.

(* GET /api/scenarios; the body is (success, count, scenarios) *)
Definition list_scenarios (scenarios_storage : storage)
    : response (bool * nat * list Scenario.t) :=
  Return (true, length scenarios_storage, map snd scenarios_storage).

(* DELETE /api/scenarios/{scenario_id}; the body is (success, message) *)
Definition delete_scenario (scenarios_storage : storage) (scenario_id : string)
    : response (bool * string) * storage :=
  if PyDict.mem scenarios_storage scenario_id then
    (Return (true, "Scenario deleted successfully"%string),
     PyDict.del scenarios_storage scenario_id)
  else (scenario_not_found scenario_id, scenarios_storage).

(* one entry of comparison_results: the summary, or "error": str(e), kept
   as the exception *)
Inductive comparison : Type :=
| Compared (scenario_id scenario_name : string) (summary : dict float)
| Failed (scenario_id scenario_name : string) (error : exn).

Definition compared_id (c : comparison) : string :=
  match c with
  | Compared scenario_id _ _ => scenario_id
  | Failed scenario_id _ _ => scenario_id
  end.

(* the body of "for scenario_id in scenario_ids", after the lookup *)
Definition compare_one (tech_db : dict Tech.t) (scenario_id : string)
    (scenario : Scenario.t) : comparison :=
  match calculate_route tech_db (Scenario.nodes scenario)
          (Scenario.edges scenario) with
  | Ok results =>
      Compared scenario_id (Scenario.name scenario) (summary results)
  | Raise e => Failed scenario_id (Scenario.name scenario) e
  end.

Fixpoint compare_loop (tech_db : dict Tech.t) (scenarios_storage : storage)
    (scenario_ids : list string) (comparison_results : list comparison)
    : response (list comparison) :=
  match scenario_ids with
  | [] => Return comparison_results
  | scenario_id :: rest =>
      match PyDict.get scenarios_storage scenario_id with
      | None => scenario_not_found scenario_id
      | Some scenario =>
          compare_loop tech_db scenarios_storage rest
            (comparison_results ++ [compare_one tech_db scenario_id scenario])
      end
  end.

(* POST /api/compare; the body is (success, scenarios_compared, results) *)
Definition compare_scenarios (tech_db : dict Tech.t)
    (scenarios_storage : storage) (scenario_ids : list string)
    : response (bool * nat * list comparison) :=
  if Nat.ltb (length scenario_ids) 2 then
    HTTPException 400 (Text "At least 2 scenarios required for comparison")
  else
    match compare_loop tech_db scenarios_storage scenario_ids [] with
    | Return results => Return (true, length scenario_ids, results)
    | HTTPException status_code d => HTTPException status_code d
    end.

(* POST /api/calculate: str(e) of a ValueError is its message *)
Definition calculate_route (tech_db : dict Tech.t) (nodes : list Node.t)
    (edges : list Edge.t) : response CalculationResult :=
  match calculate_route tech_db nodes edges with
  | Ok results => Return results
  | Raise (ValueError msg) =>
      HTTPException 400 (Text ("Calculation error: " ++ msg)%string)
  | Raise e => HTTPException 500 (TextOf "Internal server error: " e)
  end.

End api.

(* the storage is a dict whose scenarios carry their own key as "id" *)
Definition store_ok (s : api.storage) : Prop :=
  NoDup (PyDict.keys s) /\
  forall k scenario, PyDict.get s k = Some scenario ->
                     api.Scenario.id scenario = k.

(** ** Vocabulary for the turns of the loop *)

(* no two edges with different sources are filed under the same stream key
   (f"{p}->{n}" does not tell "a->b", "c" from "a", "b->c") *)
Definition distinct_keys (g : nx.DiGraph) : Prop :=
  forall u v u' v',
    In (u, v) (nx._adj g) -> In (u', v') (nx._adj g) ->
    stream_key u v = stream_key u' v' -> u = u'.

(* in the run over [done], the node p had its turn, and the rule of its
   technology, called on the inputs gathered for p, returned [out] *)
Definition rule_output (tech_db : dict Tech.t) (g : nx.DiGraph)
    (done : list string) (p : string) (out : loc) : Prop :=
  exists earlier later st h tech_id params tech ins h1 results h2,
    done = earlier ++ p :: later /\
    process_nodes tech_db g earlier ([], []) [] = Ok (st, h) /\
    PyDict.get (nx._node g) p = Some (Some (tech_id, params)) /\
    PyDict.get tech_db tech_id = Some tech /\
    gather_inputs (fst st) p (nx.predecessors g p) h = Ok (ins, h1) /\
    _calculate_node tech params ins h1 = Ok (out, results, h2).

(* every node can be calculated: the edges join declared nodes, the
   technologies are in the catalogue, and no digester divides by a zero
   ch4_content *)
Definition healthy (tech_db : dict Tech.t) (nodes : list Node.t)
    (edges : list Edge.t) : Prop :=
  (forall e, In e edges ->
             In (Edge.source e) (map Node.node_id nodes) /\
             In (Edge.target e) (map Node.node_id nodes)) /\
  (forall n, In n nodes ->
             exists tech,
               PyDict.get tech_db (Node.tech_id n) = Some tech /\
               (Tech.category tech = "digester"%string ->
                (PyDict.get_default (Tech.defaults tech) "ch4_content" 0.60
                 =? 0)%float = false)).

(** * Properties *)

(** ** Floats *)

Lemma SFadd_comm (x y : spec_float) : SFadd prec emax x y = SFadd prec emax y x.
Proof.
  destruct x as [sx|sx| |sx mx ex], y as [sy|sy| |sy my ey];
    try reflexivity;
    try (destruct sx, sy; reflexivity).
  unfold SFadd. rewrite (Z.min_comm ey ex). f_equal. apply Z.add_comm.
Qed.

Lemma float_add_comm (x y : float) : (x + y = y + x)%float.
Proof.
  apply Prim2SF_inj. rewrite !add_spec. apply SFadd_comm.
Qed.

(** ** Dictionaries *)

Section DictFacts.
Context {V : Type}.
  Implicit Types (d : dict V) (k : string) (v : V).

Lemma get_set_same d k v : PyDict.get (PyDict.set d k v) k = Some v.
Proof.
  induction d as [|[k' v'] d IH]; simpl.
  - now rewrite String.eqb_refl.
  - destruct (String.eqb k' k) eqn:E; simpl; rewrite E; auto.
Qed.

Lemma get_set_other d k k' v :
  k' <> k -> PyDict.get (PyDict.set d k v) k' = PyDict.get d k'.
Proof.
  intros N. induction d as [|[k0 v0] d IH]; simpl.
  - destruct (String.eqb k k') eqn:E; auto.
    apply String.eqb_eq in E. congruence.
  - destruct (String.eqb k0 k) eqn:E; simpl.
    + apply String.eqb_eq in E. subst k0.
      destruct (String.eqb k k') eqn:E'; auto.
      apply String.eqb_eq in E'. congruence.
    + now rewrite IH.
Qed.

Lemma get_default_set_same d k v dflt :
  PyDict.get_default (PyDict.set d k v) k dflt = v.
Proof. unfold PyDict.get_default. now rewrite get_set_same. Qed.

Lemma get_default_set_other d k k' v dflt :
  k' <> k ->
  PyDict.get_default (PyDict.set d k v) k' dflt = PyDict.get_default d k' dflt.
Proof. intros N. unfold PyDict.get_default. now rewrite get_set_other. Qed.

Lemma get_None_keys d k : PyDict.get d k = None <-> ~ In k (PyDict.keys d).
Proof.
  induction d as [|[k' v'] d IH]; simpl.
  - tauto.
  - destruct (String.eqb k' k) eqn:E.
    + apply String.eqb_eq in E. split; [discriminate | tauto].
    + apply String.eqb_neq in E. rewrite IH. tauto.
Qed.

Lemma mem_keys d k : PyDict.mem d k = true <-> In k (PyDict.keys d).
Proof.
  unfold PyDict.mem. pose proof (get_None_keys d k) as H.
  destruct (PyDict.get d k).
  - split; auto. intros _.
    destruct (in_dec string_dec k (PyDict.keys d)); auto.
    apply H in n. discriminate.
  - split; [discriminate|]. intros I. now apply H in I.
Qed.

Lemma keys_set_new d k v :
  ~ In k (PyDict.keys d) -> PyDict.keys (PyDict.set d k v) = PyDict.keys d ++ [k].
Proof.
  induction d as [|[k' v'] d IH]; simpl; intros N; auto.
  destruct (String.eqb k' k) eqn:E.
  - apply String.eqb_eq in E. tauto.
  - simpl. f_equal. apply IH. tauto.
Qed.

Lemma keys_set_old d k v :
  In k (PyDict.keys d) -> PyDict.keys (PyDict.set d k v) = PyDict.keys d.
Proof.
  induction d as [|[k' v'] d IH]; simpl; intros I; [tauto|].
  destruct (String.eqb k' k) eqn:E; simpl; auto.
  f_equal. apply IH. destruct I as [I|I]; auto.
  apply String.eqb_neq in E. congruence.
Qed.

Lemma keys_set_incl d k v k' :
  In k' (PyDict.keys (PyDict.set d k v)) <-> In k' (PyDict.keys d) \/ k' = k.
Proof.
  destruct (in_dec string_dec k (PyDict.keys d)) as [I|N].
  - rewrite keys_set_old by assumption. split; auto.
    intros [H|H]; subst; auto.
  - rewrite keys_set_new by assumption. rewrite in_app_iff. simpl.
    split; intros [H|H]; auto.
    + destruct H as [H|[]]; auto.
Qed.

Lemma keys_set_NoDup d k v :
  NoDup (PyDict.keys d) -> NoDup (PyDict.keys (PyDict.set d k v)).
Proof.
  intros ND. destruct (in_dec string_dec k (PyDict.keys d)) as [I|N].
  - now rewrite keys_set_old.
  - rewrite keys_set_new by assumption.
    apply NoDup_app; auto.
    + repeat constructor. simpl. tauto.
    + intros x Hx [Hy|[]]. subst. tauto.
Qed.

Lemma get_del_same d k :
  NoDup (PyDict.keys d) -> PyDict.get (PyDict.del d k) k = None.
Proof.
  induction d as [|[k' v'] d IH]; simpl; intros ND; auto.
  inversion ND as [|? ? Hn ND']; subst.
  destruct (String.eqb k' k) eqn:E.
  - apply String.eqb_eq in E. subst. now apply get_None_keys.
  - simpl. rewrite E. auto.
Qed.

Lemma get_del_other d k k' :
  k' <> k -> PyDict.get (PyDict.del d k) k' = PyDict.get d k'.
Proof.
  intros N. induction d as [|[k0 v0] d IH]; simpl; auto.
  destruct (String.eqb k0 k) eqn:E; simpl.
  - apply String.eqb_eq in E. subst k0.
    destruct (String.eqb k k') eqn:E'; auto.
    apply String.eqb_eq in E'. congruence.
  - now rewrite IH.
Qed.

Lemma keys_del_incl d k k' :
  In k' (PyDict.keys (PyDict.del d k)) -> In k' (PyDict.keys d).
Proof.
  induction d as [|[k0 v0] d IH]; simpl; auto.
  destruct (String.eqb k0 k); simpl; tauto.
Qed.

Lemma keys_del_NoDup d k :
  NoDup (PyDict.keys d) -> NoDup (PyDict.keys (PyDict.del d k)).
Proof.
  induction d as [|[k0 v0] d IH]; simpl; intros ND; auto.
  inversion ND as [|? ? Hn ND']; subst.
  destruct (String.eqb k0 k); simpl; auto.
  constructor; auto. intros I. apply Hn. now apply keys_del_incl in I.
Qed.

Lemma is_empty_get d :
  PyDict.is_empty d = true <-> forall k, PyDict.get d k = None.
Proof.
  destruct d as [|[k v] d]; simpl.
  - tauto.
  - split; [discriminate|]. intros H. specialize (H k).
    rewrite String.eqb_refl in H. discriminate.
Qed.
End DictFacts.

(** ** The rules and the heap *)

Lemma nth_alloc (h : heap) (s : StreamProperties) :
  nth (length h) (h ++ [s]) StreamProperties_default = s.
Proof. rewrite app_nth2 by lia. now rewrite Nat.sub_diag. Qed.

Lemma sum_rest_extends (rest : list loc) :
  forall (r : loc) (h : heap),
    exists l ext, sum_rest r rest h = Ok (l, h ++ ext).
Proof.
  induction rest as [|inp rest IH]; intros r h; simpl.
  - exists r, []. unfold ret. now rewrite app_nil_r.
  - unfold bind, deref, alloc.
    destruct (IH (length h)
                 (h ++ [stream_add (nth r h StreamProperties_default)
                                   (nth inp h StreamProperties_default)]))
      as (l & ext & E).
    rewrite E. eexists l, (_ :: ext). now rewrite <- app_assoc.
Qed.

(* _sum_inputs never raises and only adds objects to the heap *)
Lemma sum_inputs_extends (inputs : list loc) (h : heap) :
  exists l ext, _sum_inputs inputs h = Ok (l, h ++ ext).
Proof.
  destruct inputs as [|first rest]; simpl.
  - exists (length h), [StreamProperties_default]. reflexivity.
  - apply sum_rest_extends.
Qed.

(* two inputs: one new object, the sum of the two *)
Lemma sum_inputs_pair (a b : loc) (h : heap) :
  _sum_inputs [a; b] h =
  Ok (length h,
      h ++ [stream_add (nth a h StreamProperties_default)
                       (nth b h StreamProperties_default)]).
Proof. reflexivity. Qed.

(* one input: the input object itself, no copy *)
Lemma sum_inputs_single (a : loc) (h : heap) : _sum_inputs [a] h = Ok (a, h).
Proof. reflexivity. Qed.

(** C5, as amended.  Whatever the technology, the parameters, the input
    streams and the metrics computed, an end-use node returns a fresh
    default stream: mass flow, volume flow, energy content, methane content,
    COD and volatile solids are 0, while temperature is 35 and pressure is 1
    (the dataclass defaults), and the rule never raises. *)
Theorem enduse_emits_default_stream
    (tech : Tech.t) (params : dict float) (inputs : list loc) (h : heap) :
  exists s,
    emitted (_calc_enduse tech params inputs h) = Some s /\
    s = StreamProperties_default /\
    mass_flow s = 0%float /\ volume_flow s = 0%float /\
    energy_content s = 0%float /\ methane_content s = 0%float /\
    cod s = 0%float /\ vs_content s = 0%float /\
    temperature s = 35%float /\ pressure s = 1%float.
Proof.
  exists StreamProperties_default. split; [|repeat split].
  unfold _calc_enduse, bind.
  destruct (sum_inputs_extends inputs h) as (l & ext & E). rewrite E.
  unfold deref, alloc, ret, emitted. f_equal. apply nth_alloc.
Qed.

(** C5, the claim as stated fails: a co-generation engine fed 7000 Nm3 of
    methane returns a stream whose temperature is 35 and pressure 1, not a
    stream with all eight fields zero. *)
Lemma enduse_stream_not_all_zero :
  emitted (_calc_enduse Catalogue.ice_cogen [] [0]
             [ {| mass_flow := 0; volume_flow := 10769.23076923077;
                  energy_content := 250599.99999999997;
                  methane_content := 7000; cod := 0; vs_content := 0;
                  temperature := 35; pressure := 1 |}%float ])
  <> Some all_zero.
Proof.
  intro H.
  apply (f_equal (fun o => match o with
                           | Some s => Prim2SF (temperature s)
                           | None => S754_nan
                           end)) in H.
  vm_compute in H. discriminate H.
Qed.

(** C9.  A feedstock node whose technology id is one of the liquid ids
    (vinasse, wash_water), with quantity 1000 and COD coefficient 25, yields
    a new stream with COD = 25000 and volatile solids = 17500, whatever the
    inbound streams; the heap it was given is untouched. *)
Theorem liquid_feedstock_cod_and_vs
    (tech : Tech.t) (params : dict float) (inputs : list loc) (h : heap) :
  Tech.category tech = "feedstock"%string ->
  in_list (Tech.id tech) ["vinasse"; "wash_water"]%string = true ->
  PyDict.get_default params "quantity"
    (match Tech.parameters tech with
     | p :: _ => ParamSpec.default_value p
     | [] => 100%float
     end) = 1000%float ->
  PyDict.get_default (Tech.defaults tech) "cod" 25%float = 25%float ->
  exists results s,
    _calculate_node tech params inputs h = Ok (length h, results, h ++ [s]) /\
    emitted (_calculate_node tech params inputs h) = Some s /\
    cod s = 25000%float /\ vs_content s = 17500%float /\
    volume_flow s = 1000%float.
Proof.
  intros Hcat Hid Hq Hc.
  unfold _calculate_node. rewrite Hcat, String.eqb_refl.
  unfold _calc_feedstock. rewrite Hid, Hq, Hc.
  unfold bind, alloc, deref, ret, emitted.
  do 2 eexists. split; [reflexivity|]. split.
  - f_equal. apply nth_alloc.
  - repeat split; vm_compute; reflexivity.
Qed.

Lemma liquid_feedstock_cod_and_vs_witness :
  exists results s,
    _calculate_node Catalogue.vinasse [] [] [] = Ok (0, results, [s]) /\
    emitted (_calculate_node Catalogue.vinasse [] [] []) = Some s /\
    cod s = 25000%float /\ vs_content s = 17500%float /\
    volume_flow s = 1000%float.
Proof.
  apply (liquid_feedstock_cod_and_vs Catalogue.vinasse [] [] []);
    reflexivity.
Defined.

(** C2, as amended.  A digester whose summed input carries COD = 25000, with
    efficiency 0.80 (after normalisation) and methane fraction 0.65, takes
    the liquid pathway and returns a new stream with methane volume
    25000 * 0.35 * 0.80 = 7000 and biogas volume 7000 / 0.65
    = 10769.23076923077; its energy content is the binary64 product
    7000 * 35.8 = 250599.99999999997, one unit in the last place below
    250600. *)
Theorem digester_liquid_pathway
    (tech : Tech.t) (params : dict float) (inputs : list loc) (h h1 : heap)
    (combined : loc) :
  _sum_inputs inputs h = Ok (combined, h1) ->
  cod (nth combined h1 StreamProperties_default) = 25000%float ->
  (let efficiency :=
     PyDict.get_default params "efficiency"
       (PyDict.get_default (Tech.defaults tech) "efficiency" 0.70%float) in
   if (1 <? efficiency)%float then (efficiency / 100)%float else efficiency)
  = 0.80%float ->
  PyDict.get_default (Tech.defaults tech) "ch4_content" 0.60%float = 0.65%float ->
  exists results s,
    _calc_digester tech params inputs h = Ok (length h1, results, h1 ++ [s]) /\
    emitted (_calc_digester tech params inputs h) = Some s /\
    methane_content s = (25000 * 0.35 * 0.80)%float /\
    methane_content s = 7000%float /\
    volume_flow s = (7000 / 0.65)%float /\
    volume_flow s = 10769.23076923077%float /\
    energy_content s = (7000 * 35.8)%float /\
    energy_content s = 250599.99999999997%float /\
    mass_flow s = 0%float /\ cod s = 0%float /\ vs_content s = 0%float.
Proof.
  intros Hsum Hcod Heff Hch4. cbv zeta in Heff.
  unfold _calc_digester, bind. rewrite Hsum. unfold deref.
  rewrite Hcod, Heff, Hch4.
  replace (0 <? 25000)%float with true by (vm_compute; reflexivity).
  unfold py_div.
  replace (0.65 =? 0)%float with false by (vm_compute; reflexivity).
  unfold ret, alloc, emitted.
  do 2 eexists. split; [reflexivity|]. split.
  - f_equal. apply nth_alloc.
  - repeat split; vm_compute; reflexivity.
Qed.

Lemma digester_liquid_pathway_witness :
  exists results s,
    _calc_digester Catalogue.uasb [] [0] [mkStream 0 1000 0 0 25000 17500 35 1]
    = Ok (1, results, [mkStream 0 1000 0 0 25000 17500 35 1] ++ [s]) /\
    emitted (_calc_digester Catalogue.uasb [] [0]
               [mkStream 0 1000 0 0 25000 17500 35 1]) = Some s /\
    methane_content s = (25000 * 0.35 * 0.80)%float /\
    methane_content s = 7000%float /\
    volume_flow s = (7000 / 0.65)%float /\
    volume_flow s = 10769.23076923077%float /\
    energy_content s = (7000 * 35.8)%float /\
    energy_content s = 250599.99999999997%float /\
    mass_flow s = 0%float /\ cod s = 0%float /\ vs_content s = 0%float.
Proof.
  apply (digester_liquid_pathway Catalogue.uasb [] [0]
           [mkStream 0 1000 0 0 25000 17500 35 1]
           [mkStream 0 1000 0 0 25000 17500 35 1] 0);
    reflexivity.
Defined.

(** C2, the claim as stated fails: for the UASB digester of the catalogue
    (efficiency 0.80, methane fraction 0.65) fed the vinasse stream
    (COD = 25000), the energy content of the output stream is not 250600.
    The float written 35.8 is 35.79999999999999715782905696...; its exact
    product with 7000 is 250599.99999999998010..., which lies nearer to the
    float 250599.99999999997089616954... than to 250600, and Python's
    [7000.0 * 35.8] is that float. *)
Lemma digester_energy_not_250600 :
  option_map energy_content
    (emitted (_calc_digester Catalogue.uasb [] [0]
                [mkStream 0 1000 0 0 25000 17500 35 1]))
  <> Some 250600%float.
Proof.
  intro H.
  apply (f_equal (fun o => match o with
                           | Some x => Prim2SF x
                           | None => S754_nan
                           end)) in H.
  vm_compute in H. discriminate H.
Qed.

(** C7, as amended.  The stream sum is commutative on the six flow/content
    fields: for any two streams each of these fields of the sum is the
    binary64 sum of the components, in either order; [_sum_inputs] on two
    inputs returns that sum as a new object; and masses 100 and 200 sum to
    exactly 300. *)
Theorem stream_sum_commutative
    (a b : StreamProperties) (h : heap) (la lb : loc) :
  flow_eq (stream_add a b) (stream_add b a) /\
  mass_flow (stream_add a b) = (mass_flow a + mass_flow b)%float /\
  volume_flow (stream_add a b) = (volume_flow a + volume_flow b)%float /\
  energy_content (stream_add a b) = (energy_content a + energy_content b)%float /\
  methane_content (stream_add a b) = (methane_content a + methane_content b)%float /\
  cod (stream_add a b) = (cod a + cod b)%float /\
  vs_content (stream_add a b) = (vs_content a + vs_content b)%float /\
  emitted (bind (_sum_inputs [la; lb]) (fun l => ret (l, [])) h)
  = Some (stream_add (nth la h StreamProperties_default)
                     (nth lb h StreamProperties_default)) /\
  mass_flow (stream_add (mass_only 100) (mass_only 200)) = 300%float.
Proof.
  split.
  { unfold flow_eq, stream_add; simpl. repeat split; apply float_add_comm. }
  repeat split.
  unfold bind. rewrite sum_inputs_pair.
  unfold ret, emitted. f_equal. apply nth_alloc.
Qed.

(** C7, the claim as stated fails: binary64 addition rounds, so the mass of
    three streams with masses 0.1, 0.2 and 0.3 depends on the grouping. *)
Lemma stream_sum_not_associative :
  ~ flow_eq
      (stream_add (stream_add (mass_only 0.1) (mass_only 0.2)) (mass_only 0.3))
      (stream_add (mass_only 0.1) (stream_add (mass_only 0.2) (mass_only 0.3))).
Proof.
  intros (H & _). revert H. simpl. float_discr.
Qed.

(** C3, as amended.  An efficiency or recovery supplied as a value above 1
    is divided by 100 before use, in the same way in every rule that reads
    one from the node's parameters.  For x above 1 the digester (efficiency),
    the upgrading unit (recovery) and the end-use rules (electrical and
    thermal efficiency of co-generation, thermal efficiency of the boiler)
    report x / 100 as the ratio they worked with; and when x / 100 is itself
    a fraction (x at most 100) each rule returns for x exactly what it
    returns for x / 100, result record, output stream and heap.  80 / 100 is
    the float 0.80.  Purity is no such parameter: the upgrading unit takes
    ch4_purity from the defaults of the technology whatever the node's
    parameters hold, and reports it times 100 without comparing it to 1; the
    flare does the same with destruction_efficiency. *)
Theorem percent_is_normalised
    (x : float) (tech : Tech.t) (params : dict float) (inputs : list loc)
    (h : heap) :
  (1 <? x)%float = true ->
  as_fraction x = (x / 100)%float /\
  (* the ratio a rule reports *)
  (forall l results h',
      _calc_digester tech (PyDict.set params "efficiency" x) inputs h
      = Ok (l, results, h') ->
      PyDict.get results "conversion_efficiency"
      = Some (VNum (py_round (x / 100 * 100)%float 1))) /\
  metric (_calc_upgrading tech (PyDict.set params "recovery" x) inputs h)
    "methane_recovery_percent"
  = Some (VNum (py_round (x / 100 * 100)%float 1)) /\
  (in_list (Tech.id tech)
     ["ice_cogen"; "gas_turbine"; "microturbine"; "fuel_cell"]%string = true ->
   metric (_calc_enduse tech (PyDict.set params "elec_efficiency" x) inputs h)
     "electrical_efficiency_percent"
   = Some (VNum (py_round (x / 100 * 100)%float 1)) /\
   metric (_calc_enduse tech (PyDict.set params "therm_efficiency" x) inputs h)
     "thermal_efficiency_percent"
   = Some (VNum (py_round (x / 100 * 100)%float 1))) /\
  (Tech.id tech = "boiler"%string ->
   metric (_calc_enduse tech (PyDict.set params "therm_efficiency" x) inputs h)
     "thermal_efficiency_percent"
   = Some (VNum (py_round (x / 100 * 100)%float 1))) /\
  (* a percentage and the fraction it stands for give the same outcome *)
  ((1 <? x / 100)%float = false ->
   _calc_digester tech (PyDict.set params "efficiency" x) inputs h
   = _calc_digester tech (PyDict.set params "efficiency" (x / 100)%float)
       inputs h /\
   _calc_upgrading tech (PyDict.set params "recovery" x) inputs h
   = _calc_upgrading tech (PyDict.set params "recovery" (x / 100)%float)
       inputs h /\
   _calc_enduse tech (PyDict.set params "elec_efficiency" x) inputs h
   = _calc_enduse tech (PyDict.set params "elec_efficiency" (x / 100)%float)
       inputs h /\
   _calc_enduse tech (PyDict.set params "therm_efficiency" x) inputs h
   = _calc_enduse tech (PyDict.set params "therm_efficiency" (x / 100)%float)
       inputs h) /\
  (80 / 100 = 0.80)%float /\
  (* purity: from the defaults only, and as it is *)
  (forall params' : dict float,
      metric (_calc_upgrading tech params' inputs h) "methane_purity_percent"
      = Some (VNum (py_round
                      (PyDict.get_default (Tech.defaults tech) "ch4_purity" 0.97
                       * 100)%float 1))) /\
  (Tech.id tech = "flare"%string ->
   forall params' : dict float,
     metric (_calc_enduse tech params' inputs h)
       "destruction_efficiency_percent"
     = Some (VNum (py_round
                     (PyDict.get_default (Tech.defaults tech)
                        "destruction_efficiency" 0.99 * 100)%float 1))).
Proof.
  intros H1.
  destruct (sum_inputs_extends inputs h) as (c & ext & E).
  split; [unfold as_fraction; now rewrite H1|].
  split.
  { intros l results h' H. unfold _calc_digester, bind in H.
    rewrite E in H. unfold deref in H.
    rewrite get_default_set_same, H1 in H.
    destruct (0 <? _)%float; unfold py_div in H.
    - destruct (_ =? 0)%float; unfold raise, ret, alloc in H;
        [discriminate|]. injection H as <- <- <-. reflexivity.
    - unfold ret, alloc in H. injection H as <- <- <-. reflexivity. }
  split.
  { unfold _calc_upgrading, bind. rewrite E. unfold deref, alloc, ret.
    rewrite get_default_set_same, H1. reflexivity. }
  split.
  { intros Hid. split.
    - unfold _calc_enduse, bind. rewrite E. unfold deref, alloc, ret.
      rewrite Hid, !get_default_set_same, H1. reflexivity.
    - unfold _calc_enduse, bind. rewrite E. unfold deref, alloc, ret.
      rewrite Hid, !get_default_set_same, H1. reflexivity. }
  split.
  { intros Hid. unfold _calc_enduse, bind. rewrite E.
    unfold deref, alloc, ret. rewrite Hid, !get_default_set_same, H1.
    reflexivity. }
  split;
    [|split; [vm_compute; reflexivity|split]].
  2:{ intros params'. unfold _calc_upgrading, bind. rewrite E.
      unfold deref, alloc, ret. reflexivity. }
  2:{ intros Hid params'. unfold _calc_enduse, bind. rewrite E.
      unfold deref, alloc, ret. rewrite Hid. reflexivity. }
  intros H2. split; [|split; [|split]].
  - unfold _calc_digester. rewrite !get_default_set_same, H1, H2. reflexivity.
  - unfold _calc_upgrading. rewrite !get_default_set_same, H1, H2. reflexivity.
  - unfold _calc_enduse.
    rewrite !get_default_set_same, H1, H2.
    rewrite !(get_default_set_other params "elec_efficiency" "therm_efficiency")
      by discriminate.
    rewrite !(get_default_set_other params "elec_efficiency" "elec_price")
      by discriminate.
    rewrite !(get_default_set_other params "elec_efficiency" "price")
      by discriminate.
    reflexivity.
  - unfold _calc_enduse.
    rewrite !get_default_set_same, H1, H2.
    rewrite !(get_default_set_other params "therm_efficiency" "elec_efficiency")
      by discriminate.
    rewrite !(get_default_set_other params "therm_efficiency" "elec_price")
      by discriminate.
    rewrite !(get_default_set_other params "therm_efficiency" "price")
      by discriminate.
    reflexivity.
Qed.

Lemma percent_is_normalised_witness :
  (1 <? 80)%float = true /\
  as_fraction 80 = 0.80%float /\
  metric (_calc_upgrading Catalogue.psa (PyDict.set [] "recovery" 80%float)
            [] [])
    "methane_recovery_percent"
  = Some (VNum 80) /\
  _calc_digester Catalogue.uasb (PyDict.set [] "efficiency" 80%float) [] []
  = _calc_digester Catalogue.uasb (PyDict.set [] "efficiency" 0.80%float) [] [].
Proof.
  split; [reflexivity|].
  destruct (percent_is_normalised 80 Catalogue.uasb [] [] [] eq_refl)
    as (H1 & _ & _ & _ & _ & H6 & _).
  destruct (percent_is_normalised 80 Catalogue.psa [] [] [] eq_refl)
    as (_ & _ & H3 & _).
  split; [exact H1|]. split; [exact H3|].
  exact (proj1 (H6 eq_refl)).
Defined.

(** C3, the claim as stated fails for purity.  The PSA unit of the
    catalogue has the default ch4_purity 0.98.  A ch4_purity of 95 supplied
    in the node's parameters is not divided by 100 and used: it is not read
    at all, and the unit reports 98 percent as without it.  A profile whose
    default ch4_purity is 98 is not normalised to 0.98 either: the unit
    reports 9800 percent. *)
Lemma purity_is_not_normalised :
  let psa98 :=
    Tech.mk "psa" "upgrading" "PSA" ["biogas"%string]
      ["biomethane"%string; "co2"%string] [ParamSpec.mk "recovery" 98]
      [ ("recovery"%string, 0.98%float); ("energy_use"%string, 0.25%float);
        ("ch4_purity"%string, 98%float); ("capex"%string, 1200%float) ] in
  (1 <? 95)%float = true /\
  metric (_calc_upgrading Catalogue.psa [("ch4_purity"%string, 95%float)] [] [])
    "methane_purity_percent"
  = Some (VNum 98) /\
  metric (_calc_upgrading Catalogue.psa [] [] []) "methane_purity_percent"
  = Some (VNum 98) /\
  (1 <? 98)%float = true /\
  py_round (as_fraction 98 * 100)%float 1 = 98%float /\
  metric (_calc_upgrading psa98 [] [] []) "methane_purity_percent"
  = Some (VNum 9800).
Proof.
  cbv zeta. repeat split; vm_compute; reflexivity.
Qed.

(** ** Which rules leave the recorded streams alone *)

Lemma update_nth_last (h : heap) (s s' : StreamProperties) :
  update_nth (h ++ [s]) (length h) s' = h ++ [s'].
Proof.
  induction h as [|x h IH]; simpl; auto. now rewrite IH.
Qed.

(* with two inputs or more the sum is a new object, the last of the heap *)
Lemma sum_rest_fresh (rest : list loc) :
  rest <> [] ->
  forall (r : loc) (h : heap),
    exists ext s, sum_rest r rest h = Ok (length (h ++ ext), h ++ ext ++ [s]).
Proof.
  induction rest as [|inp rest IH]; intros Hne r h; [congruence|].
  simpl. unfold bind, deref, alloc.
  destruct rest as [|x rest].
  - simpl. unfold ret. eexists [], _. rewrite app_nil_r. reflexivity.
  - destruct (IH ltac:(discriminate) (length h)
                 (h ++ [stream_add (nth r h StreamProperties_default)
                                   (nth inp h StreamProperties_default)]))
      as (ext & s & E).
    rewrite E. eexists (_ :: ext), s. now rewrite <- !app_assoc.
Qed.

(* every rule but pretreatment only adds objects to the heap *)
Lemma other_rules_keep_heap (tech : Tech.t) (params : dict float)
    (inputs : list loc) (h : heap) (l : loc) (results : dict value)
    (h' : heap) :
  String.eqb (Tech.category tech) "pretreatment" = false ->
  _calculate_node tech params inputs h = Ok (l, results, h') ->
  exists ext, h' = h ++ ext.
Proof.
  intros Hcat. unfold _calculate_node. rewrite Hcat.
  destruct (sum_inputs_extends inputs h) as (c & ext & E).
  repeat match goal with
         | |- context [if String.eqb ?a ?b then _ else _] =>
             destruct (String.eqb a b)
         end.
  - unfold _calc_feedstock.
    destruct (in_list _ _); unfold bind, alloc, deref, ret;
      intros H; injection H as <- <- <-; eauto.
  - unfold _calc_digester, bind. rewrite E. unfold deref.
    destruct (0 <? _)%float.
    + unfold py_div.
      destruct (_ =? 0)%float; unfold raise, ret, alloc; [discriminate|].
      intros H. injection H as <- <- <-. rewrite <- app_assoc. eauto.
    + unfold ret, alloc. intros H. injection H as <- <- <-.
      rewrite <- app_assoc. eauto.
  - unfold _calc_upgrading, bind. rewrite E. unfold deref, alloc, ret.
    intros H. injection H as <- <- <-. rewrite <- app_assoc. eauto.
  - unfold _calc_enduse, bind. rewrite E. unfold deref, alloc, ret.
    intros H. injection H as <- <- <-. rewrite <- app_assoc. eauto.
  - unfold _calc_byproduct, bind. rewrite E. unfold alloc, ret.
    intros H. injection H as <- <- <-. rewrite <- app_assoc. eauto.
  - unfold bind. rewrite E. unfold ret.
    intros H. injection H as <- <- <-. eauto.
Qed.

(* so does pretreatment itself when it has no input or several: the object
   it scales is then the new sum *)
Lemma pretreatment_fresh_keeps_heap (tech : Tech.t) (params : dict float)
    (inputs : list loc) (h : heap) (l : loc) (results : dict value)
    (h' : heap) :
  length inputs <> 1 ->
  _calc_pretreatment tech params inputs h = Ok (l, results, h') ->
  exists ext, h' = h ++ ext.
Proof.
  intros Hlen. unfold _calc_pretreatment, bind.
  destruct inputs as [|first [|second rest]]; [| simpl in Hlen; lia |].
  - simpl. unfold alloc, deref, assign, ret.
    rewrite update_nth_last.
    intros H. injection H as <- <- <-. eauto.
  - destruct (sum_rest_fresh (second :: rest) ltac:(discriminate) first h)
      as (ext & s & E).
    unfold _sum_inputs. rewrite E. unfold deref, assign, ret.
    rewrite (app_assoc h ext [s]), update_nth_last, <- app_assoc.
    intros H. injection H as <- <- <-. eauto.
Qed.

(** C6, the code at the failing input.  A pretreatment node with a single
    inbound edge works on the very object recorded in the stream map:
    [_sum_inputs] returns [inputs[0]] itself and the rule multiplies its
    [vs_content] in place.  On the route bagasse -> thermal hydrolysis the
    feedstock reports 42500 kg of volatile solids, yet the stream recorded
    for its outgoing edge ends at 53125; and a digester fed by the same
    feedstock reads 53125 or 42500 according to the order of the edge list. *)
Theorem pretreatment_mutates_recorded_stream :
  let bagasse_out := mkStream 100000 0 375000 0 0 42500 35 1 in
  let nodes :=
    [ Node.mk "A" "bagasse" []; Node.mk "B" "thermal_hydrolysis" [];
      Node.mk "C" "cstr" [] ]%string in
  (* the rule, on a heap holding the feedstock's stream at address 0 *)
  (exists results h',
      _calc_pretreatment Catalogue.thermal_hydrolysis [] [0] [bagasse_out]
      = Ok (0, results, h') /\
      vs_content (nth 0 h' StreamProperties_default) = 53125%float /\
      vs_content bagasse_out = 42500%float) /\
  (* the route A -> B *)
  (exists r,
      calculate_route Catalogue.TECH_DATABASE
        [ Node.mk "A" "bagasse" []; Node.mk "B" "thermal_hydrolysis" [] ]
        [ Edge.mk "A" "B" ] = Ok r /\
      option_map (fun res => PyDict.get res "vs_available")
        (PyDict.get (node_details r) "A") = Some (Some (VNum 42500)) /\
      option_map vs_content (PyDict.get (streams_out r) "A->B")
      = Some 53125%float) /\
  (* fan-out A -> B, A -> C: the digester C sees B's change or not *)
  (exists r1 r2,
      calculate_route Catalogue.TECH_DATABASE nodes
        [ Edge.mk "A" "B"; Edge.mk "A" "C" ] = Ok r1 /\
      calculate_route Catalogue.TECH_DATABASE nodes
        [ Edge.mk "A" "C"; Edge.mk "A" "B" ] = Ok r2 /\
      option_map (fun res => PyDict.get res "biogas_nm3_day")
        (PyDict.get (node_details r1) "C") = Some (Some (VNum 14875)) /\
      option_map (fun res => PyDict.get res "biogas_nm3_day")
        (PyDict.get (node_details r2) "C") = Some (Some (VNum 11900))).
Proof.
  cbv zeta. split; [|split].
  - do 2 eexists. split; [vm_compute; reflexivity|].
    split; vm_compute; reflexivity.
  - eexists. split; [vm_compute; reflexivity|].
    split; vm_compute; reflexivity.
  - do 2 eexists.
    split; [vm_compute; reflexivity|].
    split; [vm_compute; reflexivity|].
    split; vm_compute; reflexivity.
Qed.

(** ** Lists of node ids *)

Lemma in_list_In (x : string) (l : list string) : in_list x l = true <-> In x l.
Proof.
  unfold in_list. rewrite existsb_exists. split.
  - intros (y & I & E). apply String.eqb_eq in E. now subst.
  - intros I. exists x. split; auto. apply String.eqb_refl.
Qed.

Lemma in_list_false (x : string) (l : list string) :
  in_list x l = false <-> ~ In x l.
Proof.
  rewrite <- in_list_In. destruct (in_list x l); split; congruence.
Qed.

Lemma in_list_app (x : string) (l1 l2 : list string) :
  in_list x (l1 ++ l2) = in_list x l1 || in_list x l2.
Proof. unfold in_list. apply existsb_app. Qed.

Lemma index_of_lt (x : string) (l : list string) :
  index_of x l < length l <-> In x l.
Proof.
  induction l as [|y l IH]; simpl.
  - split; [lia | tauto].
  - destruct (String.eqb y x) eqn:E.
    + apply String.eqb_eq in E. split; [auto | lia].
    + apply String.eqb_neq in E. rewrite <- Nat.succ_lt_mono, IH.
      split; [auto | intros [H|H]; congruence].
Qed.

Lemma index_of_le (x : string) (l : list string) : index_of x l <= length l.
Proof.
  induction l as [|y l IH]; simpl; auto.
  destruct (String.eqb y x); lia.
Qed.

Lemma index_of_app_in (x : string) (l1 l2 : list string) :
  In x l1 -> index_of x (l1 ++ l2) = index_of x l1.
Proof.
  induction l1 as [|y l1 IH]; simpl; [tauto|].
  intros I. destruct (String.eqb y x) eqn:E; auto.
  f_equal. apply IH. destruct I as [I|I]; auto.
  apply String.eqb_neq in E. congruence.
Qed.

Lemma index_of_app_out (x : string) (l1 l2 : list string) :
  ~ In x l1 -> index_of x (l1 ++ l2) = length l1 + index_of x l2.
Proof.
  induction l1 as [|y l1 IH]; simpl; auto.
  intros N. destruct (String.eqb y x) eqn:E.
  - apply String.eqb_eq in E. tauto.
  - f_equal. apply IH. tauto.
Qed.

Lemma index_of_last (x : string) (l : list string) :
  ~ In x l -> index_of x (l ++ [x]) = length l.
Proof.
  intros N. rewrite index_of_app_out by assumption. simpl.
  rewrite String.eqb_refl. lia.
Qed.

(** ** Walks and cycles *)

Lemma path_trans (R : string -> string -> Prop) (u w v : string) :
  path R u w -> path R w v -> path R u v.
Proof.
  induction 1 as [u w H|u x w H _ IH]; intros P.
  - eapply path_step; eauto.
  - eapply path_step; eauto.
Qed.

Lemma path_impl (R R' : string -> string -> Prop) (u v : string) :
  (forall a b, R a b -> R' a b) -> path R u v -> path R' u v.
Proof.
  intros Himp. induction 1.
  - apply path_edge; auto.
  - eapply path_step; eauto.
Qed.

Lemma is_walk_app_r (R : string -> string -> Prop) (l1 l2 : list string) :
  is_walk R (l1 ++ l2) -> is_walk R l2.
Proof.
  induction l1 as [|a l1 IH]; simpl; auto.
  destruct (l1 ++ l2) eqn:E; intros H.
  - destruct l1; [simpl in E; subst; exact I | discriminate].
  - apply IH. tauto.
Qed.

Lemma is_walk_path (R : string -> string -> Prop) (l : list string) :
  forall x y, is_walk R (x :: l ++ [y]) -> path R x y.
Proof.
  induction l as [|a l IH]; intros x y H; simpl in H.
  - apply path_edge. tauto.
  - destruct H as [H1 H2]. eapply path_step; eauto.
Qed.

Lemma is_walk_path_prefix (R : string -> string -> Prop) (l l3 : list string) :
  forall x y, is_walk R (x :: l ++ y :: l3) -> path R x y.
Proof.
  induction l as [|a l IH]; intros x y H; simpl in H.
  - apply path_edge. tauto.
  - destruct H as [H1 H2]. eapply path_step; eauto.
Qed.

(* a list with a repeated element splits around two occurrences of it *)
Lemma repeat_split (l : list string) :
  ~ NoDup l -> exists x l1 l2 l3, l = l1 ++ x :: l2 ++ x :: l3.
Proof.
  induction l as [|a l IH]; intros H.
  - exfalso. apply H. constructor.
  - destruct (in_dec string_dec a l) as [I|N].
    + apply in_split in I. destruct I as (l2 & l3 & ->).
      exists a, [], l2, l3. reflexivity.
    + destruct IH as (x & l1 & l2 & l3 & ->).
      * intros ND. apply H. now constructor.
      * exists x, (a :: l1), l2, l3. reflexivity.
Qed.

(* a non-empty finite set each of whose members has a predecessor in the
   set holds a cycle *)
Lemma closed_set_cycle (R : string -> string -> Prop) (S : string -> Prop)
    (universe : list string) :
  (forall v, S v -> In v universe) ->
  (forall v, S v -> exists p, S p /\ R p v) ->
  forall v0, S v0 -> exists x, path R x x.
Proof.
  intros Hfin Hpred v0 Hv0.
  assert (Hchain : forall n, exists a l,
             length l = n /\ is_walk R (a :: l) /\ Forall S (a :: l)).
  { induction n as [|n (a & l & Hlen & Hw & Hs)].
    - exists v0, []. repeat split; auto.
    - inversion Hs as [|? ? Ha Hl]; subst.
      destruct (Hpred a Ha) as (p & Hp & Hpa).
      exists p, (a :: l). simpl. repeat split; auto. }
  destruct (Hchain (length universe)) as (a & l & Hlen & Hw & Hs).
  assert (Hdup : ~ NoDup (a :: l)).
  { intros ND.
    assert (Hincl : incl (a :: l) universe).
    { intros x Hx. apply Hfin. rewrite Forall_forall in Hs. auto. }
    pose proof (NoDup_incl_length ND Hincl) as Hle. simpl in Hle. lia. }
  apply repeat_split in Hdup.
  destruct Hdup as (x & l1 & l2 & l3 & E).
  exists x. rewrite E in Hw. apply is_walk_app_r in Hw.
  eapply is_walk_path_prefix. exact Hw.
Qed.

(** ** Counting the live edges *)

Lemma edge_eqb_eq (e f : string * string) : nx.edge_eqb e f = true <-> e = f.
Proof.
  destruct e as [a b], f as [c d]. unfold nx.edge_eqb. simpl.
  rewrite andb_true_iff, !String.eqb_eq. split.
  - intros [-> ->]. reflexivity.
  - intros H. injection H. auto.
Qed.

Lemma filter_length_ext {A : Type} (P Q : A -> bool) (l : list A) :
  (forall x, In x l -> P x = Q x) ->
  length (filter P l) = length (filter Q l).
Proof.
  intros H. f_equal. apply filter_ext_in. exact H.
Qed.

Lemma filter_length_zero {A : Type} (P : A -> bool) (l : list A) :
  length (filter P l) = 0 <-> forall x, In x l -> P x = false.
Proof.
  induction l as [|a l IH]; simpl.
  - split; [intros _ x [] | reflexivity].
  - destruct (P a) eqn:E; simpl.
    + split; [discriminate|]. intros H. specialize (H a (or_introl eq_refl)).
      congruence.
    + rewrite IH. split.
      * intros H x [<-|I]; auto.
      * intros H x I. apply H. auto.
Qed.

(* relaxing the edge (u, c) takes one live edge from c and none from the
   other nodes *)
Lemma deg_cons (E : list (string * string)) (D : list string)
    (u c : string) (rem : list string) (v : string) :
  NoDup E -> In (u, c) E -> ~ In u D -> ~ In c rem ->
  deg E D u (c :: rem) v
  = deg E D u rem v + (if String.eqb v c then 1 else 0).
Proof.
  intros ND Hin HuD Hcrem. unfold deg.
  assert (Halive_new : alive D u (c :: rem) (u, c) = true).
  { unfold alive. simpl. apply in_list_false in HuD. rewrite HuD.
    rewrite !String.eqb_refl. reflexivity. }
  assert (Halive_old : alive D u rem (u, c) = false).
  { unfold alive. simpl. rewrite String.eqb_refl.
    apply in_list_false in Hcrem. rewrite Hcrem.
    now rewrite andb_false_r. }
  assert (Hother : forall e, e <> (u, c) ->
                             alive D u (c :: rem) e = alive D u rem e).
  { intros [a b] Hne. unfold alive. simpl. f_equal.
    destruct (String.eqb a u) eqn:Ea; simpl; auto.
    apply String.eqb_eq in Ea. subst a.
    destruct (String.eqb b c) eqn:Eb; auto.
    apply String.eqb_eq in Eb. subst b. congruence. }
  clear HuD Hcrem.
  induction E as [|e E IH]; [destruct Hin|].
  inversion ND as [|? ? Hn ND']; subst.
  destruct Hin as [He|Hin].
  - subst e. simpl. rewrite Halive_new, Halive_old.
    rewrite andb_true_r, andb_false_r. rewrite (String.eqb_sym c v).
    assert (Hrest :
              length (filter (fun e => String.eqb (snd e) v
                                       && alive D u (c :: rem) e) E)
              = length (filter (fun e => String.eqb (snd e) v
                                         && alive D u rem e) E)).
    { apply filter_length_ext. intros x Hx. rewrite Hother; auto.
      intros ->. tauto. }
    destruct (String.eqb v c); simpl; lia.
  - assert (Hne : e <> (u, c)) by (intros ->; tauto).
    simpl. rewrite (Hother e Hne). specialize (IH ND' Hin).
    destruct (String.eqb (snd e) v && alive D u rem e); simpl; lia.
Qed.

Lemma deg_start (g : nx.DiGraph) (D : list string) (u v : string) :
  deg (nx._adj g) D u (nx.successors g u) v = deg0 (nx._adj g) D v.
Proof.
  unfold deg, deg0. apply filter_length_ext. intros [a b] Hin.
  unfold alive. simpl. f_equal.
  destruct (String.eqb a u) eqn:Ea; simpl.
  - apply String.eqb_eq in Ea. subst a.
    replace (in_list b (nx.successors g u)) with true.
    + now rewrite andb_true_r.
    + symmetry. apply in_list_In. unfold nx.successors.
      change b with (snd (u, b)). apply in_map. apply filter_In.
      split; auto. simpl. apply String.eqb_refl.
  - now rewrite andb_true_r.
Qed.

Lemma deg_end (E : list (string * string)) (D : list string) (u v : string) :
  deg E D u [] v = deg0 E (D ++ [u]) v.
Proof.
  unfold deg, deg0. apply filter_length_ext. intros [a b] _.
  unfold alive. simpl. f_equal. rewrite in_list_app. simpl.
  rewrite !orb_false_r, negb_orb. reflexivity.
Qed.

Lemma successors_NoDup (g : nx.DiGraph) (u : string) :
  NoDup (nx._adj g) -> NoDup (nx.successors g u).
Proof.
  unfold nx.successors. induction (nx._adj g) as [|[a b] E IH]; simpl.
  - constructor.
  - intros ND. inversion ND as [|? ? Hn ND']; subst.
    destruct (String.eqb a u) eqn:Ea; simpl; auto.
    constructor; auto. intros Hb. apply in_map_iff in Hb.
    destruct Hb as ([a' b'] & Hb & Hf). simpl in Hb. subst b'.
    apply filter_In in Hf. destruct Hf as [Hf Ha']. simpl in Ha'.
    apply String.eqb_eq in Ea, Ha'. subst. tauto.
Qed.

Lemma successors_In (g : nx.DiGraph) (u c : string) :
  In c (nx.successors g u) <-> In (u, c) (nx._adj g).
Proof.
  unfold nx.successors. rewrite in_map_iff. split.
  - intros ([a b] & Hb & Hf). simpl in Hb. subst b.
    apply filter_In in Hf. destruct Hf as [Hf Ha]. simpl in Ha.
    apply String.eqb_eq in Ha. now subst.
  - intros H. exists (u, c). split; auto. apply filter_In. split; auto.
    simpl. apply String.eqb_refl.
Qed.

Lemma predecessors_In (g : nx.DiGraph) (p v : string) :
  In p (nx.predecessors g v) <-> In (p, v) (nx._adj g).
Proof.
  unfold nx.predecessors. rewrite in_map_iff. split.
  - intros ([a b] & Ha & Hf). simpl in Ha. subst a.
    apply filter_In in Hf. destruct Hf as [Hf Hb]. simpl in Hb.
    apply String.eqb_eq in Hb. now subst.
  - intros H. exists (p, v). split; auto. apply filter_In. split; auto.
    simpl. apply String.eqb_refl.
Qed.

(** ** Kahn's algorithm keeps its invariant *)

Lemma pos_opt_succ (n : nat) : pos_opt (n + 1) = Some (n + 1).
Proof. rewrite Nat.add_1_r. reflexivity. Qed.

Lemma pos_opt_None (n : nat) : pos_opt n = None <-> n = 0.
Proof. destruct n; simpl; split; congruence. Qed.

Lemma ordered_snoc (E : list (string * string)) (Z : list string) (c : string) :
  ordered E Z -> ~ In c Z ->
  (forall p, In (p, c) E -> In p Z) ->
  ordered E (Z ++ [c]).
Proof.
  intros Hord Hc Hpred p c' Hedge Hin.
  apply in_app_iff in Hin. destruct Hin as [Hin|[<-|[]]].
  - specialize (Hord p c' Hedge Hin).
    assert (Hp : In p Z).
    { apply index_of_lt. pose proof (proj2 (index_of_lt c' Z) Hin). lia. }
    rewrite !index_of_app_in by assumption. exact Hord.
  - specialize (Hpred p Hedge).
    rewrite index_of_app_in by assumption.
    rewrite index_of_last by assumption.
    now apply index_of_lt.
Qed.

(* one child relaxed: the invariant moves from [c :: rem] to [rem] *)
Lemma inv1_step (g : nx.DiGraph) (D : list string) (u c : string)
    (rem : list string) (indeg : dict nat) (Z : list string) :
  wf_graph g ->
  inv1 g D u (c :: rem) indeg Z ->
  In (u, c) (nx._adj g) -> ~ In c rem ->
  exists d,
    PyDict.get indeg c = Some d /\
    d - 1 = deg (nx._adj g) D u rem c /\
    (d - 1 = 0 ->
     inv1 g D u rem (PyDict.del (PyDict.set indeg c (d - 1)) c) (Z ++ [c])) /\
    (d - 1 <> 0 -> inv1 g D u rem (PyDict.set indeg c (d - 1)) Z).
Proof.
  intros (wfN & wfE & wfC) (K1 & K2 & K3 & K4 & K5 & K6 & K7 & K8) Hedge Hcrem.
  assert (Hdeg : forall v, deg (nx._adj g) D u (c :: rem) v
                           = deg (nx._adj g) D u rem v
                             + (if String.eqb v c then 1 else 0)).
  { intros v. now apply deg_cons. }
  assert (Hdegc : deg (nx._adj g) D u (c :: rem) c
                  = deg (nx._adj g) D u rem c + 1).
  { rewrite Hdeg, String.eqb_refl. reflexivity. }
  assert (Hdegv : forall v, v <> c ->
                            deg (nx._adj g) D u (c :: rem) v
                            = deg (nx._adj g) D u rem v).
  { intros v Hv. rewrite Hdeg. apply String.eqb_neq in Hv. rewrite Hv. lia. }
  assert (HcZ : ~ In c Z).
  { intros Hin. apply K4 in Hin. lia. }
  exists (deg (nx._adj g) D u rem c + 1).
  split; [rewrite K2, Hdegc; apply pos_opt_succ|].
  split; [lia|].
  replace (deg (nx._adj g) D u rem c + 1 - 1)
    with (deg (nx._adj g) D u rem c) by lia.
  split; intros Hz.
  - (* the child reaches in-degree zero *)
    unfold inv1. repeat split.
    + apply keys_del_NoDup, keys_set_NoDup, K1.
    + intros v. destruct (string_dec v c) as [->|Hv].
      * rewrite get_del_same by (apply keys_set_NoDup, K1).
        rewrite Hz. reflexivity.
      * rewrite get_del_other, get_set_other by assumption.
        rewrite K2, Hdegv by assumption. reflexivity.
    + apply NoDup_app; auto.
      * repeat constructor. simpl. tauto.
      * intros x Hx [<-|[]]. tauto.
    + apply in_app_iff in H. destruct H as [H|[<-|[]]].
      * apply K4 in H. tauto.
      * apply (wfC u c Hedge).
    + apply in_app_iff in H. destruct H as [H|[<-|[]]]; auto.
      destruct (string_dec v c) as [->|Hv]; auto.
      apply K4 in H. rewrite <- Hdegv by assumption. tauto.
    + intros (HvN & Hv0). apply in_app_iff.
      destruct (string_dec v c) as [->|Hv]; [right; simpl; auto|].
      left. apply K4. rewrite Hdegv by assumption. tauto.
    + intros x Hx. apply in_app_iff. left. auto.
    + apply ordered_snoc; auto.
      intros p Hp.
      assert (Halive : alive D u rem (p, c) = false).
      { unfold deg in Hz. rewrite filter_length_zero in Hz.
        specialize (Hz (p, c) Hp). simpl in Hz.
        rewrite String.eqb_refl in Hz. exact Hz. }
      unfold alive in Halive. simpl in Halive.
      apply andb_false_iff in Halive. destruct Halive as [Hd|Hu].
      * apply negb_false_iff, in_list_In in Hd. auto.
      * apply orb_false_iff in Hu. destruct Hu as [Hu _].
        apply negb_false_iff, String.eqb_eq in Hu. now subst.
    + apply in_app_iff. auto.
    + exact K8.
  - (* the child keeps a positive in-degree *)
    unfold inv1. repeat split; auto.
    + apply keys_set_NoDup, K1.
    + intros v. destruct (string_dec v c) as [->|Hv].
      * rewrite get_set_same.
        destruct (deg (nx._adj g) D u rem c); [congruence | reflexivity].
      * rewrite get_set_other by assumption.
        rewrite K2, Hdegv by assumption. reflexivity.
    + apply K4 in H. tauto.
    + destruct (string_dec v c) as [->|Hv]; [tauto|].
      apply K4 in H. rewrite <- Hdegv by assumption. tauto.
    + intros (HvN & Hv0).
      destruct (string_dec v c) as [->|Hv]; [congruence|].
      apply K4. rewrite Hdegv by assumption. tauto.
Qed.

Lemma relax_inv (g : nx.DiGraph) (D : list string) (u : string) :
  wf_graph g ->
  forall (rem : list string) (indeg : dict nat) (zero Zf : list string),
    inv1 g D u rem indeg (Zf ++ zero) ->
    NoDup rem ->
    (forall c, In c rem -> In (u, c) (nx._adj g)) ->
    exists indeg' zero',
      nx.relax rem (indeg, zero) = Ok (indeg', zero') /\
      inv1 g D u [] indeg' (Zf ++ zero').
Proof.
  intros wf. induction rem as [|c rem IH]; intros indeg zero Zf Hinv ND Hedges.
  - exists indeg, zero. split; auto.
  - inversion ND as [|? ? Hc ND']; subst.
    destruct (inv1_step g D u c rem indeg (Zf ++ zero) wf Hinv
                (Hedges c (or_introl eq_refl)) Hc)
      as (d & Hget & Hd & Hzero & Hpos).
    simpl. rewrite Hget.
    destruct (Nat.eqb (d - 1) 0) eqn:Ed.
    + apply Nat.eqb_eq in Ed. specialize (Hzero Ed).
      rewrite <- app_assoc in Hzero.
      apply IH; auto. intros x Hx. apply Hedges. now right.
    + apply Nat.eqb_neq in Ed. specialize (Hpos Ed).
      apply IH; auto. intros x Hx. apply Hedges. now right.
Qed.

Lemma inv0_inv1 (g : nx.DiGraph) (D : list string) (u : string)
    (indeg : dict nat) (Z : list string) :
  inv0 g D indeg Z -> In u Z -> ~ In u D ->
  inv1 g D u (nx.successors g u) indeg Z.
Proof.
  intros (K1 & K2 & K3 & K4 & K5 & K6) Hu HuD.
  unfold inv1. repeat split; auto.
  - intros v. rewrite deg_start. apply K2.
  - apply K4 in H. tauto.
  - rewrite deg_start. apply K4 in H. tauto.
  - rewrite deg_start. intros H. now apply K4.
Qed.

Lemma inv1_inv0 (g : nx.DiGraph) (D : list string) (u : string)
    (indeg : dict nat) (Z : list string) :
  inv1 g D u [] indeg Z -> inv0 g (D ++ [u]) indeg Z.
Proof.
  intros (K1 & K2 & K3 & K4 & K5 & K6 & K7 & K8).
  unfold inv0. repeat split; auto.
  - intros v. rewrite <- deg_end. apply K2.
  - apply K4 in H. tauto.
  - rewrite <- deg_end. apply K4 in H. tauto.
  - rewrite <- deg_end. intros H. now apply K4.
  - intros x Hx. apply in_app_iff in Hx. destruct Hx as [Hx|[<-|[]]]; auto.
Qed.

Lemma process_generation_inv (g : nx.DiGraph) :
  wf_graph g ->
  forall (gen D : list string) (indeg : dict nat) (next : list string),
    inv0 g D indeg (D ++ gen ++ next) ->
    exists indeg' next',
      nx.process_generation g gen (indeg, next) = Ok (indeg', next') /\
      inv0 g (D ++ gen) indeg' ((D ++ gen) ++ next').
Proof.
  intros wf. induction gen as [|u rest IH]; intros D indeg next Hinv.
  - exists indeg, next. simpl. rewrite app_nil_r. split; auto.
  - assert (HuZ : In u (D ++ (u :: rest) ++ next)).
    { apply in_app_iff. right. simpl. auto. }
    assert (HuD : ~ In u D).
    { destruct Hinv as (_ & _ & K3 & _).
      apply NoDup_remove_2 in K3. intros Hin. apply K3.
      apply in_app_iff. auto. }
    assert (HuN : In u (nx.nodes g)).
    { destruct Hinv as (_ & _ & _ & K4 & _). apply K4 in HuZ. tauto. }
    simpl. unfold nx.has_node.
    apply mem_keys in HuN. rewrite HuN.
    pose proof (inv0_inv1 g D u indeg _ Hinv HuZ HuD) as Hinv1.
    replace (D ++ (u :: rest) ++ next) with ((D ++ u :: rest) ++ next)
      in Hinv1 by (now rewrite <- app_assoc).
    destruct (relax_inv g D u wf (nx.successors g u) indeg next
                (D ++ u :: rest) Hinv1) as (indeg1 & next1 & Hrelax & Hinv1').
    { apply successors_NoDup. apply wf. }
    { intros c Hc. now apply successors_In. }
    rewrite Hrelax. simpl.
    apply inv1_inv0 in Hinv1'.
    replace ((D ++ u :: rest) ++ next1) with ((D ++ [u]) ++ rest ++ next1)
      in Hinv1' by (rewrite <- !app_assoc; reflexivity).
    destruct (IH (D ++ [u]) indeg1 next1 Hinv1') as (indeg2 & next2 & Hgen & Hinv2).
    exists indeg2, next2. split; auto.
    replace (D ++ u :: rest) with ((D ++ [u]) ++ rest)
      by (rewrite <- app_assoc; reflexivity).
    exact Hinv2.
Qed.

Lemma filter_length_pos {A : Type} (P : A -> bool) (l : list A) :
  length (filter P l) <> 0 -> exists x, In x l /\ P x = true.
Proof.
  induction l as [|a l IH]; simpl; [congruence|].
  destruct (P a) eqn:E.
  - intros _. exists a. auto.
  - intros H. destruct (IH H) as (x & Hx & Px). exists x. auto.
Qed.

(* when the loop stops with entries left in indegree_map, the nodes not yet
   yielded hold a cycle *)
Lemma leftover_cycle (g : nx.DiGraph) (D : list string) (indeg : dict nat) :
  wf_graph g ->
  inv0 g D indeg D ->
  PyDict.is_empty indeg = false ->
  exists x, path (nx_edge g) x x.
Proof.
  intros (wfN & wfE & wfC) (K1 & K2 & K3 & K4 & K5 & K6) Hne.
  set (S := fun v => In v (nx.nodes g) /\ ~ In v D).
  assert (Hstep : forall v, S v -> exists p, S p /\ nx_edge g p v).
  { intros v (HvN & HvD).
    assert (Hd : deg0 (nx._adj g) D v <> 0).
    { intros Hz. apply HvD. apply K4. auto. }
    unfold deg0 in Hd. apply filter_length_pos in Hd.
    destruct Hd as ([p c] & Hin & HP). simpl in HP.
    apply andb_true_iff in HP. destruct HP as [Hc Hp].
    apply String.eqb_eq in Hc. subst c.
    apply negb_true_iff, in_list_false in Hp.
    exists p. split; [split|]; auto. apply (wfC p v Hin). }
  destruct indeg as [|[k d] indeg]; [discriminate|].
  assert (Hk : PyDict.get ((k, d) :: indeg) k = Some d).
  { simpl. now rewrite String.eqb_refl. }
  rewrite K2 in Hk.
  assert (Hd : deg0 (nx._adj g) D k <> 0).
  { intros Hz. rewrite Hz in Hk. discriminate. }
  assert (HkS : S k).
  { pose proof Hd as Hd'. unfold deg0 in Hd'. apply filter_length_pos in Hd'.
    destruct Hd' as ([p c] & Hin & HP). simpl in HP.
    apply andb_true_iff in HP. destruct HP as [Hc _].
    apply String.eqb_eq in Hc. subst c.
    split; [apply (wfC p k Hin)|].
    intros HkD. apply Hd. apply K4. auto. }
  apply (closed_set_cycle (nx_edge g) S (nx.nodes g)) with (v0 := k); auto.
  intros v Hv. apply Hv.
Qed.

Lemma generations_inv (g : nx.DiGraph) :
  wf_graph g ->
  forall (fuel : nat) (D : list string) (indeg : dict nat) (zero : list string),
    inv0 g D indeg (D ++ zero) ->
    length (nx.nodes g) < fuel + length D ->
    (exists out,
        nx.generations fuel g indeg zero = Ok out /\
        NoDup (D ++ out) /\
        ordered (nx._adj g) (D ++ out) /\
        forall v, In v (D ++ out) <-> In v (nx.nodes g))
    \/
    (nx.generations fuel g indeg zero = Raise NetworkXUnfeasible /\
     exists x, path (nx_edge g) x x).
Proof.
  intros wf. induction fuel as [|fuel IH]; intros D indeg zero Hinv Hfuel.
  - (* no fuel: every node would already be done *)
    destruct zero as [|z zero].
    + simpl. rewrite app_nil_r in Hinv.
      destruct (PyDict.is_empty indeg) eqn:Hemp.
      * left. exists []. rewrite app_nil_r.
        destruct Hinv as (K1 & K2 & K3 & K4 & K5 & K6).
        repeat split; auto.
        -- intros Hv. apply K4 in Hv. tauto.
        -- intros Hv. apply K4. split; auto.
           apply pos_opt_None. rewrite <- K2.
           now apply is_empty_get.
      * right. split; auto. eapply leftover_cycle; eauto.
    + exfalso. destruct Hinv as (_ & _ & K3 & K4 & _).
      assert (Hincl : incl (D ++ z :: zero) (nx.nodes g)).
      { intros x Hx. apply K4 in Hx. tauto. }
      pose proof (NoDup_incl_length K3 Hincl) as Hle.
      rewrite length_app in Hle. simpl in Hle, Hfuel. lia.
  - destruct zero as [|z zero].
    + simpl. rewrite app_nil_r in Hinv.
      destruct (PyDict.is_empty indeg) eqn:Hemp.
      * left. exists []. rewrite app_nil_r.
        destruct Hinv as (K1 & K2 & K3 & K4 & K5 & K6).
        repeat split; auto.
        -- intros Hv. apply K4 in Hv. tauto.
        -- intros Hv. apply K4. split; auto.
           apply pos_opt_None. rewrite <- K2.
           now apply is_empty_get.
      * right. split; auto. eapply leftover_cycle; eauto.
    + assert (Hinv' : inv0 g D indeg (D ++ (z :: zero) ++ [])).
      { now rewrite app_nil_r. }
      destruct (process_generation_inv g wf (z :: zero) D indeg [] Hinv')
        as (indeg' & next' & Hgen & Hinv2).
      cbn [nx.generations]. rewrite Hgen. cbn [rbind fst snd].
      destruct (IH (D ++ z :: zero) indeg' next' Hinv2) as
        [(out & Hout & Hnd & Hord & Hall)|(Hraise & Hcycle)].
      * rewrite length_app. simpl. simpl in Hfuel. lia.
      * left. exists ((z :: zero) ++ out). rewrite Hout. cbn [rbind].
        rewrite app_assoc. auto.
      * right. rewrite Hraise. auto.
Qed.

(** ** The topological sort of a well-formed graph *)

Lemma deg0_nil (g : nx.DiGraph) (v : string) :
  deg0 (nx._adj g) [] v = nx.in_degree g v.
Proof.
  unfold deg0, nx.in_degree, nx.predecessors. rewrite length_map.
  apply filter_length_ext. intros e _. simpl. apply andb_true_r.
Qed.

Lemma initial_indegree_map (d : string -> nat) (L : list string) (v : string) :
  PyDict.get (filter (fun vd => negb (Nat.eqb (snd vd) 0))
                     (map (fun x => (x, d x)) L)) v
  = if in_list v L then pos_opt (d v) else None.
Proof.
  induction L as [|y L IH]; simpl; auto.
  rewrite (String.eqb_sym v y).
  destruct (Nat.eqb (d y) 0) eqn:Ed; simpl.
  - rewrite IH. destruct (String.eqb y v) eqn:Ey; simpl; auto.
    apply String.eqb_eq in Ey. subst y. apply Nat.eqb_eq in Ed.
    rewrite Ed. now destruct (in_list v L).
  - destruct (String.eqb y v) eqn:Ey; simpl; auto.
    apply String.eqb_eq in Ey. subst y.
    destruct (d v); [discriminate | reflexivity].
Qed.

Lemma initial_keys_NoDup (d : string -> nat) (L : list string) :
  NoDup L ->
  NoDup (PyDict.keys (filter (fun vd => negb (Nat.eqb (snd vd) 0))
                             (map (fun x => (x, d x)) L))).
Proof.
  induction L as [|y L IH]; simpl; intros ND; [constructor|].
  inversion ND as [|? ? Hn ND']; subst.
  destruct (Nat.eqb (d y) 0); simpl; auto.
  constructor; auto. intros Hin. apply Hn.
  unfold PyDict.keys in Hin. apply in_map_iff in Hin.
  destruct Hin as ([a b] & Ha & Hf). simpl in Ha. subst a.
  apply filter_In in Hf. destruct Hf as [Hf _].
  apply in_map_iff in Hf. destruct Hf as (x & Hx & HxL).
  injection Hx as -> _. exact HxL.
Qed.

Lemma initial_inv0 (g : nx.DiGraph) :
  wf_graph g ->
  inv0 g []
    (filter (fun vd => negb (Nat.eqb (snd vd) 0))
            (map (fun v => (v, nx.in_degree g v)) (nx.nodes g)))
    ([] ++ filter (fun v => Nat.eqb (nx.in_degree g v) 0) (nx.nodes g)).
Proof.
  intros (wfN & wfE & wfC). unfold inv0. simpl. repeat split.
  - now apply initial_keys_NoDup.
  - intros v. rewrite initial_indegree_map, deg0_nil.
    destruct (in_list v (nx.nodes g)) eqn:Hv; auto.
    apply in_list_false in Hv.
    destruct (nx.in_degree g v) eqn:Hd; auto.
    exfalso. apply Hv.
    assert (Hpos : length (nx.predecessors g v) <> 0)
      by (unfold nx.in_degree in Hd; lia).
    destruct (nx.predecessors g v) as [|p ps] eqn:Hp; [now simpl in Hpos|].
    assert (Hin : In p (nx.predecessors g v)) by (rewrite Hp; now left).
    apply predecessors_In in Hin. apply (wfC p v Hin).
  - now apply NoDup_filter.
  - apply filter_In in H. tauto.
  - apply filter_In in H. destruct H as [_ H].
    rewrite deg0_nil. now apply Nat.eqb_eq.
  - intros (HvN & Hd). apply filter_In. split; auto.
    rewrite deg0_nil in Hd. now apply Nat.eqb_eq.
  - intros x [].
  - intros p c Hedge Hc. apply filter_In in Hc. destruct Hc as [_ Hc].
    apply Nat.eqb_eq in Hc. exfalso.
    apply predecessors_In in Hedge. unfold nx.in_degree in Hc.
    destruct (nx.predecessors g c); [destruct Hedge | discriminate].
Qed.

(* along a walk the place in an ordered list grows *)
Lemma ordered_path (g : nx.DiGraph) (order : list string) :
  ordered (nx._adj g) order ->
  (forall v, In v (nx.nodes g) -> In v order) ->
  wf_graph g ->
  forall u v, path (nx_edge g) u v -> index_of u order < index_of v order.
Proof.
  intros Hord Hall (_ & _ & wfC). induction 1 as [u v H|u w v H _ IH].
  - apply Hord; auto. apply Hall. apply (wfC u v H).
  - assert (index_of u order < index_of w order).
    { apply Hord; auto. apply Hall. apply (wfC u w H). }
    lia.
Qed.

(* networkx's topological sort on a well-formed graph: either an order that
   lists every node once, each edge forwards, or NetworkXUnfeasible on a
   graph that has a cycle; never another exception *)
Lemma topological_sort_spec (g : nx.DiGraph) :
  wf_graph g ->
  (exists order,
      nx.topological_sort g = Ok order /\
      NoDup order /\
      ordered (nx._adj g) order /\
      (forall v, In v order <-> In v (nx.nodes g)) /\
      forall x, ~ path (nx_edge g) x x)
  \/
  (nx.topological_sort g = Raise NetworkXUnfeasible /\
   exists x, path (nx_edge g) x x).
Proof.
  intros wf. unfold nx.topological_sort.
  destruct (generations_inv g wf (S (length (nx.nodes g))) [] _ _
              (initial_inv0 g wf))
    as [(out & Hout & Hnd & Hord & Hall)|(Hraise & Hcycle)].
  - simpl. lia.
  - left. exists out. simpl in *. repeat split; auto; try apply Hall.
    intros x Hp.
    assert (Hlt : index_of x out < index_of x out).
    { apply (ordered_path g out); auto. intros v. apply Hall. }
    lia.
  - right. auto.
Qed.

(** ** The graph that [build_graph] assembles *)

Lemma wf_empty : wf_graph nx.empty.
Proof.
  unfold wf_graph, nx.nodes. simpl. repeat split; try constructor; tauto.
Qed.

Lemma wf_add_node (g : nx.DiGraph) (n : string) (a : string * dict float) :
  wf_graph g -> wf_graph (nx.add_node g n a).
Proof.
  intros (wfN & wfE & wfC). unfold wf_graph, nx.nodes, nx.add_node. simpl.
  split; [now apply keys_set_NoDup|]. split; auto.
  intros u v H. destruct (wfC u v H) as [Hu Hv].
  split; apply keys_set_incl; auto.
Qed.

Lemma nodes_ensure_node (g : nx.DiGraph) (n x : string) :
  In x (nx.nodes (nx.ensure_node g n)) <-> In x (nx.nodes g) \/ x = n.
Proof.
  unfold nx.ensure_node, nx.has_node.
  destruct (PyDict.mem (nx._node g) n) eqn:Hm.
  - apply mem_keys in Hm. split; auto. intros [H| ->]; auto.
  - unfold nx.nodes, PyDict.keys. simpl. rewrite map_app, in_app_iff. simpl.
    split; intros [H|H]; auto.
    + destruct H as [<-|[]]. auto.
Qed.

Lemma wf_ensure_node (g : nx.DiGraph) (n : string) :
  wf_graph g -> wf_graph (nx.ensure_node g n).
Proof.
  intros (wfN & wfE & wfC). unfold wf_graph.
  split; [|split].
  - unfold nx.ensure_node, nx.has_node.
    destruct (PyDict.mem (nx._node g) n) eqn:Hm; auto.
    unfold nx.nodes, PyDict.keys. simpl. rewrite map_app. simpl.
    apply NoDup_app; auto.
    + repeat constructor. simpl. tauto.
    + intros x Hx [<-|[]].
      apply mem_keys in Hx. congruence.
  - unfold nx.ensure_node. now destruct (nx.has_node g n).
  - intros u v H.
    assert (H' : In (u, v) (nx._adj g)).
    { unfold nx.ensure_node in H. now destruct (nx.has_node g n). }
    destruct (wfC u v H'). split; apply nodes_ensure_node; auto.
Qed.

Lemma adj_ensure_node (g : nx.DiGraph) (n : string) :
  nx._adj (nx.ensure_node g n) = nx._adj g.
Proof. unfold nx.ensure_node. now destruct (nx.has_node g n). Qed.

Lemma has_edge_In (g : nx.DiGraph) (u v : string) :
  nx.has_edge g u v = true <-> In (u, v) (nx._adj g).
Proof.
  unfold nx.has_edge. rewrite existsb_exists. split.
  - intros (e & He & Heq). apply edge_eqb_eq in Heq. now subst.
  - intros H. exists (u, v). split; auto. now apply edge_eqb_eq.
Qed.

Lemma adj_add_edge (g : nx.DiGraph) (u v a b : string) :
  In (a, b) (nx._adj (nx.add_edge g u v)) <->
  In (a, b) (nx._adj g) \/ (a, b) = (u, v).
Proof.
  unfold nx.add_edge.
  destruct (nx.has_edge (nx.ensure_node (nx.ensure_node g u) v) u v) eqn:He.
  - rewrite !adj_ensure_node. apply has_edge_In in He.
    rewrite !adj_ensure_node in He. split; auto.
    intros [H|H]; auto. now rewrite H.
  - simpl. rewrite !adj_ensure_node, in_app_iff. simpl.
    split; intros [H|H]; auto.
    + destruct H as [H|[]]. auto.
Qed.

Lemma nodes_add_edge (g : nx.DiGraph) (u v x : string) :
  In x (nx.nodes (nx.add_edge g u v)) <-> In x (nx.nodes g) \/ x = u \/ x = v.
Proof.
  unfold nx.add_edge.
  destruct (nx.has_edge (nx.ensure_node (nx.ensure_node g u) v) u v);
    unfold nx.nodes at 1; simpl;
    change (PyDict.keys (nx._node (nx.ensure_node (nx.ensure_node g u) v)))
      with (nx.nodes (nx.ensure_node (nx.ensure_node g u) v));
    rewrite !nodes_ensure_node; tauto.
Qed.

Lemma wf_add_edge (g : nx.DiGraph) (u v : string) :
  wf_graph g -> wf_graph (nx.add_edge g u v).
Proof.
  intros wf.
  pose proof (wf_ensure_node _ v (wf_ensure_node g u wf)) as wf2.
  pose proof (adj_add_edge g u v) as Hadj.
  pose proof (nodes_add_edge g u v) as Hnodes.
  unfold nx.add_edge in *.
  destruct (nx.has_edge (nx.ensure_node (nx.ensure_node g u) v) u v) eqn:He;
    auto.
  destruct wf2 as (wfN & wfE & wfC).
  unfold wf_graph. split; [exact wfN|]. split.
  - simpl. apply NoDup_app; auto.
    + repeat constructor. simpl. tauto.
    + intros x Hx [<-|[]].
      apply has_edge_In in Hx. congruence.
  - intros a b H. apply Hadj in H. destruct wf as (_ & _ & wfC0).
    split; apply Hnodes.
    + destruct H as [H|H]; [left; apply (wfC0 a b H) | injection H; auto].
    + destruct H as [H|H]; [left; apply (wfC0 a b H) | injection H; auto].
Qed.

Lemma fold_add_node_wf (nodes : list Node.t) :
  forall g, wf_graph g ->
    wf_graph (fold_left (fun g node =>
                           nx.add_node g (Node.node_id node)
                             (Node.tech_id node, Node.parameters node))
                        nodes g).
Proof.
  induction nodes as [|n nodes IH]; simpl; auto.
  intros g wf. apply IH. now apply wf_add_node.
Qed.

Lemma fold_add_node_adj (nodes : list Node.t) :
  forall g,
    nx._adj (fold_left (fun g node =>
                          nx.add_node g (Node.node_id node)
                            (Node.tech_id node, Node.parameters node))
                       nodes g) = nx._adj g.
Proof.
  induction nodes as [|n nodes IH]; simpl; auto.
  intros g. now rewrite IH.
Qed.

Lemma fold_add_node_nodes (nodes : list Node.t) :
  forall g x,
    In x (nx.nodes (fold_left (fun g node =>
                                 nx.add_node g (Node.node_id node)
                                   (Node.tech_id node, Node.parameters node))
                              nodes g))
    <-> In x (nx.nodes g) \/ In x (map Node.node_id nodes).
Proof.
  induction nodes as [|n nodes IH]; simpl; intros g x; [tauto|].
  rewrite IH. unfold nx.nodes at 1, nx.add_node. simpl.
  rewrite keys_set_incl. unfold nx.nodes.
  split; intros H; intuition auto.
Qed.

Lemma fold_add_edge_wf (edges : list Edge.t) :
  forall g, wf_graph g ->
    wf_graph (fold_left (fun g edge =>
                           nx.add_edge g (Edge.source edge) (Edge.target edge))
                        edges g).
Proof.
  induction edges as [|e edges IH]; simpl; auto.
  intros g wf. apply IH. now apply wf_add_edge.
Qed.

Lemma fold_add_edge_adj (edges : list Edge.t) :
  forall g u v,
    In (u, v) (nx._adj (fold_left (fun g edge =>
                                     nx.add_edge g (Edge.source edge)
                                       (Edge.target edge))
                                  edges g))
    <-> In (u, v) (nx._adj g) \/ connects edges u v.
Proof.
  unfold connects.
  induction edges as [|e edges IH]; simpl; intros g u v; [tauto|].
  rewrite IH, adj_add_edge. destruct e as [s t]. simpl.
  split; intros H.
  - destruct H as [[H|H]|H]; auto. injection H as -> ->. auto.
  - destruct H as [H|[H|H]]; auto. injection H as -> ->. auto.
Qed.

Lemma fold_add_edge_nodes (edges : list Edge.t) :
  forall g x,
    In x (nx.nodes (fold_left (fun g edge =>
                                 nx.add_edge g (Edge.source edge)
                                   (Edge.target edge))
                              edges g))
    <-> In x (nx.nodes g) \/
        exists e, In e edges /\ (Edge.source e = x \/ Edge.target e = x).
Proof.
  induction edges as [|e edges IH]; simpl; intros g x.
  - split; auto. intros [H|(e & He & _)]; [auto | destruct He].
  - rewrite IH, nodes_add_edge. split.
    + intros [[H|[H|H]]|(e' & He' & H)]; auto.
      * right. exists e. split; auto.
      * right. exists e. split; auto.
      * right. exists e'. split; auto.
    + intros [H|(e' & [<-|He'] & H)]; auto.
      * left. destruct H as [H|H]; subst; auto.
      * right. exists e'. auto.
Qed.

Lemma assembled_wf (nodes : list Node.t) (edges : list Edge.t) :
  wf_graph (assembled nodes edges).
Proof.
  unfold assembled. apply fold_add_edge_wf, fold_add_node_wf, wf_empty.
Qed.

Lemma assembled_edge (nodes : list Node.t) (edges : list Edge.t) (u v : string) :
  nx_edge (assembled nodes edges) u v <-> connects edges u v.
Proof.
  unfold nx_edge, assembled. rewrite fold_add_edge_adj, fold_add_node_adj.
  simpl. tauto.
Qed.

Lemma assembled_nodes (nodes : list Node.t) (edges : list Edge.t) (x : string) :
  In x (nx.nodes (assembled nodes edges)) <->
  In x (map Node.node_id nodes) \/
  exists e, In e edges /\ (Edge.source e = x \/ Edge.target e = x).
Proof.
  unfold assembled. rewrite fold_add_edge_nodes, fold_add_node_nodes.
  unfold nx.nodes at 1. simpl. tauto.
Qed.

Lemma assembled_path (nodes : list Node.t) (edges : list Edge.t) (u v : string) :
  path (nx_edge (assembled nodes edges)) u v <-> path (connects edges) u v.
Proof.
  split; apply path_impl; intros a b; apply assembled_edge.
Qed.

(* build_graph: the assembled graph when the edges have no cycle, the cycle
   error when they have one, and nothing else *)
Lemma build_graph_spec (nodes : list Node.t) (edges : list Edge.t) :
  (build_graph nodes edges = Ok (assembled nodes edges) /\
   acyclic edges /\
   exists order,
     nx.topological_sort (assembled nodes edges) = Ok order /\
     NoDup order /\
     ordered (nx._adj (assembled nodes edges)) order /\
     (forall v, In v order <-> In v (nx.nodes (assembled nodes edges))))
  \/
  (build_graph nodes edges = Raise (ValueError cycle_message) /\
   has_cycle edges).
Proof.
  change (build_graph nodes edges)
    with (rbind (nx.is_directed_acyclic_graph (assembled nodes edges))
            (fun dag => if dag then Ok (assembled nodes edges)
                        else Raise (ValueError cycle_message))).
  unfold nx.is_directed_acyclic_graph.
  destruct (topological_sort_spec _ (assembled_wf nodes edges))
    as [(order & Hsort & Hnd & Hord & Hall & Hacyc)|(Hraise & x & Hx)].
  - left. rewrite Hsort. simpl. split; auto. split.
    + intros v Hp. apply (Hacyc v). apply (assembled_path nodes edges).
      exact Hp.
    + exists order. auto.
  - right. rewrite Hraise. simpl. split; auto.
    exists x. apply (assembled_path nodes edges) in Hx. exact Hx.
Qed.

(** ** The traversal of [calculate_route] *)

Lemma propagate_keys (node_id : string) (out : loc) (succs : list string) :
  forall (streams : dict loc) (k : string),
    In k (PyDict.keys (propagate streams node_id out succs)) <->
    In k (PyDict.keys streams) \/
    exists s, In s succs /\ k = stream_key node_id s.
Proof.
  unfold propagate.
  induction succs as [|s succs IH]; simpl; intros streams k.
  - split; auto. intros [H|(s & Hs & _)]; [auto | destruct Hs].
  - rewrite IH, keys_set_incl. split.
    + intros [[H|H]|(s' & Hs' & Hk)]; auto.
      * right. exists s. auto.
      * right. exists s'. auto.
    + intros [H|(s' & [<-|Hs'] & Hk)]; auto.
      right. exists s'. auto.
Qed.

Lemma gather_inputs_ok (streams : dict loc) (node_id : string)
    (preds : list string) :
  forall h, exists ins h', gather_inputs streams node_id preds h = Ok (ins, h').
Proof.
  induction preds as [|p preds IH]; intros h; simpl.
  - exists [], h. reflexivity.
  - unfold bind, alloc.
    destruct (IH (h ++ [StreamProperties_default])) as (ins & h' & E).
    rewrite E. unfold ret. eauto.
Qed.

(* what a successful turn of the loop does to the two dictionaries *)
Lemma process_node_ok (tech_db : dict Tech.t) (g : nx.DiGraph)
    (streams : dict loc) (node_results : dict (dict value))
    (node_id : string) (h : heap)
    (streams' : dict loc) (node_results' : dict (dict value)) (h' : heap) :
  process_node tech_db g (streams, node_results) node_id h
  = Ok ((streams', node_results'), h') ->
  exists out res,
    streams' = propagate streams node_id out (nx.successors g node_id) /\
    node_results' = PyDict.set node_results node_id res.
Proof.
  unfold process_node.
  destruct (PyDict.get (nx._node g) node_id) as [[[tech_id params]|]|];
    try discriminate.
  destruct (PyDict.get tech_db tech_id) as [tech|]; try discriminate.
  unfold bind.
  destruct (gather_inputs streams node_id (nx.predecessors g node_id) h)
    as [[ins h1]|]; try discriminate.
  destruct (_calculate_node tech params ins h1) as [[[out res] h2]|];
    try discriminate.
  unfold ret. intros H. injection H as <- <- <-. eauto.
Qed.

Lemma process_nodes_ok (tech_db : dict Tech.t) (g : nx.DiGraph)
    (order : list string) :
  forall st h st' h',
    process_nodes tech_db g order st h = Ok (st', h') ->
    NoDup order ->
    (forall n, In n order -> ~ In n (PyDict.keys (snd st))) ->
    PyDict.keys (snd st') = PyDict.keys (snd st) ++ order /\
    (forall k, In k (PyDict.keys (fst st)) -> In k (PyDict.keys (fst st'))) /\
    (forall p s, In p order -> In s (nx.successors g p) ->
                 In (stream_key p s) (PyDict.keys (fst st'))).
Proof.
  induction order as [|n order IH]; intros st h st' h' Hrun ND Hfresh.
  - simpl in Hrun. unfold ret in Hrun. injection Hrun as <- <-.
    rewrite app_nil_r. repeat split; auto. intros p s [].
  - simpl in Hrun. unfold bind in Hrun.
    destruct st as [streams results].
    destruct (process_node tech_db g (streams, results) n h)
      as [[[streams1 results1] h1]|] eqn:Hnode; try discriminate.
    apply process_node_ok in Hnode. destruct Hnode as (out & res & -> & ->).
    inversion ND as [|? ? Hn ND']; subst.
    apply IH in Hrun; auto.
    + destruct Hrun as (Hkeys & Hmono & Hsucc). simpl in *.
      rewrite keys_set_new in Hkeys by (apply Hfresh; now left).
      rewrite <- app_assoc in Hkeys. simpl in Hkeys.
      split; [exact Hkeys|]. split.
      * intros k Hk. apply Hmono. apply propagate_keys. auto.
      * intros p s [<-|Hp] Hs.
        -- apply Hmono. apply propagate_keys. right. exists s. auto.
        -- apply Hsucc; auto.
    + simpl. intros m Hm Hin. apply keys_set_incl in Hin.
      destruct Hin as [Hin| ->]; [|tauto].
      apply (Hfresh m); [now right | exact Hin].
Qed.

(* in an order without repeats that respects the edges, the predecessors of
   a node are in the part of the order before it *)
Lemma predecessor_done (E : list (string * string))
    (done : list string) (n : string) (rest : list string) (p : string) :
  NoDup (done ++ n :: rest) ->
  ordered E (done ++ n :: rest) ->
  In (p, n) E ->
  In p done.
Proof.
  intros ND Hord Hedge.
  assert (Hn : ~ In n done).
  { apply NoDup_remove_2 in ND. intros H. apply ND. apply in_app_iff. auto. }
  assert (Hlt : index_of p (done ++ n :: rest) < index_of n (done ++ n :: rest)).
  { apply Hord; auto. apply in_app_iff. right. now left. }
  rewrite (index_of_app_out n) in Hlt by assumption.
  simpl in Hlt. rewrite String.eqb_refl in Hlt.
  destruct (in_dec string_dec p done) as [Hp|Hp]; auto.
  rewrite (index_of_app_out p) in Hlt by assumption. lia.
Qed.

(** ** What the loop can raise *)

(* the only exception of a category rule is the division by a zero
   ch4_content in the digester's liquid pathway *)
Lemma calculate_node_raises (tech : Tech.t) (params : dict float)
    (inputs : list loc) (h : heap) (e : exn) :
  _calculate_node tech params inputs h = Raise e -> e = ZeroDivisionError.
Proof.
  unfold _calculate_node.
  destruct (sum_inputs_extends inputs h) as (l & ext & E).
  repeat match goal with
         | |- context [if String.eqb ?a ?b then _ else _] =>
             destruct (String.eqb a b)
         end.
  - unfold _calc_feedstock.
    destruct (in_list _ _); unfold bind, alloc, deref, ret; discriminate.
  - unfold _calc_pretreatment, bind. rewrite E.
    unfold deref, assign, ret. discriminate.
  - unfold _calc_digester, bind. rewrite E. unfold deref.
    destruct (0 <? _)%float.
    + unfold py_div.
      destruct (_ =? 0)%float; unfold raise, ret, alloc.
      * intros H. now injection H as <-.
      * discriminate.
    + unfold ret, alloc. discriminate.
  - unfold _calc_upgrading, bind. rewrite E.
    unfold deref, alloc, ret. discriminate.
  - unfold _calc_enduse, bind. rewrite E.
    unfold deref, alloc, ret. discriminate.
  - unfold _calc_byproduct, bind. rewrite E.
    unfold alloc, ret. discriminate.
  - unfold bind. rewrite E. unfold ret. discriminate.
Qed.

Lemma process_node_raises (tech_db : dict Tech.t) (g : nx.DiGraph)
    (st : dict loc * dict (dict value)) (node_id : string) (h : heap)
    (e : exn) :
  process_node tech_db g st node_id h = Raise e -> e <> OutOfFuel.
Proof.
  unfold process_node. destruct st as [streams results].
  destruct (PyDict.get (nx._node g) node_id) as [[[tech_id params]|]|];
    try (unfold raise; intros H; injection H as <-; discriminate).
  destruct (PyDict.get tech_db tech_id) as [tech|];
    try (unfold raise, unknown_tech; intros H; injection H as <-; discriminate).
  unfold bind.
  destruct (gather_inputs_ok streams node_id (nx.predecessors g node_id) h)
    as (ins & h1 & E).
  rewrite E.
  destruct (_calculate_node tech params ins h1) as [[[out res] h2]|e'] eqn:Hc.
  - unfold ret. discriminate.
  - intros H. injection H as <-.
    apply calculate_node_raises in Hc. subst. discriminate.
Qed.

Lemma process_nodes_raises (tech_db : dict Tech.t) (g : nx.DiGraph)
    (order : list string) :
  forall st h e,
    process_nodes tech_db g order st h = Raise e -> e <> OutOfFuel.
Proof.
  induction order as [|n order IH]; intros st h e; simpl.
  - unfold ret. discriminate.
  - unfold bind.
    destruct (process_node tech_db g st n h) as [[st' h']|e'] eqn:Hn.
    + apply IH.
    + intros H. injection H as <-. eapply process_node_raises; eauto.
Qed.

Lemma sum_metrics_raises (node_results : dict (dict value)) :
  forall t e, sum_metrics node_results t = Raise e -> e = TypeError.
Proof.
  induction node_results as [|[k results] rest IH]; intros t e; simpl.
  - discriminate.
  - unfold add_metric.
    repeat match goal with
           | |- context [PyDict.get results ?k] =>
               destruct (PyDict.get results k) as [[?|?]|]; simpl;
               try (intros H; injection H as <-; reflexivity)
           end;
      apply IH.
Qed.

(* the whole calculation: the bound of the sort's loop is never what stops it *)
Lemma calculate_route_terminates (tech_db : dict Tech.t)
    (nodes : list Node.t) (edges : list Edge.t) :
  calculate_route tech_db nodes edges <> Raise OutOfFuel.
Proof.
  unfold calculate_route.
  destruct (build_graph_spec nodes edges)
    as [(Hbuild & _ & order & Hsort & _)|(Hbuild & _)];
    rewrite Hbuild; simpl; [|discriminate].
  rewrite Hsort. simpl. unfold run_route, bind.
  destruct (process_nodes tech_db (assembled nodes edges) order ([], []) [])
    as [[[streams results] h]|e] eqn:Hrun.
  - unfold _aggregate_results.
    destruct (sum_metrics results _) as [t|e] eqn:Hsum; [discriminate|].
    apply sum_metrics_raises in Hsum. subst. discriminate.
  - apply process_nodes_raises in Hrun. congruence.
Qed.

Lemma sorted_acyclic (nodes : list Node.t) (edges : list Edge.t)
    (order : list string) :
  nx.topological_sort (assembled nodes edges) = Ok order -> acyclic edges.
Proof.
  intros Hsort.
  destruct (topological_sort_spec _ (assembled_wf nodes edges))
    as [(order' & _ & _ & _ & _ & Hacyc)|(Hraise & _)].
  - intros v Hp. apply (Hacyc v). apply (assembled_path nodes edges). exact Hp.
  - rewrite Hsort in Hraise. discriminate.
Qed.

(** C8.  When the edge list holds a directed cycle, [build_graph] raises the
    cycle error (the ValueError "Route contains cycles - invalid
    configuration"), whatever the nodes and the catalogue contain; so does
    [calculate_route], which calls [build_graph] before its loop over the
    nodes: no node is processed and no result or stream is produced. *)
Theorem cyclic_route_is_rejected
    (tech_db : dict Tech.t) (nodes : list Node.t) (edges : list Edge.t) :
  has_cycle edges ->
  build_graph nodes edges = Raise (ValueError cycle_message) /\
  calculate_route tech_db nodes edges = Raise (ValueError cycle_message) /\
  forall r, calculate_route tech_db nodes edges <> Ok r.
Proof.
  intros (x & Hx).
  destruct (build_graph_spec nodes edges)
    as [(_ & Hacyc & _)|(Hbuild & _)]; [exfalso; exact (Hacyc x Hx)|].
  assert (Hcalc : calculate_route tech_db nodes edges
                  = Raise (ValueError cycle_message)).
  { unfold calculate_route. rewrite Hbuild. reflexivity. }
  repeat split; auto. intros r Hr. rewrite Hcalc in Hr. discriminate.
Qed.

Lemma cyclic_route_is_rejected_witness :
  let nodes :=
    [ Node.mk "A" "vinasse" []; Node.mk "B" "uasb" [] ]%string in
  let edges := [ Edge.mk "A" "B"; Edge.mk "B" "A" ]%string in
  has_cycle edges /\
  build_graph nodes edges = Raise (ValueError cycle_message) /\
  calculate_route Catalogue.TECH_DATABASE nodes edges
  = Raise (ValueError cycle_message) /\
  forall r, calculate_route Catalogue.TECH_DATABASE nodes edges <> Ok r.
Proof.
  cbv zeta.
  assert (Hcyc : has_cycle [ Edge.mk "A" "B"; Edge.mk "B" "A" ]%string).
  { exists "A"%string. apply path_step with (w := "B"%string).
    - left. reflexivity.
    - apply path_edge. right. left. reflexivity. }
  split; [exact Hcyc|].
  exact (cyclic_route_is_rejected Catalogue.TECH_DATABASE
           [ Node.mk "A" "vinasse" []; Node.mk "B" "uasb" [] ]%string
           [ Edge.mk "A" "B"; Edge.mk "B" "A" ]%string Hcyc).
Defined.

(** ** Edges that name undeclared nodes *)

Lemma get_app_bare (d : dict nx.attrs) (n k : string) :
  PyDict.get (d ++ [(n, None)]) k = None \/
  PyDict.get (d ++ [(n, None)]) k = Some None \/
  PyDict.get (d ++ [(n, None)]) k = PyDict.get d k.
Proof.
  induction d as [|[k' v'] d IH]; simpl.
  - destruct (String.eqb n k); auto.
  - destruct (String.eqb k' k); auto.
Qed.

Lemma bare_ensure_node (g : nx.DiGraph) (n z : string) :
  PyDict.get (nx._node g) z = None \/ PyDict.get (nx._node g) z = Some None ->
  PyDict.get (nx._node (nx.ensure_node g n)) z = None \/
  PyDict.get (nx._node (nx.ensure_node g n)) z = Some None.
Proof.
  intros H. unfold nx.ensure_node. destruct (nx.has_node g n); auto.
  simpl. destruct (get_app_bare (nx._node g) n z) as [E|[E|E]]; auto.
  now rewrite E.
Qed.

Lemma bare_add_edge (g : nx.DiGraph) (u v z : string) :
  PyDict.get (nx._node g) z = None \/ PyDict.get (nx._node g) z = Some None ->
  PyDict.get (nx._node (nx.add_edge g u v)) z = None \/
  PyDict.get (nx._node (nx.add_edge g u v)) z = Some None.
Proof.
  intros H. unfold nx.add_edge.
  destruct (nx.has_edge (nx.ensure_node (nx.ensure_node g u) v) u v); simpl;
    now apply bare_ensure_node, bare_ensure_node.
Qed.

Lemma bare_fold_add_edge (edges : list Edge.t) (z : string) :
  forall g,
    PyDict.get (nx._node g) z = None \/ PyDict.get (nx._node g) z = Some None ->
    let g' := fold_left (fun g edge =>
                           nx.add_edge g (Edge.source edge) (Edge.target edge))
                        edges g in
    PyDict.get (nx._node g') z = None \/ PyDict.get (nx._node g') z = Some None.
Proof.
  induction edges as [|e edges IH]; simpl; auto.
  intros g H. apply IH. now apply bare_add_edge.
Qed.

(* an undeclared node named by an edge is in the graph, without attributes *)
Lemma dangling_is_bare (nodes : list Node.t) (edges : list Edge.t) (z : string) :
  dangling nodes edges z ->
  In z (nx.nodes (assembled nodes edges)) /\
  PyDict.get (nx._node (assembled nodes edges)) z = Some None.
Proof.
  intros (Hz & He).
  assert (Hin : In z (nx.nodes (assembled nodes edges))).
  { apply assembled_nodes. auto. }
  split; auto.
  assert (Hbare : PyDict.get (nx._node (assembled nodes edges)) z = None \/
                  PyDict.get (nx._node (assembled nodes edges)) z = Some None).
  { unfold assembled. apply bare_fold_add_edge. left.
    apply get_None_keys. intros Hk.
    apply (fold_add_node_nodes nodes nx.empty z) in Hk.
    destruct Hk as [[]|Hk]. tauto. }
  destruct Hbare as [Hn|Hs]; auto.
  apply get_None_keys in Hn. tauto.
Qed.

(* the loop cannot get past a node without attributes *)
Lemma process_nodes_bare (tech_db : dict Tech.t) (g : nx.DiGraph) (z : string) :
  PyDict.get (nx._node g) z = Some None ->
  forall order, In z order ->
    forall st h, exists e, process_nodes tech_db g order st h = Raise e.
Proof.
  intros Hz. induction order as [|n order IH]; intros Hin st h; [destruct Hin|].
  simpl. unfold bind.
  destruct (process_node tech_db g st n h) as [[st' h']|e] eqn:Hnode.
  - destruct (string_dec n z) as [->|Hne].
    + exfalso. unfold process_node in Hnode. destruct st as [streams results].
      rewrite Hz in Hnode. discriminate.
    + apply IH. destruct Hin as [Hin|Hin]; [congruence | exact Hin].
  - eauto.
Qed.

(** C4, the claim as stated fails: with the single node A (bagasse) and the
    edge A -> Z, where Z is not declared, [build_graph] does not fail; it
    returns a graph in which Z is a node without attributes.  The failure
    comes later and differently: [calculate_route] completes the turn of
    node A and raises KeyError('tech_id') at Z. *)
Lemma dangling_edge_not_rejected_by_build :
  let nodes := [ Node.mk "A" "bagasse" [] ]%string in
  let edges := [ Edge.mk "A" "Z" ]%string in
  dangling nodes edges "Z" /\
  build_graph nodes edges
  = Ok {| nx._node := [ ("A", Some ("bagasse", [])); ("Z", None) ]%string;
          nx._adj := [ ("A", "Z") ]%string |} /\
  (forall e, build_graph nodes edges <> Raise e) /\
  (exists st h,
      process_nodes Catalogue.TECH_DATABASE (assembled nodes edges)
        [ "A"%string ] ([], []) []
      = Ok (st, h)) /\
  calculate_route Catalogue.TECH_DATABASE nodes edges
  = Raise (KeyError "tech_id").
Proof.
  cbv zeta. split; [|split; [|split; [|split]]].
  - split.
    + simpl. intros [H|[]]. discriminate.
    + eexists. split; [left; reflexivity | right; reflexivity].
  - vm_compute. reflexivity.
  - intros e H. vm_compute in H. discriminate.
  - do 2 eexists. vm_compute. reflexivity.
  - vm_compute. reflexivity.
Qed.

(** ** [validate_route] *)

Lemma errors_for_length (tech_db : dict Tech.t) (nodes : list Node.t)
    (edge : Edge.t) :
  length (errors_for tech_db nodes edge)
  = if offending tech_db nodes edge then 1 else 0.
Proof.
  unfold errors_for, offending.
  destruct (techs_of tech_db nodes edge) as [[s t]|]; auto.
  destruct (Tech.accepts t); auto.
  destruct (negb _); reflexivity.
Qed.

Lemma errors_for_edge (tech_db : dict Tech.t) (nodes : list Node.t)
    (edge : Edge.t) :
  map err_edge (errors_for tech_db nodes edge)
  = if offending tech_db nodes edge
    then [Some (Edge.source edge ++ " -> " ++ Edge.target edge)%string]
    else [].
Proof.
  unfold errors_for, offending.
  destruct (techs_of tech_db nodes edge) as [[s t]|]; auto.
  destruct (Tech.accepts t); auto.
  destruct (negb _); reflexivity.
Qed.

Lemma flat_map_errors_length (tech_db : dict Tech.t) (nodes : list Node.t)
    (edges : list Edge.t) :
  length (flat_map (errors_for tech_db nodes) edges)
  = length (filter (offending tech_db nodes) edges).
Proof.
  induction edges as [|e edges IH]; simpl; auto.
  rewrite length_app, errors_for_length, IH.
  destruct (offending tech_db nodes e); reflexivity.
Qed.

Lemma flat_map_errors_edge (tech_db : dict Tech.t) (nodes : list Node.t)
    (edges : list Edge.t) :
  map err_edge (flat_map (errors_for tech_db nodes) edges)
  = map (fun e => Some (Edge.source e ++ " -> " ++ Edge.target e)%string)
        (filter (offending tech_db nodes) edges).
Proof.
  induction edges as [|e edges IH]; simpl; auto.
  rewrite map_app, errors_for_edge, IH.
  destruct (offending tech_db nodes e); reflexivity.
Qed.

(* when every edge resolves, the loop appends to [errors] the entries of the
   offending edges, in the order of the edge list *)
Lemma check_edges_collects (tech_db : dict Tech.t) (nodes : list Node.t)
    (edges : list Edge.t) :
  (forall e, In e edges -> techs_of tech_db nodes e <> None) ->
  forall errors,
    check_edges tech_db nodes edges errors
    = Ok (errors ++ flat_map (errors_for tech_db nodes) edges).
Proof.
  induction edges as [|e edges IH]; intros Hres errors; simpl.
  - now rewrite app_nil_r.
  - assert (He : techs_of tech_db nodes e <> None) by (apply Hres; now left).
    assert (Hrest : forall e', In e' edges -> techs_of tech_db nodes e' <> None)
      by (intros e' H; apply Hres; now right).
    unfold errors_for, offending. unfold techs_of in *.
    unfold next_node, tech_lookup.
    destruct (find (fun n => String.eqb (Node.node_id n) (Edge.source e)) nodes)
      as [sn|]; [|congruence].
    destruct (find (fun n => String.eqb (Node.node_id n) (Edge.target e)) nodes)
      as [tn|]; [|congruence].
    simpl.
    destruct (PyDict.get tech_db (Node.tech_id sn)) as [st|]; [|congruence].
    destruct (PyDict.get tech_db (Node.tech_id tn)) as [tt|]; [|congruence].
    simpl.
    destruct (Tech.accepts tt) as [|a acc] eqn:Hacc.
    + rewrite IH by assumption. reflexivity.
    + destruct (intersects (Tech.outputs st) (a :: acc)); simpl.
      * rewrite IH by assumption. reflexivity.
      * rewrite IH by assumption. now rewrite <- app_assoc.
Qed.

(** C10, as amended.  On an acyclic route every edge of which joins two
    declared nodes whose technologies are in the catalogue, if some edge
    offends (the target accepts some kinds and the source produces none of
    them), [validate_route] returns, without raising, success and valid
    false with exactly one error entry per offending edge of the edge list,
    in order: all the violations are collected. *)
Theorem validate_collects_incompatible
    (tech_db : dict Tech.t) (nodes : list Node.t) (edges : list Edge.t) :
  acyclic edges ->
  (forall e, In e edges -> techs_of tech_db nodes e <> None) ->
  existsb (offending tech_db nodes) edges = true ->
  validate_route tech_db nodes edges
  = Ok {| rep_success := false; rep_valid := false;
          rep_errors := flat_map (errors_for tech_db nodes) edges;
          rep_message := None |} /\
  length (flat_map (errors_for tech_db nodes) edges)
  = length (filter (offending tech_db nodes) edges) /\
  map err_edge (flat_map (errors_for tech_db nodes) edges)
  = map (fun e => Some (Edge.source e ++ " -> " ++ Edge.target e)%string)
        (filter (offending tech_db nodes) edges) /\
  0 < length (filter (offending tech_db nodes) edges).
Proof.
  intros Hacyc Hres Hoff.
  assert (Hpos : 0 < length (filter (offending tech_db nodes) edges)).
  { apply existsb_exists in Hoff. destruct Hoff as (e & He & Hoff).
    assert (Hin : In e (filter (offending tech_db nodes) edges))
      by (apply filter_In; auto).
    destruct (filter (offending tech_db nodes) edges); [destruct Hin|].
    simpl. lia. }
  split; [|split; [apply flat_map_errors_length|
                   split; [apply flat_map_errors_edge | exact Hpos]]].
  unfold validate_route.
  destruct (build_graph_spec nodes edges)
    as [(Hbuild & _)|(_ & x & Hx)]; [|exfalso; exact (Hacyc x Hx)].
  rewrite Hbuild, check_edges_collects by assumption. simpl.
  rewrite <- flat_map_errors_length in Hpos.
  destruct (flat_map (errors_for tech_db nodes) edges);
    [simpl in Hpos; lia | reflexivity].
Qed.

Lemma validate_collects_incompatible_witness :
  let nodes :=
    [ Node.mk "a" "vinasse" []; Node.mk "b" "ice_cogen" [];
      Node.mk "c" "psa" []; Node.mk "d" "uasb" [] ]%string in
  let edges :=
    [ Edge.mk "a" "b"; Edge.mk "a" "d"; Edge.mk "a" "c" ]%string in
  acyclic edges /\
  validate_route Catalogue.TECH_DATABASE nodes edges
  = Ok {| rep_success := false; rep_valid := false;
          rep_errors :=
            flat_map (errors_for Catalogue.TECH_DATABASE nodes) edges;
          rep_message := None |} /\
  length (flat_map (errors_for Catalogue.TECH_DATABASE nodes) edges) = 2.
Proof.
  cbv zeta.
  assert (Hacyc : acyclic [ Edge.mk "a" "b"; Edge.mk "a" "d";
                            Edge.mk "a" "c" ]%string).
  { apply (sorted_acyclic
             [ Node.mk "a" "vinasse" []; Node.mk "b" "ice_cogen" [];
               Node.mk "c" "psa" []; Node.mk "d" "uasb" [] ]%string
             _ [ "a"; "b"; "d"; "c" ]%string).
    vm_compute. reflexivity. }
  split; [exact Hacyc|].
  destruct (validate_collects_incompatible Catalogue.TECH_DATABASE
              [ Node.mk "a" "vinasse" []; Node.mk "b" "ice_cogen" [];
                Node.mk "c" "psa" []; Node.mk "d" "uasb" [] ]%string
              [ Edge.mk "a" "b"; Edge.mk "a" "d"; Edge.mk "a" "c" ]%string
              Hacyc)
    as (H1 & _).
  - intros e [<-|[<-|[<-|[]]]]; vm_compute; discriminate.
  - vm_compute. reflexivity.
  - split; [exact H1 | vm_compute; reflexivity].
Defined.

(** C10, the claim as stated fails.  Two acyclic routes with an offending
    edge a -> b (vinasse produces liquid_organic, the co-generation engine
    accepts biogas and biomethane): in the first another edge names the
    undeclared node z, in the second the node c has a technology that the
    catalogue lacks.  [validate_route] raises on both (the StopIteration of
    [next], a RuntimeError once it leaves the coroutine; a KeyError) and
    returns no report. *)
Lemma validate_raises_on_unresolved_edge :
  let nodes1 :=
    [ Node.mk "a" "vinasse" []; Node.mk "b" "ice_cogen" [] ]%string in
  let edges1 := [ Edge.mk "a" "b"; Edge.mk "a" "z" ]%string in
  let nodes2 :=
    [ Node.mk "a" "vinasse" []; Node.mk "b" "ice_cogen" [];
      Node.mk "c" "gasifier" [] ]%string in
  let edges2 := [ Edge.mk "a" "b"; Edge.mk "b" "c" ]%string in
  (acyclic edges1 /\
   offending Catalogue.TECH_DATABASE nodes1 (Edge.mk "a" "b") = true /\
   validate_route Catalogue.TECH_DATABASE nodes1 edges1
   = Raise (RuntimeError "coroutine raised StopIteration") /\
   forall rep, validate_route Catalogue.TECH_DATABASE nodes1 edges1 <> Ok rep)
  /\
  (acyclic edges2 /\
   offending Catalogue.TECH_DATABASE nodes2 (Edge.mk "a" "b") = true /\
   validate_route Catalogue.TECH_DATABASE nodes2 edges2
   = Raise (KeyError "gasifier") /\
   forall rep, validate_route Catalogue.TECH_DATABASE nodes2 edges2 <> Ok rep).
Proof.
  cbv zeta. split.
  - split; [|split; [|split]].
    + apply (sorted_acyclic
               [ Node.mk "a" "vinasse" []; Node.mk "b" "ice_cogen" [] ]%string
               _ [ "a"; "b"; "z" ]%string).
      vm_compute. reflexivity.
    + vm_compute. reflexivity.
    + vm_compute. reflexivity.
    + intros rep H. vm_compute in H. discriminate.
  - split; [|split; [|split]].
    + apply (sorted_acyclic
               [ Node.mk "a" "vinasse" []; Node.mk "b" "ice_cogen" [];
                 Node.mk "c" "gasifier" [] ]%string
               _ [ "a"; "b"; "c" ]%string).
      vm_compute. reflexivity.
    + vm_compute. reflexivity.
    + vm_compute. reflexivity.
    + intros rep H. vm_compute in H. discriminate.
Qed.

(** * Further properties of the engine *)

(** ** Streams and the heap *)

Lemma nth_update_nth_same (h : heap) (l : loc) (s : StreamProperties) :
  l < length h -> nth l (update_nth h l s) StreamProperties_default = s.
Proof.
  revert l. induction h as [|x h IH]; intros [|l] Hl; simpl in *; try lia; auto.
  apply IH. lia.
Qed.

Lemma nth_update_nth_other (h : heap) (l l' : loc) (s : StreamProperties) :
  l' <> l ->
  nth l' (update_nth h l s) StreamProperties_default
  = nth l' h StreamProperties_default.
Proof.
  revert l l'. induction h as [|x h IH]; intros [|l] [|l'] Hne; simpl; auto;
    try congruence; try (apply IH; congruence).
Qed.

Lemma length_update_nth (h : heap) (l : loc) (s : StreamProperties) :
  length (update_nth h l s) = length h.
Proof.
  revert l. induction h as [|x h IH]; intros [|l]; simpl; auto.
Qed.

(** X1.  [_sum_inputs] never raises and never touches an object that is
    already on the heap.  With exactly one input it returns that input
    object itself, without a copy; with none or several it returns a new
    object, the last one it put on the heap. *)
Theorem sum_inputs_aliases_or_allocates (inputs : list loc) (h : heap) :
  exists l ext,
    _sum_inputs inputs h = Ok (l, h ++ ext) /\
    ((exists a, inputs = [a] /\ l = a /\ ext = []) \/
     (length inputs <> 1 /\
      exists ext0 s, ext = ext0 ++ [s] /\ l = length (h ++ ext0))).
Proof.
  destruct inputs as [|first [|second rest]].
  - exists (length h), [StreamProperties_default]. split; [reflexivity|].
    right. split; [discriminate|].
    exists [], StreamProperties_default. now rewrite app_nil_r.
  - exists first, []. rewrite app_nil_r. split; [reflexivity|].
    left. exists first. auto.
  - destruct (sum_rest_fresh (second :: rest) ltac:(discriminate) first h)
      as (ext0 & s & E).
    exists (length (h ++ ext0)), (ext0 ++ [s]). split; [exact E|].
    right. split; [simpl; lia|]. eauto.
Qed.

(** X2.  A pretreatment node with a single input works in place: it returns
    the input object itself, whose volatile solids are multiplied by
    1 + biogas_increase / 100 while its seven other fields stay as they
    were; no object is added to the heap and every other object is left
    alone. *)
Theorem pretreatment_single_input_in_place
    (tech : Tech.t) (params : dict float) (a : loc) (h : heap) :
  a < length h ->
  exists results h',
    _calc_pretreatment tech params [a] h = Ok (a, results, h') /\
    length h' = length h /\
    (forall l, l <> a ->
               nth l h' StreamProperties_default
               = nth l h StreamProperties_default) /\
    let s := nth a h StreamProperties_default in
    let s' := nth a h' StreamProperties_default in
    vs_content s'
    = (vs_content s
       * (1 + PyDict.get_default (Tech.defaults tech) "biogas_increase" 15
              / 100))%float /\
    mass_flow s' = mass_flow s /\ volume_flow s' = volume_flow s /\
    energy_content s' = energy_content s /\
    methane_content s' = methane_content s /\ cod s' = cod s /\
    temperature s' = temperature s /\ pressure s' = pressure s /\
    PyDict.get results "effective_vs_output" = Some (VNum (vs_content s')).
Proof.
  intros Ha. unfold _calc_pretreatment, bind. rewrite sum_inputs_single.
  unfold deref, assign, ret. do 2 eexists. split; [reflexivity|].
  split; [apply length_update_nth|].
  split; [intros l Hl; now apply nth_update_nth_other|].
  cbv zeta. rewrite !nth_update_nth_same by assumption. simpl.
  repeat split; reflexivity.
Qed.

Lemma pretreatment_single_input_in_place_witness :
  exists results h',
    _calc_pretreatment Catalogue.thermal_hydrolysis [] [0]
      [mkStream 100000 0 375000 0 0 42500 35 1]
    = Ok (0, results, h') /\
    length h' = 1 /\
    vs_content (nth 0 h' StreamProperties_default) = 53125%float.
Proof.
  destruct (pretreatment_single_input_in_place Catalogue.thermal_hydrolysis
              [] 0 [mkStream 100000 0 375000 0 0 42500 35 1])
    as (results & h' & H1 & H2 & _ & H4 & _).
  - simpl. lia.
  - exists results, h'. split; [exact H1|]. split; [exact H2|].
    cbv zeta in H4. rewrite H4. vm_compute. reflexivity.
Defined.

(** X3.  On parameters and defaults that are floats, the digester raises
    exactly when the summed input carries COD (the liquid pathway) and the
    profile's ch4_content is zero: the exception is then ZeroDivisionError,
    from [ch4_production / ch4_content]; in every other case, the solid
    pathway included, it returns. *)
Theorem digester_raises_exactly
    (tech : Tech.t) (params : dict float) (inputs : list loc) (h : heap) :
  exists combined h1,
    _sum_inputs inputs h = Ok (combined, h1) /\
    let liquid := (0 <? cod (nth combined h1 StreamProperties_default))%float in
    let zero :=
      (PyDict.get_default (Tech.defaults tech) "ch4_content" 0.60 =? 0)%float in
    (liquid && zero = true ->
     _calc_digester tech params inputs h = Raise ZeroDivisionError) /\
    (liquid && zero = false ->
     exists results s,
       _calc_digester tech params inputs h
       = Ok (length h1, results, h1 ++ [s])).
Proof.
  destruct (sum_inputs_extends inputs h) as (c & ext & E).
  exists c, (h ++ ext). split; [exact E|]. cbv zeta.
  unfold _calc_digester, bind. rewrite E. unfold deref, py_div.
  destruct (0 <? cod _)%float; simpl.
  - destruct (_ =? 0)%float; simpl; split; try discriminate;
      intros _; [reflexivity|].
    unfold ret, alloc. eauto.
  - split; [discriminate|]. intros _. unfold ret, alloc. eauto.
Qed.

(** ** One turn of the loop, taken apart *)

Lemma process_node_inversion (tech_db : dict Tech.t) (g : nx.DiGraph)
    (streams : dict loc) (node_results : dict (dict value))
    (node_id : string) (h : heap)
    (streams' : dict loc) (node_results' : dict (dict value)) (h' : heap) :
  process_node tech_db g (streams, node_results) node_id h
  = Ok ((streams', node_results'), h') ->
  exists tech_id params tech ins h1 out res,
    PyDict.get (nx._node g) node_id = Some (Some (tech_id, params)) /\
    PyDict.get tech_db tech_id = Some tech /\
    gather_inputs streams node_id (nx.predecessors g node_id) h = Ok (ins, h1) /\
    _calculate_node tech params ins h1 = Ok (out, res, h') /\
    streams' = propagate streams node_id out (nx.successors g node_id) /\
    node_results'
    = PyDict.set node_results node_id
        (PyDict.update res
           [ ("tech_id", VStr tech_id);
             ("tech_name", VStr (Tech.name tech));
             ("category", VStr (Tech.category tech)) ]%string).
Proof.
  unfold process_node.
  destruct (PyDict.get (nx._node g) node_id) as [[[tech_id params]|]|] eqn:Hn;
    try discriminate.
  destruct (PyDict.get tech_db tech_id) as [tech|] eqn:Hdb; try discriminate.
  unfold bind.
  destruct (gather_inputs streams node_id (nx.predecessors g node_id) h)
    as [[ins h1]|] eqn:Hg; try discriminate.
  destruct (_calculate_node tech params ins h1) as [[[out res] h2]|] eqn:Hc;
    try discriminate.
  unfold ret. intros H. injection H as <- <- <-.
  exists tech_id, params, tech, ins, h1, out, res.
  split; [reflexivity|]. split; [exact Hdb|]. split; [reflexivity|].
  split; [exact Hc|]. split; reflexivity.
Qed.

Lemma annotate_annotated (res : dict value) (tech_id : string) (tech : Tech.t) :
  annotated
    (PyDict.update res
       [ ("tech_id", VStr tech_id);
         ("tech_name", VStr (Tech.name tech));
         ("category", VStr (Tech.category tech)) ]%string)
    tech_id tech.
Proof.
  unfold annotated, PyDict.update. simpl. repeat split.
  - rewrite !get_set_other by discriminate. apply get_set_same.
  - rewrite get_set_other by discriminate. apply get_set_same.
  - apply get_set_same.
Qed.

Lemma annotate_numeric (res : dict value) (a b c : value) :
  numeric res = true ->
  numeric (PyDict.update res
             [ ("tech_id", a); ("tech_name", b); ("category", c) ]%string)
  = true.
Proof.
  unfold numeric, PyDict.update, summed_keys. simpl.
  rewrite !get_set_other by discriminate. auto.
Qed.

(* the records the rules return hold numbers under the summed keys *)
Lemma rule_results_numeric (tech : Tech.t) (params : dict float)
    (inputs : list loc) (h : heap) (l : loc) (results : dict value)
    (h' : heap) :
  _calculate_node tech params inputs h = Ok (l, results, h') ->
  numeric results = true.
Proof.
  unfold _calculate_node.
  destruct (sum_inputs_extends inputs h) as (c & ext & E).
  repeat match goal with
         | |- context [if String.eqb (Tech.category tech) ?b then _ else _] =>
             destruct (String.eqb (Tech.category tech) b)
         end.
  - unfold _calc_feedstock.
    destruct (in_list _ _); unfold bind, alloc, deref, ret;
      intros H; injection H as <- <- <-; reflexivity.
  - unfold _calc_pretreatment, bind. rewrite E. unfold deref, assign, ret.
    intros H. injection H as <- <- <-. reflexivity.
  - unfold _calc_digester, bind. rewrite E. unfold deref.
    destruct (0 <? _)%float.
    + unfold py_div.
      destruct (_ =? 0)%float; unfold raise, ret, alloc; [discriminate|].
      intros H. injection H as <- <- <-. reflexivity.
    + unfold ret, alloc. intros H. injection H as <- <- <-. reflexivity.
  - unfold _calc_upgrading, bind. rewrite E. unfold deref, alloc, ret.
    intros H. injection H as <- <- <-. reflexivity.
  - unfold _calc_enduse, bind. rewrite E. unfold deref, alloc, ret.
    intros H. injection H as <- <- <-.
    repeat match goal with
           | |- context [in_list (Tech.id tech) ?l] =>
               destruct (in_list (Tech.id tech) l)
           | |- context [String.eqb (Tech.id tech) ?b] =>
               destruct (String.eqb (Tech.id tech) b)
           end; reflexivity.
  - unfold _calc_byproduct, bind. rewrite E. unfold alloc, ret.
    intros H. injection H as <- <- <-. reflexivity.
  - unfold bind. rewrite E. unfold ret.
    intros H. injection H as <- <- <-. reflexivity.
Qed.

Lemma Forall_set {V : Type} (P : V -> Prop) (d : dict V) (k : string) (v : V) :
  Forall (fun kv => P (snd kv)) d -> P v ->
  Forall (fun kv => P (snd kv)) (PyDict.set d k v).
Proof.
  intros Hd Hv. induction d as [|[k' v'] d IH]; simpl.
  - repeat constructor. exact Hv.
  - inversion Hd; subst. destruct (String.eqb k' k); constructor; auto.
Qed.

Lemma add_metric_numeric (results : dict value) (key : string) (total : float) :
  numeric results = true -> In key summed_keys ->
  exists x, add_metric results key total = Ok x.
Proof.
  unfold numeric. rewrite forallb_forall. intros H Hk. specialize (H key Hk).
  unfold add_metric. destruct (PyDict.get results key) as [[x|s]|]; eauto.
  discriminate.
Qed.

Lemma sum_metrics_numeric (node_results : dict (dict value)) :
  Forall (fun kv => numeric (snd kv) = true) node_results ->
  forall t, exists t', sum_metrics node_results t = Ok t'.
Proof.
  induction 1 as [|[k results] rest Hn _ IH]; intros t; simpl.
  - eauto.
  - simpl in Hn.
    destruct (add_metric_numeric results "biogas_nm3_day" (total_biogas t) Hn)
      as (x1 & ->); [simpl; tauto|].
    destruct (add_metric_numeric results "methane_nm3_day" (total_methane t) Hn)
      as (x2 & ->); [simpl; tauto|].
    destruct (add_metric_numeric results "biomethane_nm3_day"
                (total_biomethane t) Hn) as (x3 & ->); [simpl; tauto|].
    destruct (add_metric_numeric results "electricity_kwh_day"
                (total_electricity t) Hn) as (x4 & ->); [simpl; tauto|].
    destruct (add_metric_numeric results "thermal_kwh_day" (total_thermal t) Hn)
      as (x5 & ->); [simpl; tauto|].
    destruct (add_metric_numeric results "annual_revenue_brl"
                (total_revenue t) Hn) as (x6 & ->); [simpl; tauto|].
    simpl. apply IH.
Qed.

Lemma process_nodes_errors (tech_db : dict Tech.t) (g : nx.DiGraph)
    (order : list string) :
  (forall n, In n order -> In n (nx.nodes g)) ->
  forall st h,
    Forall (fun kv => numeric (snd kv) = true) (snd st) ->
    match process_nodes tech_db g order st h with
    | Ok (st', _) => Forall (fun kv => numeric (snd kv) = true) (snd st')
    | Raise e => route_error e
    end.
Proof.
  induction order as [|n order IH]; intros Hin st h Hnum; simpl.
  - exact Hnum.
  - unfold bind. destruct st as [streams results].
    destruct (process_node tech_db g (streams, results) n h)
      as [[[streams1 results1] h1]|e] eqn:Hnode.
    + apply process_node_inversion in Hnode.
      destruct Hnode as (tid & params & tech & ins & h0 & out & res
                         & _ & _ & _ & Hcalc & _ & ->).
      apply IH; [intros m Hm; apply Hin; now right|].
      cbn [snd]. apply (Forall_set (fun r => numeric r = true)); auto.
      apply annotate_numeric. eapply rule_results_numeric; eauto.
    + unfold process_node in Hnode.
      assert (Hn : In n (nx.nodes g)) by (apply Hin; now left).
      destruct (PyDict.get (nx._node g) n) as [[[tid params]|]|] eqn:Hget.
      * destruct (PyDict.get tech_db tid) as [tech|].
        -- unfold bind in Hnode.
           destruct (gather_inputs_ok streams n (nx.predecessors g n) h)
             as (ins & h0 & Eg).
           rewrite Eg in Hnode.
           destruct (_calculate_node tech params ins h0)
             as [[[out res] h2]|e'] eqn:Hc; [discriminate|].
           injection Hnode as <-. apply calculate_node_raises in Hc.
           subst. unfold route_error. tauto.
        -- injection Hnode as <-. unfold route_error. eauto.
      * injection Hnode as <-. unfold route_error. tauto.
      * apply get_None_keys in Hget. tauto.
Qed.

(** X4.  On a request whose node parameters are floats, [calculate_route]
    ends in one of five ways: a result whose [success] is true, the cycle
    ValueError of [build_graph], the ValueError of a technology missing
    from the catalogue, KeyError('tech_id') at a node
    that only an edge names, or the digester's ZeroDivisionError.  It raises
    nothing else: the aggregation never meets a non-numeric metric, and
    [nx.topological_sort] never fails after [build_graph] has passed. *)
Theorem calculate_route_outcomes
    (tech_db : dict Tech.t) (nodes : list Node.t) (edges : list Edge.t) :
  match calculate_route tech_db nodes edges with
  | Ok r => success r = true
  | Raise e => route_error e
  end.
Proof.
  unfold calculate_route.
  destruct (build_graph_spec nodes edges)
    as [(Hbuild & _ & order & Hsort & _ & _ & Hall)|(Hbuild & _)];
    rewrite Hbuild; simpl; [|unfold route_error; tauto].
  rewrite Hsort. simpl. unfold run_route, bind.
  pose proof (process_nodes_errors tech_db (assembled nodes edges) order
                (fun n Hn => proj1 (Hall n) Hn) ([], []) []
                (Forall_nil _)) as Hrun.
  destruct (process_nodes tech_db (assembled nodes edges) order ([], []) [])
    as [[[streams results] h]|e]; [|exact Hrun].
  simpl in Hrun. unfold _aggregate_results.
  destruct (sum_metrics_numeric results Hrun
              {| total_biogas := 0; total_methane := 0; total_biomethane := 0;
                 total_electricity := 0; total_thermal := 0;
                 total_revenue := 0 |}) as (t & ->).
  reflexivity.
Qed.

Lemma process_nodes_annotated (tech_db : dict Tech.t) (g : nx.DiGraph)
    (order : list string) :
  forall st h st' h',
    process_nodes tech_db g order st h = Ok (st', h') ->
    (forall n res, PyDict.get (snd st) n = Some res ->
       exists tech_id params tech,
         PyDict.get (nx._node g) n = Some (Some (tech_id, params)) /\
         PyDict.get tech_db tech_id = Some tech /\
         annotated res tech_id tech) ->
    forall n res, PyDict.get (snd st') n = Some res ->
      exists tech_id params tech,
        PyDict.get (nx._node g) n = Some (Some (tech_id, params)) /\
        PyDict.get tech_db tech_id = Some tech /\
        annotated res tech_id tech.
Proof.
  induction order as [|m order IH]; intros st h st' h' Hrun Hinv.
  - simpl in Hrun. unfold ret in Hrun. injection Hrun as <- <-. exact Hinv.
  - simpl in Hrun. unfold bind in Hrun. destruct st as [streams results].
    destruct (process_node tech_db g (streams, results) m h)
      as [[[streams1 results1] h1]|] eqn:Hnode; try discriminate.
    apply process_node_inversion in Hnode.
    destruct Hnode as (tid & params & tech & ins & h0 & out & res0
                       & Hget & Hdb & _ & _ & _ & ->).
    eapply IH; [exact Hrun|].
    simpl. intros n res Hn.
    destruct (string_dec n m) as [->|Hne].
    + rewrite get_set_same in Hn. injection Hn as <-.
      exists tid, params, tech. repeat split; auto.
      all: apply annotate_annotated.
    + rewrite get_set_other in Hn by assumption. apply (Hinv n res Hn).
Qed.

(** X5.  In a successful calculation every node of the graph has a result
    record: the node was declared, its technology is in the catalogue, and
    the record carries that technology's id, name and category next to the
    rule's metrics. *)
Theorem successful_route_is_annotated
    (tech_db : dict Tech.t) (nodes : list Node.t) (edges : list Edge.t)
    (r : CalculationResult) :
  calculate_route tech_db nodes edges = Ok r ->
  forall n, In n (nx.nodes (assembled nodes edges)) ->
    exists tech_id params tech results,
      PyDict.get (nx._node (assembled nodes edges)) n
      = Some (Some (tech_id, params)) /\
      PyDict.get tech_db tech_id = Some tech /\
      PyDict.get (node_details r) n = Some results /\
      annotated results tech_id tech.
Proof.
  unfold calculate_route.
  destruct (build_graph_spec nodes edges)
    as [(Hbuild & _ & order & Hsort & Hnd & _ & Hall)|(Hbuild & _)];
    rewrite Hbuild; simpl; [|discriminate].
  rewrite Hsort. simpl. unfold run_route, bind.
  destruct (process_nodes tech_db (assembled nodes edges) order ([], []) [])
    as [[[streams results] h]|e] eqn:Hrun; [|discriminate].
  unfold _aggregate_results.
  destruct (sum_metrics results _); [|discriminate].
  intros H. injection H as <-. simpl. intros n Hn.
  assert (Hfresh : forall m, In m order ->
                             ~ In m (PyDict.keys
                                       (snd (@nil (string * loc),
                                             @nil (string * dict value)))))
    by (intros m _ F; exact F).
  pose proof (process_nodes_ok _ _ _ _ _ _ _ Hrun Hnd Hfresh) as (Hkeys & _).
  simpl in Hkeys.
  destruct (PyDict.get results n) as [res|] eqn:Hget.
  - assert (Hinit : forall m res',
               PyDict.get (snd (@nil (string * loc),
                                @nil (string * dict value))) m = Some res' ->
               exists tech_id params tech,
                 PyDict.get (nx._node (assembled nodes edges)) m
                 = Some (Some (tech_id, params)) /\
                 PyDict.get tech_db tech_id = Some tech /\
                 annotated res' tech_id tech)
      by (intros m res' F; discriminate F).
    destruct (process_nodes_annotated _ _ _ _ _ _ _ Hrun Hinit n res Hget)
      as (tid & params & tech & H1 & H2 & H3).
    exists tid, params, tech, res. auto.
  - apply get_None_keys in Hget. rewrite Hkeys in Hget.
    exfalso. apply Hget. now apply Hall.
Qed.

(** ** Fan-out *)

Lemma propagate_get_kept (node_id : string) (out : loc) (succs : list string) :
  forall (streams : dict loc) (k : string),
    PyDict.get streams k = Some out ->
    PyDict.get (propagate streams node_id out succs) k = Some out.
Proof.
  unfold propagate. induction succs as [|s succs IH]; simpl; auto.
  intros streams k Hk. apply IH.
  destruct (string_dec k (stream_key node_id s)) as [->|Hne].
  - apply get_set_same.
  - now rewrite get_set_other.
Qed.

Lemma propagate_get_hit (node_id : string) (out : loc) (succs : list string) :
  forall (streams : dict loc) (s : string),
    In s succs ->
    PyDict.get (propagate streams node_id out succs) (stream_key node_id s)
    = Some out.
Proof.
  induction succs as [|s0 succs IH]; intros streams s Hin; [destruct Hin|].
  destruct Hin as [->|Hin].
  - change (propagate streams node_id out (s :: succs))
      with (propagate (PyDict.set streams (stream_key node_id s) out)
              node_id out succs).
    apply propagate_get_kept. apply get_set_same.
  - change (propagate streams node_id out (s0 :: succs))
      with (propagate (PyDict.set streams (stream_key node_id s0) out)
              node_id out succs).
    now apply IH.
Qed.

Lemma propagate_get_miss (node_id : string) (out : loc) (succs : list string) :
  forall (streams : dict loc) (k : string),
    (forall s, In s succs -> k <> stream_key node_id s) ->
    PyDict.get (propagate streams node_id out succs) k = PyDict.get streams k.
Proof.
  unfold propagate. induction succs as [|s succs IH]; simpl; auto.
  intros streams k Hk. rewrite IH by (intros s' Hs'; apply Hk; now right).
  apply get_set_other. apply Hk. now left.
Qed.

(** X6.  Fan-out is replication.  A node's turn calls the rule of its
    technology on the inputs gathered for it, and binds every one of the
    node's outgoing edges, in the stream map, to one and the same stream
    object: the object that this call of the rule returned.  Consumers share
    the full output, nothing is split; and the entries under other keys are
    as they were. *)
Theorem fan_out_is_replication
    (tech_db : dict Tech.t) (g : nx.DiGraph)
    (streams : dict loc) (node_results : dict (dict value))
    (node_id : string) (h : heap)
    (streams' : dict loc) (node_results' : dict (dict value)) (h' : heap) :
  process_node tech_db g (streams, node_results) node_id h
  = Ok ((streams', node_results'), h') ->
  exists tech_id params tech ins h1 out results,
    PyDict.get (nx._node g) node_id = Some (Some (tech_id, params)) /\
    PyDict.get tech_db tech_id = Some tech /\
    gather_inputs streams node_id (nx.predecessors g node_id) h
    = Ok (ins, h1) /\
    _calculate_node tech params ins h1 = Ok (out, results, h') /\
    (forall s, In s (nx.successors g node_id) ->
               PyDict.get streams' (stream_key node_id s) = Some out) /\
    (forall k, (forall s, In s (nx.successors g node_id) ->
                          k <> stream_key node_id s) ->
               PyDict.get streams' k = PyDict.get streams k).
Proof.
  intros H. apply process_node_inversion in H.
  destruct H as (tid & params & tech & ins & h0 & out & res
                 & Hnode & Hdb & Hin & Hcalc & -> & _).
  exists tid, params, tech, ins, h0, out, res.
  split; [exact Hnode|]. split; [exact Hdb|]. split; [exact Hin|].
  split; [exact Hcalc|]. split.
  - intros s Hs. now apply propagate_get_hit.
  - intros k Hk. now apply propagate_get_miss.
Qed.

Lemma fan_out_is_replication_witness :
  let g := assembled
             [ Node.mk "A" "bagasse" []; Node.mk "B" "cstr" [];
               Node.mk "C" "cstr" [] ]%string
             [ Edge.mk "A" "B"; Edge.mk "A" "C" ]%string in
  exists streams' results' h' out results,
    process_node Catalogue.TECH_DATABASE g ([], []) "A" []
    = Ok ((streams', results'), h') /\
    _calculate_node Catalogue.bagasse [] [] [] = Ok (out, results, h') /\
    PyDict.get streams' "A->B" = Some out /\
    PyDict.get streams' "A->C" = Some out.
Proof.
  cbv zeta.
  set (g := assembled
              [ Node.mk "A" "bagasse" []; Node.mk "B" "cstr" [];
                Node.mk "C" "cstr" [] ]%string
              [ Edge.mk "A" "B"; Edge.mk "A" "C" ]%string).
  destruct (process_node Catalogue.TECH_DATABASE g ([], []) "A" [])
    as [[[streams' results'] h']|e] eqn:Hnode;
    [|vm_compute in Hnode; discriminate Hnode].
  destruct (fan_out_is_replication _ _ _ _ _ _ _ _ _ Hnode)
    as (tid & params & tech & ins & h1 & out & res
        & Hget & Hdb & Hin & Hcalc & Hout & _).
  vm_compute in Hget. injection Hget as <- <-.
  vm_compute in Hdb. injection Hdb as <-.
  vm_compute in Hin. injection Hin as <- <-.
  exists streams', results', h', out, res.
  split; [reflexivity|]. split; [exact Hcalc|]. split.
  - apply (Hout "B"%string). vm_compute. auto.
  - apply (Hout "C"%string). vm_compute. auto.
Defined.

(** ** What [build_graph] builds *)

(** X7.  [build_graph] succeeds exactly on the edge lists without a directed
    cycle and raises the cycle ValueError exactly on those with one; an edge
    from a node to itself is such a cycle.  The check is a decision: one of
    the two always happens. *)
Theorem build_graph_decides_acyclicity
    (nodes : list Node.t) (edges : list Edge.t) :
  (acyclic edges <-> build_graph nodes edges = Ok (assembled nodes edges)) /\
  (has_cycle edges <->
   build_graph nodes edges = Raise (ValueError cycle_message)) /\
  (build_graph nodes edges = Ok (assembled nodes edges) \/
   build_graph nodes edges = Raise (ValueError cycle_message)) /\
  (forall a, connects edges a a ->
             build_graph nodes edges = Raise (ValueError cycle_message)).
Proof.
  destruct (build_graph_spec nodes edges)
    as [(Hbuild & Hacyc & _)|(Hbuild & x & Hx)].
  - split; [tauto|]. split.
    + split; [|rewrite Hbuild; discriminate].
      intros (x & Hx). exfalso. exact (Hacyc x Hx).
    + split; [auto|]. intros a Ha. exfalso.
      apply (Hacyc a). now apply path_edge.
  - split.
    + split; [|rewrite Hbuild; discriminate].
      intros Hacyc. exfalso. exact (Hacyc x Hx).
    + split; [|auto]. split; [auto|]. intros _. now exists x.
Qed.

(** X8.  The graph [build_graph] returns has the declared node ids and the
    ids the edges name as its nodes, each once, and the pairs of the edge
    list as its edges, each once however often the list repeats it. *)
Theorem build_graph_contents
    (nodes : list Node.t) (edges : list Edge.t) (g : nx.DiGraph) :
  build_graph nodes edges = Ok g ->
  (forall x, In x (nx.nodes g) <->
             In x (map Node.node_id nodes) \/
             exists e, In e edges /\
                       (Edge.source e = x \/ Edge.target e = x)) /\
  (forall u v, In (u, v) (nx._adj g) <-> connects edges u v) /\
  (forall u v, In v (nx.successors g u) <-> connects edges u v) /\
  (forall u v, In u (nx.predecessors g v) <-> connects edges u v) /\
  NoDup (nx.nodes g) /\ NoDup (nx._adj g).
Proof.
  intros Hg.
  destruct (build_graph_spec nodes edges) as [(Hbuild & _)|(Hbuild & _)];
    rewrite Hbuild in Hg; [|discriminate].
  injection Hg as <-.
  pose proof (assembled_wf nodes edges) as (wfN & wfE & _).
  split; [apply assembled_nodes|].
  split; [intros u v; apply (assembled_edge nodes edges)|].
  split; [intros u v; rewrite successors_In;
          apply (assembled_edge nodes edges)|].
  split; [intros u v; rewrite predecessors_In;
          apply (assembled_edge nodes edges)|].
  auto.
Qed.

Lemma build_graph_contents_witness :
  let nodes := [ Node.mk "a" "vinasse" []; Node.mk "b" "uasb" [] ]%string in
  let edges := [ Edge.mk "a" "b"; Edge.mk "a" "b" ]%string in
  exists g,
    build_graph nodes edges = Ok g /\
    NoDup (nx._adj g) /\
    (forall u v, In (u, v) (nx._adj g) <-> connects edges u v).
Proof.
  cbv zeta.
  assert (Hb : build_graph
                 [ Node.mk "a" "vinasse" []; Node.mk "b" "uasb" [] ]%string
                 [ Edge.mk "a" "b"; Edge.mk "a" "b" ]%string
               = Ok {| nx._node := [ ("a", Some ("vinasse", []));
                                     ("b", Some ("uasb", [])) ]%string;
                       nx._adj := [ ("a", "b") ]%string |})
    by (vm_compute; reflexivity).
  destruct (build_graph_contents _ _ _ Hb) as (_ & H2 & _ & _ & _ & H6).
  eexists. split; [exact Hb|]. split; [exact H6 | exact H2].
Defined.

Lemma get_app_old {V : Type} (d : dict V) (n k : string) (v : V) :
  In k (PyDict.keys d) -> PyDict.get (d ++ [(n, v)]) k = PyDict.get d k.
Proof.
  induction d as [|[k' v'] d IH]; simpl; [tauto|].
  intros Hin. destruct (String.eqb k' k) eqn:E; auto.
  apply IH. destruct Hin as [Hin|Hin]; auto.
  apply String.eqb_neq in E. congruence.
Qed.

Lemma get_ensure_node (g : nx.DiGraph) (n k : string) :
  In k (nx.nodes g) ->
  PyDict.get (nx._node (nx.ensure_node g n)) k = PyDict.get (nx._node g) k.
Proof.
  intros Hk. unfold nx.ensure_node. destruct (nx.has_node g n); auto.
  simpl. now apply get_app_old.
Qed.

Lemma get_add_edge (g : nx.DiGraph) (u v k : string) :
  In k (nx.nodes g) ->
  PyDict.get (nx._node (nx.add_edge g u v)) k = PyDict.get (nx._node g) k.
Proof.
  intros Hk. unfold nx.add_edge.
  destruct (nx.has_edge (nx.ensure_node (nx.ensure_node g u) v) u v); simpl.
  - rewrite get_ensure_node; [now apply get_ensure_node|].
    apply nodes_ensure_node. auto.
  - rewrite get_ensure_node; [now apply get_ensure_node|].
    apply nodes_ensure_node. auto.
Qed.

Lemma get_fold_add_edge (edges : list Edge.t) (k : string) :
  forall g, In k (nx.nodes g) ->
    PyDict.get
      (nx._node (fold_left (fun g edge =>
                              nx.add_edge g (Edge.source edge)
                                (Edge.target edge)) edges g)) k
    = PyDict.get (nx._node g) k.
Proof.
  induction edges as [|e edges IH]; simpl; auto.
  intros g Hk. rewrite IH.
  - now apply get_add_edge.
  - apply nodes_add_edge. auto.
Qed.

Lemma find_append {A : Type} (f : A -> bool) (l1 l2 : list A) :
  find f (l1 ++ l2)
  = match find f l1 with
    | Some x => Some x
    | None => find f l2
    end.
Proof.
  induction l1 as [|a l1 IH]; simpl; auto. now destruct (f a).
Qed.

Lemma get_fold_add_node (nodes : list Node.t) (k : string) :
  forall g,
    PyDict.get
      (nx._node (fold_left (fun g node =>
                              nx.add_node g (Node.node_id node)
                                (Node.tech_id node, Node.parameters node))
                           nodes g)) k
    = match find (fun n => String.eqb (Node.node_id n) k) (rev nodes) with
      | Some n => Some (Some (Node.tech_id n, Node.parameters n))
      | None => PyDict.get (nx._node g) k
      end.
Proof.
  induction nodes as [|n nodes IH]; intros g; simpl; auto.
  rewrite IH. rewrite find_append.
  destruct (find (fun n0 => String.eqb (Node.node_id n0) k) (rev nodes)); auto.
  simpl. unfold nx.add_node. simpl.
  destruct (String.eqb (Node.node_id n) k) eqn:E.
  - apply String.eqb_eq in E. subst. apply get_set_same.
  - apply String.eqb_neq in E. apply get_set_other. congruence.
Qed.

(** X9.  When the node list declares an id more than once, the graph keeps
    the technology and the parameters of the last declaration: these are
    the ones [calculate_route] works with.  (The id keeps the place of its
    first declaration in the order of the nodes.) *)
Theorem last_declaration_wins
    (nodes : list Node.t) (edges : list Edge.t) (k : string) (n : Node.t) :
  find (fun n => String.eqb (Node.node_id n) k) (rev nodes) = Some n ->
  PyDict.get (nx._node (assembled nodes edges)) k
  = Some (Some (Node.tech_id n, Node.parameters n)).
Proof.
  intros Hfind. unfold assembled.
  rewrite get_fold_add_edge.
  - rewrite get_fold_add_node, Hfind. reflexivity.
  - apply fold_add_node_nodes. right.
    apply find_some in Hfind. destruct Hfind as [Hin Heq].
    apply String.eqb_eq in Heq. subst k.
    apply in_map. now apply in_rev.
Qed.

Lemma last_declaration_wins_witness :
  PyDict.get
    (nx._node (assembled
                 [ Node.mk "a" "vinasse" []; Node.mk "b" "uasb" [];
                   Node.mk "a" "bagasse" [("quantity"%string, 50%float)] ]%string
                 [ Edge.mk "a" "b" ]%string)) "a"
  = Some (Some ("bagasse"%string, [("quantity"%string, 50%float)])).
Proof.
  apply (last_declaration_wins
           [ Node.mk "a" "vinasse" []; Node.mk "b" "uasb" [];
             Node.mk "a" "bagasse" [("quantity"%string, 50%float)] ]%string
           [ Edge.mk "a" "b" ]%string "a"
           (Node.mk "a" "bagasse" [("quantity"%string, 50%float)])).
  reflexivity.
Defined.

Lemma successful_route_is_annotated_witness :
  let nodes :=
    [ Node.mk "a" "vinasse" []; Node.mk "b" "uasb" [];
      Node.mk "c" "ice_cogen" [] ]%string in
  let edges := [ Edge.mk "a" "b"; Edge.mk "b" "c" ]%string in
  exists r results,
    calculate_route Catalogue.TECH_DATABASE nodes edges = Ok r /\
    PyDict.get (node_details r) "b" = Some results /\
    annotated results "uasb" Catalogue.uasb.
Proof.
  cbv zeta.
  destruct (calculate_route Catalogue.TECH_DATABASE
              [ Node.mk "a" "vinasse" []; Node.mk "b" "uasb" [];
                Node.mk "c" "ice_cogen" [] ]%string
              [ Edge.mk "a" "b"; Edge.mk "b" "c" ]%string)
    as [r|e] eqn:Hcalc; [|vm_compute in Hcalc; discriminate Hcalc].
  destruct (successful_route_is_annotated _ _ _ _ Hcalc "b"%string)
    as (tid & params & tech & results & H1 & H2 & H3 & H4).
  - vm_compute. auto.
  - vm_compute in H1. injection H1 as <- <-.
    vm_compute in H2. injection H2 as <-.
    exists r, results. auto.
Defined.

(** ** Routes without edges *)

Lemma nodes_fold_add_node_fresh (nodes : list Node.t) :
  NoDup (map Node.node_id nodes) ->
  forall g,
    (forall n, In n nodes -> ~ In (Node.node_id n) (nx.nodes g)) ->
    nx.nodes (fold_left (fun g node =>
                           nx.add_node g (Node.node_id node)
                             (Node.tech_id node, Node.parameters node))
                        nodes g)
    = nx.nodes g ++ map Node.node_id nodes.
Proof.
  induction nodes as [|n nodes IH]; simpl; intros ND g Hfresh.
  - now rewrite app_nil_r.
  - inversion ND as [|? ? Hn ND']; subst.
    rewrite IH; auto.
    + unfold nx.nodes at 1, nx.add_node. simpl.
      rewrite keys_set_new by (apply Hfresh; now left).
      unfold nx.nodes. now rewrite <- app_assoc.
    + intros m Hm. unfold nx.nodes, nx.add_node. simpl.
      rewrite keys_set_incl. intros [H|H].
      * apply (Hfresh m); auto.
      * apply Hn. rewrite <- H. now apply in_map.
Qed.

Lemma process_generation_edgeless (g : nx.DiGraph) (gen : list string) :
  nx._adj g = [] ->
  (forall n, In n gen -> In n (nx.nodes g)) ->
  forall st, nx.process_generation g gen st = Ok st.
Proof.
  intros Hadj. induction gen as [|n gen IH]; intros Hin st; simpl; auto.
  assert (Hn : nx.has_node g n = true).
  { unfold nx.has_node. apply mem_keys. apply Hin. now left. }
  rewrite Hn. unfold nx.successors. rewrite Hadj. simpl.
  apply IH. intros m Hm. apply Hin. now right.
Qed.

Lemma topological_sort_edgeless (g : nx.DiGraph) :
  nx._adj g = [] -> nx.topological_sort g = Ok (nx.nodes g).
Proof.
  intros Hadj. unfold nx.topological_sort, nx.in_degree, nx.predecessors.
  rewrite Hadj. simpl.
  assert (Hmap : filter (fun vd : string * nat => negb (Nat.eqb (snd vd) 0))
                        (map (fun v => (v, 0)) (nx.nodes g)) = []).
  { induction (nx.nodes g) as [|v l IH]; simpl; auto. }
  assert (Hzero : filter (fun _ : string => true) (nx.nodes g) = nx.nodes g).
  { induction (nx.nodes g) as [|v l IH]; simpl; auto. now rewrite IH. }
  rewrite Hmap, Hzero.
  destruct (nx.nodes g) as [|n l] eqn:Hn; [reflexivity|].
  cbn [nx.generations].
  rewrite process_generation_edgeless; auto.
  - simpl. now rewrite app_nil_r.
  - rewrite Hn. auto.
Qed.

Lemma process_nodes_edgeless (tech_db : dict Tech.t) (g : nx.DiGraph)
    (order : list string) :
  nx._adj g = [] ->
  forall st h st' h',
    process_nodes tech_db g order st h = Ok (st', h') -> fst st' = fst st.
Proof.
  intros Hadj. induction order as [|n order IH]; intros st h st' h' Hrun.
  - simpl in Hrun. unfold ret in Hrun. now injection Hrun as <- <-.
  - simpl in Hrun. unfold bind in Hrun. destruct st as [streams results].
    destruct (process_node tech_db g (streams, results) n h)
      as [[[streams1 results1] h1]|] eqn:Hnode; try discriminate.
    apply process_node_inversion in Hnode.
    destruct Hnode as (tid & params & tech & ins & h0 & out & res
                       & _ & _ & _ & _ & -> & _).
    apply IH in Hrun. rewrite Hrun. simpl.
    unfold nx.successors. rewrite Hadj. reflexivity.
Qed.

(** X10.  A route without edges is calculated node by node in the order of
    the node list (the first declaration of each id; the list itself when
    its ids are distinct): [build_graph] succeeds, the topological sort
    returns the nodes in that order, and a successful calculation records
    its results in that order and no stream at all. *)
Theorem edgeless_route_follows_node_list
    (tech_db : dict Tech.t) (nodes : list Node.t) :
  build_graph nodes [] = Ok (assembled nodes []) /\
  nx.topological_sort (assembled nodes [])
  = Ok (nx.nodes (assembled nodes [])) /\
  (NoDup (map Node.node_id nodes) ->
   nx.nodes (assembled nodes []) = map Node.node_id nodes) /\
  (forall r, calculate_route tech_db nodes [] = Ok r ->
             PyDict.keys (node_details r) = nx.nodes (assembled nodes []) /\
             streams_out r = []).
Proof.
  assert (Hadj : nx._adj (assembled nodes []) = []).
  { unfold assembled. simpl. now rewrite fold_add_node_adj. }
  pose proof (topological_sort_edgeless _ Hadj) as Hsort.
  assert (Hbuild : build_graph nodes [] = Ok (assembled nodes [])).
  { change (build_graph nodes [])
      with (rbind (nx.is_directed_acyclic_graph (assembled nodes []))
              (fun dag => if dag then Ok (assembled nodes [])
                          else Raise (ValueError cycle_message))).
    unfold nx.is_directed_acyclic_graph. rewrite Hsort. reflexivity. }
  split; [exact Hbuild|]. split; [exact Hsort|]. split.
  - intros ND. unfold assembled. simpl.
    rewrite nodes_fold_add_node_fresh; auto.
  - intros r Hr. unfold calculate_route in Hr. rewrite Hbuild in Hr.
    simpl in Hr. rewrite Hsort in Hr. simpl in Hr.
    unfold run_route, bind in Hr.
    destruct (process_nodes tech_db (assembled nodes [])
                (nx.nodes (assembled nodes [])) ([], []) [])
      as [[[streams results] h]|] eqn:Hrun; try discriminate.
    pose proof (process_nodes_edgeless _ _ _ Hadj _ _ _ _ Hrun) as Hstreams.
    simpl in Hstreams. subst streams.
    assert (Hfresh : forall m, In m (nx.nodes (assembled nodes [])) ->
                               ~ In m (PyDict.keys
                                         (snd (@nil (string * loc),
                                               @nil (string * dict value)))))
      by (intros m _ F; exact F).
    pose proof (process_nodes_ok _ _ _ _ _ _ _ Hrun
                  (proj1 (assembled_wf nodes [])) Hfresh) as (Hkeys & _).
    simpl in Hkeys.
    unfold _aggregate_results in Hr.
    destruct (sum_metrics results _); try discriminate.
    injection Hr as <-. simpl. auto.
Qed.

(** ** More on [validate_route] *)

(** X11.  On an edge list with a directed cycle [validate_route] does not
    raise: it catches the ValueError of [build_graph] and returns success
    and valid false with a single error entry, which carries the cycle
    message and names no edge. *)
Theorem validate_reports_cycle
    (tech_db : dict Tech.t) (nodes : list Node.t) (edges : list Edge.t) :
  has_cycle edges ->
  validate_route tech_db nodes edges
  = Ok {| rep_success := false; rep_valid := false;
          rep_errors :=
            [ {| err_edge := None; err_error := cycle_message;
                 err_details := None |} ];
          rep_message := None |}.
Proof.
  intros (x & Hx). unfold validate_route.
  destruct (build_graph_spec nodes edges)
    as [(_ & Hacyc & _)|(Hbuild & _)]; [exfalso; exact (Hacyc x Hx)|].
  rewrite Hbuild. reflexivity.
Qed.

Lemma validate_reports_cycle_witness :
  validate_route Catalogue.TECH_DATABASE
    [ Node.mk "A" "vinasse" []; Node.mk "B" "uasb" [] ]%string
    [ Edge.mk "A" "B"; Edge.mk "B" "A" ]%string
  = Ok {| rep_success := false; rep_valid := false;
          rep_errors :=
            [ {| err_edge := None; err_error := cycle_message;
                 err_details := None |} ];
          rep_message := None |}.
Proof.
  apply validate_reports_cycle.
  exists "A"%string. apply path_step with (w := "B"%string).
  - left. reflexivity.
  - apply path_edge. right. left. reflexivity.
Defined.

(** X12.  On an acyclic route whose edges all join declared nodes with
    technologies of the catalogue, [validate_route] answers valid as soon
    as no edge offends: it returns success and valid true, no error entry
    and the message "Route configuration is valid". *)
Theorem validate_accepts_compatible
    (tech_db : dict Tech.t) (nodes : list Node.t) (edges : list Edge.t) :
  acyclic edges ->
  (forall e, In e edges -> techs_of tech_db nodes e <> None) ->
  existsb (offending tech_db nodes) edges = false ->
  validate_route tech_db nodes edges
  = Ok {| rep_success := true; rep_valid := true; rep_errors := [];
          rep_message := Some "Route configuration is valid"%string |}.
Proof.
  intros Hacyc Hres Hoff. unfold validate_route.
  destruct (build_graph_spec nodes edges)
    as [(Hbuild & _)|(_ & x & Hx)]; [|exfalso; exact (Hacyc x Hx)].
  rewrite Hbuild, check_edges_collects by assumption. simpl.
  assert (Hnone : flat_map (errors_for tech_db nodes) edges = []).
  { apply length_zero_iff_nil. rewrite flat_map_errors_length.
    clear - Hoff. induction edges as [|e edges IH]; simpl in *; auto.
    apply orb_false_iff in Hoff. destruct Hoff as [He Hrest].
    rewrite He. auto. }
  rewrite Hnone. reflexivity.
Qed.

Lemma validate_accepts_compatible_witness :
  validate_route Catalogue.TECH_DATABASE
    [ Node.mk "a" "vinasse" []; Node.mk "b" "uasb" [];
      Node.mk "c" "ice_cogen" [] ]%string
    [ Edge.mk "a" "b"; Edge.mk "b" "c" ]%string
  = Ok {| rep_success := true; rep_valid := true; rep_errors := [];
          rep_message := Some "Route configuration is valid"%string |}.
Proof.
  apply validate_accepts_compatible.
  - apply (sorted_acyclic
             [ Node.mk "a" "vinasse" []; Node.mk "b" "uasb" [];
               Node.mk "c" "ice_cogen" [] ]%string
             _ [ "a"; "b"; "c" ]%string).
    vm_compute. reflexivity.
  - intros e [<-|[<-|[]]]; vm_compute; discriminate.
  - vm_compute. reflexivity.
Defined.

Lemma route_resolves_technologies
    (tech_db : dict Tech.t) (nodes : list Node.t) (edges : list Edge.t)
    (r : CalculationResult) :
  calculate_route tech_db nodes edges = Ok r ->
  forall n, In n (nx.nodes (assembled nodes edges)) ->
    exists tech_id params,
      PyDict.get (nx._node (assembled nodes edges)) n
      = Some (Some (tech_id, params)) /\
      PyDict.get tech_db tech_id <> None.
Proof.
  unfold calculate_route.
  destruct (build_graph_spec nodes edges)
    as [(Hbuild & _ & order & Hsort & Hnd & _ & Hall)|(Hbuild & _)];
    rewrite Hbuild; simpl; [|discriminate].
  rewrite Hsort. simpl. unfold run_route, bind.
  destruct (process_nodes tech_db (assembled nodes edges) order ([], []) [])
    as [[[streams results] h]|e] eqn:Hrun; [|discriminate].
  intros _ n Hn.
  assert (Hfresh : forall m, In m order ->
                             ~ In m (PyDict.keys
                                       (snd (@nil (string * loc),
                                             @nil (string * dict value)))))
    by (intros m _ F; exact F).
  pose proof (process_nodes_ok _ _ _ _ _ _ _ Hrun Hnd Hfresh) as (Hkeys & _).
  simpl in Hkeys.
  destruct (PyDict.get results n) as [res|] eqn:Hget.
  - assert (Hinit : forall m res',
               PyDict.get (snd (@nil (string * loc),
                                @nil (string * dict value))) m = Some res' ->
               exists tech_id params tech,
                 PyDict.get (nx._node (assembled nodes edges)) m
                 = Some (Some (tech_id, params)) /\
                 PyDict.get tech_db tech_id = Some tech /\
                 annotated res' tech_id tech)
      by (intros m res' F; discriminate F).
    destruct (process_nodes_annotated _ _ _ _ _ _ _ Hrun Hinit n res Hget)
      as (tid & params & tech & H1 & H2 & _).
    exists tid, params. split; [exact H1|]. rewrite H2. discriminate.
  - apply get_None_keys in Hget. rewrite Hkeys in Hget.
    exfalso. apply Hget. now apply Hall.
Qed.

(** X13.  Validation does not imply calculation.  [validate_route] looks
    at the nodes only through the edges, so a route without edges is
    reported valid whatever its nodes are; when the declaration in force
    for some node id names a technology that the catalogue lacks,
    [calculate_route] raises on the very route that was reported valid. *)
Theorem valid_route_may_not_calculate
    (tech_db : dict Tech.t) (nodes : list Node.t) (k : string) (n : Node.t) :
  find (fun n => String.eqb (Node.node_id n) k) (rev nodes) = Some n ->
  PyDict.get tech_db (Node.tech_id n) = None ->
  validate_route tech_db nodes []
  = Ok {| rep_success := true; rep_valid := true; rep_errors := [];
          rep_message := Some "Route configuration is valid"%string |} /\
  exists e, calculate_route tech_db nodes [] = Raise e.
Proof.
  intros Hfind Hdb. split.
  - unfold validate_route.
    assert (Hadj : nx._adj (assembled nodes []) = []).
    { unfold assembled. simpl. now rewrite fold_add_node_adj. }
    change (build_graph nodes [])
      with (rbind (nx.is_directed_acyclic_graph (assembled nodes []))
              (fun dag => if dag then Ok (assembled nodes [])
                          else Raise (ValueError cycle_message))).
    unfold nx.is_directed_acyclic_graph.
    rewrite (topological_sort_edgeless _ Hadj). reflexivity.
  - destruct (calculate_route tech_db nodes []) as [r|e] eqn:Hcalc;
      [exfalso|now exists e].
    assert (Hin : In k (nx.nodes (assembled nodes []))).
    { unfold assembled. simpl. apply fold_add_node_nodes. right.
      apply find_some in Hfind. destruct Hfind as [Hin Heq].
      apply String.eqb_eq in Heq. subst k.
      apply in_map. now apply in_rev. }
    destruct (route_resolves_technologies _ _ _ _ Hcalc k Hin)
      as (tid & params & Hget & Hknown).
    unfold assembled in Hget. simpl in Hget.
    rewrite get_fold_add_node, Hfind in Hget.
    injection Hget as <- <-. exact (Hknown Hdb).
Qed.

Lemma valid_route_may_not_calculate_witness :
  let nodes := [ Node.mk "a" "vinasse" []; Node.mk "b" "reactor_x" [] ]%string in
  validate_route Catalogue.TECH_DATABASE nodes []
  = Ok {| rep_success := true; rep_valid := true; rep_errors := [];
          rep_message := Some "Route configuration is valid"%string |} /\
  exists e, calculate_route Catalogue.TECH_DATABASE nodes [] = Raise e.
Proof.
  cbv zeta.
  apply (valid_route_may_not_calculate Catalogue.TECH_DATABASE
           [ Node.mk "a" "vinasse" []; Node.mk "b" "reactor_x" [] ]%string
           "b"%string (Node.mk "b" "reactor_x" [])); reflexivity.
Defined.

(** ** The frame of the rules *)

(** X14.  A rule that returns either leaves every object of the heap as it
    was and only adds new ones, or it is the pretreatment rule called with
    exactly one input: no other rule, and no other call of pretreatment,
    writes to an object that existed before. *)
Theorem only_single_input_pretreatment_overwrites
    (tech : Tech.t) (params : dict float) (inputs : list loc) (h : heap)
    (l : loc) (results : dict value) (h' : heap) :
  _calculate_node tech params inputs h = Ok (l, results, h') ->
  (exists ext, h' = h ++ ext) \/
  (Tech.category tech = "pretreatment"%string /\ exists a, inputs = [a]).
Proof.
  intros Hrun.
  destruct (String.eqb (Tech.category tech) "pretreatment") eqn:Hcat.
  - destruct inputs as [|a [|b rest]].
    + left. unfold _calculate_node in Hrun.
      apply String.eqb_eq in Hcat. rewrite Hcat in Hrun. simpl in Hrun.
      eapply pretreatment_fresh_keeps_heap; [|exact Hrun]. simpl. lia.
    + right. apply String.eqb_eq in Hcat. eauto.
    + left. unfold _calculate_node in Hrun.
      apply String.eqb_eq in Hcat. rewrite Hcat in Hrun. simpl in Hrun.
      eapply pretreatment_fresh_keeps_heap; [|exact Hrun]. simpl. lia.
  - left. eapply other_rules_keep_heap; eauto.
Qed.

Lemma only_single_input_pretreatment_overwrites_witness :
  let h := [ mkStream 10 10 0 0 0 4 35 1 ]%float in
  exists l results h',
    _calculate_node Catalogue.cstr [] [0] h = Ok (l, results, h') /\
    ((exists ext, h' = h ++ ext) \/
     (Tech.category Catalogue.cstr = "pretreatment"%string /\
      exists a, [0] = [a])).
Proof.
  cbv zeta.
  destruct (_calculate_node Catalogue.cstr [] [0]
              [ mkStream 10 10 0 0 0 4 35 1 ]%float)
    as [[[l results] h']|e] eqn:Hrun; [|vm_compute in Hrun; discriminate Hrun].
  exists l, results, h'. split; [reflexivity|].
  exact (only_single_input_pretreatment_overwrites _ _ _ _ _ _ _ Hrun).
Defined.

(** ** The HTTP layer *)

Lemma process_nodes_node_error (tech_db : dict Tech.t) (g : nx.DiGraph)
    (order : list string) :
  (forall n, In n order -> In n (nx.nodes g)) ->
  forall st h e,
    process_nodes tech_db g order st h = Raise e -> node_error e.
Proof.
  induction order as [|n order IH]; intros Hin st h e; simpl.
  - unfold ret. discriminate.
  - unfold bind. destruct st as [streams results].
    destruct (process_node tech_db g (streams, results) n h)
      as [[[streams1 results1] h1]|e'] eqn:Hnode.
    + apply IH. intros m Hm. apply Hin. now right.
    + intros H. injection H as <-.
      unfold process_node in Hnode.
      assert (Hn : In n (nx.nodes g)) by (apply Hin; now left).
      destruct (PyDict.get (nx._node g) n) as [[[tid params]|]|] eqn:Hget.
      * destruct (PyDict.get tech_db tid) as [tech|].
        -- unfold bind in Hnode.
           destruct (gather_inputs_ok streams n (nx.predecessors g n) h)
             as (ins & h0 & Eg).
           rewrite Eg in Hnode.
           destruct (_calculate_node tech params ins h0)
             as [[[out res] h2]|e''] eqn:Hc; [discriminate|].
           injection Hnode as <-. apply calculate_node_raises in Hc.
           subst. unfold node_error. tauto.
        -- injection Hnode as <-. unfold node_error. eauto.
      * injection Hnode as <-. unfold node_error. tauto.
      * apply get_None_keys in Hget. tauto.
Qed.

Lemma calculate_route_cases
    (tech_db : dict Tech.t) (nodes : list Node.t) (edges : list Edge.t) :
  match calculate_route tech_db nodes edges with
  | Ok r => success r = true /\ acyclic edges
  | Raise e =>
      (e = ValueError cycle_message /\ has_cycle edges) \/
      (acyclic edges /\ node_error e)
  end.
Proof.
  unfold calculate_route.
  destruct (build_graph_spec nodes edges)
    as [(Hbuild & Hacyc & order & Hsort & _ & _ & Hall)|(Hbuild & Hcyc)];
    rewrite Hbuild; simpl; [|now left].
  rewrite Hsort. simpl. unfold run_route, bind.
  pose proof (process_nodes_errors tech_db (assembled nodes edges) order
                (fun n Hn => proj1 (Hall n) Hn) ([], []) []
                (Forall_nil _)) as Hrun.
  pose proof (process_nodes_node_error tech_db (assembled nodes edges) order
                (fun n Hn => proj1 (Hall n) Hn) ([], []) []) as Herr.
  destruct (process_nodes tech_db (assembled nodes edges) order ([], []) [])
    as [[[streams results] h]|e]; [|right; split; auto].
  simpl in Hrun. unfold _aggregate_results.
  destruct (sum_metrics_numeric results Hrun
              {| total_biogas := 0; total_methane := 0; total_biomethane := 0;
                 total_electricity := 0; total_thermal := 0;
                 total_revenue := 0 |}) as (t & ->).
  simpl. auto.
Qed.

(** X15.  POST /api/calculate answers 400 with the cycle message exactly
    when the edges contain a directed cycle.  Otherwise, on a request whose
    node parameters are floats, it returns a result whose success is true,
    or answers 400 for a technology missing from the catalogue, or 500 for
    KeyError('tech_id') (a node that only an edge names) or for the
    digester's ZeroDivisionError; nothing else. *)
Theorem api_calculate_responses
    (tech_db : dict Tech.t) (nodes : list Node.t) (edges : list Edge.t) :
  (has_cycle edges <->
   api.calculate_route tech_db nodes edges
   = api.HTTPException 400
       (api.Text ("Calculation error: " ++ cycle_message)%string)) /\
  match api.calculate_route tech_db nodes edges with
  | api.Return r => success r = true
  | api.HTTPException status_code d =>
      (status_code = 400 /\
       (d = api.Text ("Calculation error: " ++ cycle_message)%string \/
        exists tech_id,
          d = api.Text ("Calculation error: Technology '" ++ tech_id
                        ++ "' not found in database")%string)) \/
      (status_code = 500 /\
       (d = api.TextOf "Internal server error: " (KeyError "tech_id") \/
        d = api.TextOf "Internal server error: " ZeroDivisionError))
  end.
Proof.
  unfold api.calculate_route.
  pose proof (calculate_route_cases tech_db nodes edges) as Hc.
  destruct (calculate_route tech_db nodes edges) as [r|e].
  - destruct Hc as [Hs Hacyc]. split; [|exact Hs].
    split; [intros (v & Hv); exfalso; exact (Hacyc v Hv)|discriminate].
  - destruct Hc as [[-> Hcyc]|[Hacyc [(tid & ->)|[->| ->]]]].
    + split; [tauto|]. left. auto.
    + split.
      * split; [intros (v & Hv); exfalso; exact (Hacyc v Hv)|].
        unfold unknown_tech, cycle_message. simpl. discriminate.
      * left. split; [reflexivity|]. right. exists tid. reflexivity.
    + split.
      * split; [intros (v & Hv); exfalso; exact (Hacyc v Hv)|discriminate].
      * right. auto.
    + split.
      * split; [intros (v & Hv); exfalso; exact (Hacyc v Hv)|discriminate].
      * right. auto.
Qed.

Lemma set_new {V : Type} (d : dict V) (k : string) (v : V) :
  PyDict.get d k = None -> PyDict.set d k v = d ++ [(k, v)].
Proof.
  induction d as [|[k' v'] d IH]; simpl; auto.
  destruct (String.eqb k' k); [discriminate|].
  intros H. now rewrite IH.
Qed.

Lemma get_In {V : Type} (d : dict V) (k : string) (v : V) :
  PyDict.get d k = Some v -> In (k, v) d.
Proof.
  induction d as [|[k' v'] d IH]; simpl; [discriminate|].
  destruct (String.eqb k' k) eqn:E.
  - apply String.eqb_eq in E. intros H. injection H as <-. subst. now left.
  - intros H. right. auto.
Qed.

Lemma In_get {V : Type} (d : dict V) (k : string) (v : V) :
  NoDup (PyDict.keys d) -> In (k, v) d -> PyDict.get d k = Some v.
Proof.
  induction d as [|[k' v'] d IH]; simpl; intros ND Hin; [destruct Hin|].
  inversion ND as [|? ? Hn ND']; subst.
  destruct Hin as [H|H].
  - injection H as -> ->. now rewrite String.eqb_refl.
  - destruct (String.eqb k' k) eqn:E.
    + apply String.eqb_eq in E. subst k'. exfalso. apply Hn.
      change k with (fst (k, v)). now apply in_map.
    + auto.
Qed.

Lemma length_del {V : Type} (d : dict V) (k : string) :
  PyDict.mem d k = true -> length d = S (length (PyDict.del d k)).
Proof.
  unfold PyDict.mem. induction d as [|[k' v'] d IH]; simpl; [discriminate|].
  destruct (String.eqb k' k); simpl; auto.
Qed.

Lemma find_split {A : Type} (f : A -> bool) (l : list A) (x : A) :
  find f l = Some x ->
  exists l1 l2, l = l1 ++ x :: l2 /\ f x = true /\
                forall y, In y l1 -> f y = false.
Proof.
  induction l as [|a l IH]; simpl; [discriminate|].
  destruct (f a) eqn:E.
  - intros H. injection H as <-. exists [], l. repeat split; auto.
    intros y [].
  - intros H. destruct (IH H) as (l1 & l2 & -> & Hx & Hl1).
    exists (a :: l1), l2. repeat split; auto.
    intros y [<-|Hy]; auto.
Qed.

Lemma store_ok_set (s : api.storage) (k : string) (scenario : api.Scenario.t) :
  api.Scenario.id scenario = k -> store_ok s ->
  store_ok (PyDict.set s k scenario).
Proof.
  intros Hid [ND Hids]. split; [now apply keys_set_NoDup|].
  intros k' sc. destruct (string_dec k' k) as [->|Hne].
  - rewrite get_set_same. intros H. now injection H as <-.
  - rewrite get_set_other by assumption. apply Hids.
Qed.

Lemma store_ok_del (s : api.storage) (k : string) :
  store_ok s -> store_ok (PyDict.del s k).
Proof.
  intros [ND Hids]. split; [now apply keys_del_NoDup|].
  intros k' sc. destruct (string_dec k' k) as [->|Hne].
  - rewrite get_del_same by assumption. discriminate.
  - rewrite get_del_other by assumption. apply Hids.
Qed.

(** X16.  A scenario that was just created can be read back under the id
    it was given, with the name, description, nodes and edges of the
    request; every other id reads as before; the storage invariant is
    kept; and when the id is new the scenario is listed last and the count
    grows by one. *)
Theorem created_scenario_round_trip
    (s : api.storage) (scenario : api.ScenarioCreate.t)
    (uuid_a uuid_b now_a now_b : string) :
  let s' := snd (api.create_scenario s scenario uuid_a uuid_b now_a now_b) in
  let stored :=
    {| api.Scenario.id := uuid_a;
       api.Scenario.name := api.ScenarioCreate.name scenario;
       api.Scenario.description := api.ScenarioCreate.description scenario;
       api.Scenario.nodes := api.ScenarioCreate.nodes scenario;
       api.Scenario.edges := api.ScenarioCreate.edges scenario;
       api.Scenario.share_token := substring 0 8 uuid_b;
       api.Scenario.created_at := now_a;
       api.Scenario.updated_at := now_b |} in
  api.get_scenario s' uuid_a = api.Return (true, stored) /\
  (forall k, k <> uuid_a -> api.get_scenario s' k = api.get_scenario s k) /\
  (store_ok s -> store_ok s') /\
  (PyDict.get s uuid_a = None ->
   api.list_scenarios s'
   = api.Return (true, S (length s), map snd s ++ [stored])).
Proof.
  cbv zeta. unfold api.create_scenario. cbn [snd].
  split; [|split; [|split]].
  - unfold api.get_scenario. now rewrite get_set_same.
  - intros k Hk. unfold api.get_scenario. now rewrite get_set_other.
  - apply store_ok_set. reflexivity.
  - intros Hnew. unfold api.list_scenarios.
    rewrite (set_new _ _ _ Hnew), length_app, map_app. simpl.
    now rewrite Nat.add_1_r.
Qed.

(** X17.  A share token resolves to the earliest stored scenario that
    carries it: GET /api/scenarios/shared returns a scenario of the storage
    with that token before which no scenario has it, and answers 404 exactly
    when no stored scenario has it. *)
Theorem share_token_resolves_to_earliest
    (s : api.storage) (share_token : string) :
  match api.get_shared_scenario s share_token with
  | api.Return (ok, scenario) =>
      ok = true /\
      exists older k newer,
        s = older ++ (k, scenario) :: newer /\
        api.Scenario.share_token scenario = share_token /\
        forall kv, In kv older ->
                   api.Scenario.share_token (snd kv) <> share_token
  | api.HTTPException status_code d =>
      status_code = 404 /\ d = api.Text "Shared scenario not found" /\
      forall kv, In kv s -> api.Scenario.share_token (snd kv) <> share_token
  end.
Proof.
  unfold api.get_shared_scenario.
  destruct (find _ s) as [[k scenario]|] eqn:Hfind.
  - split; [reflexivity|].
    destruct (find_split _ _ _ Hfind) as (l1 & l2 & -> & Hx & Hl1).
    exists l1, k, l2. split; [reflexivity|]. split.
    + now apply String.eqb_eq in Hx.
    + intros kv Hkv Heq. specialize (Hl1 kv Hkv). simpl in Hl1.
      apply String.eqb_neq in Hl1. auto.
  - split; [reflexivity|]. split; [reflexivity|].
    intros kv Hkv Heq.
    pose proof (find_none _ _ Hfind kv Hkv) as Hf. simpl in Hf.
    apply String.eqb_neq in Hf. auto.
Qed.

(** X18.  Share tokens are not checked for uniqueness.  When a scenario is
    created under a new id and its token (the first eight hexadecimal digits
    of the second uuid) is already carried by a stored scenario, the new
    share link opens an older scenario, not the one just created. *)
Theorem share_link_may_open_older_scenario
    (s : api.storage) (scenario : api.ScenarioCreate.t)
    (uuid_a uuid_b now_a now_b : string) (k : string) (old : api.Scenario.t) :
  store_ok s ->
  PyDict.get s uuid_a = None ->
  PyDict.get s k = Some old ->
  api.Scenario.share_token old = substring 0 8 uuid_b ->
  exists found,
    api.get_shared_scenario
      (snd (api.create_scenario s scenario uuid_a uuid_b now_a now_b))
      (substring 0 8 uuid_b)
    = api.Return (true, found) /\
    api.Scenario.id found <> uuid_a /\
    PyDict.get s (api.Scenario.id found) = Some found.
Proof.
  intros [ND Hids] Hnew Hold Htok.
  unfold api.create_scenario. cbn [snd].
  rewrite (set_new _ _ _ Hnew). unfold api.get_shared_scenario.
  destruct (find (fun kv => String.eqb (api.Scenario.share_token (snd kv))
                              (substring 0 8 uuid_b)) s)
    as [[k' found]|] eqn:Hfind.
  - rewrite find_append, Hfind.
    exists found. split; [reflexivity|].
    apply find_some in Hfind. destruct Hfind as [Hin _].
    apply In_get in Hin; [|exact ND].
    rewrite (Hids _ _ Hin). split; [|exact Hin].
    intros ->. rewrite Hnew in Hin. discriminate.
  - exfalso. apply get_In in Hold.
    pose proof (find_none _ _ Hfind _ Hold) as Hf. simpl in Hf.
    rewrite Htok, String.eqb_refl in Hf. discriminate.
Qed.

Lemma share_link_may_open_older_scenario_witness :
  let old :=
    api.Scenario.mk "id-1" "first" None [] [] "0123abcd" "t0" "t0" in
  let s : api.storage := [ ("id-1"%string, old) ] in
  exists found,
    api.get_shared_scenario
      (snd (api.create_scenario s (api.ScenarioCreate.mk "second" None [] [])
              "id-2" "0123abcd99990000aaaabbbbccccdddd" "t1" "t2"))
      (substring 0 8 "0123abcd99990000aaaabbbbccccdddd")
    = api.Return (true, found) /\
    api.Scenario.id found <> "id-2"%string /\
    PyDict.get s (api.Scenario.id found) = Some found.
Proof.
  cbv zeta.
  apply (share_link_may_open_older_scenario
           [ ("id-1"%string,
              api.Scenario.mk "id-1" "first" None [] [] "0123abcd" "t0" "t0") ]
           (api.ScenarioCreate.mk "second" None [] [])
           "id-2" "0123abcd99990000aaaabbbbccccdddd" "t1" "t2" "id-1"
           (api.Scenario.mk "id-1" "first" None [] [] "0123abcd" "t0" "t0")).
  - split.
    + simpl. constructor; [intros []|constructor].
    + intros k sc H. apply get_In in H. destruct H as [H|[]].
      injection H as <- <-. reflexivity.
  - reflexivity.
  - reflexivity.
  - reflexivity.
Defined.

(** X19.  Deleting a stored scenario removes exactly that one: its id then
    reads 404, every other id reads as before, the count drops by one, the
    storage invariant is kept, and deleting it again answers 404 and leaves
    the storage alone. *)
Theorem deleted_scenario_is_gone (s : api.storage) (k : string) :
  NoDup (PyDict.keys s) ->
  PyDict.mem s k = true ->
  let s' := snd (api.delete_scenario s k) in
  fst (api.delete_scenario s k)
  = api.Return (true, "Scenario deleted successfully"%string) /\
  api.get_scenario s' k = api.scenario_not_found k /\
  (forall k', k' <> k -> api.get_scenario s' k' = api.get_scenario s k') /\
  length s = S (length s') /\
  (store_ok s -> store_ok s') /\
  api.delete_scenario s' k = (api.scenario_not_found k, s').
Proof.
  intros ND Hmem. cbv zeta.
  assert (Hdel : api.delete_scenario s k
                 = (api.Return (true, "Scenario deleted successfully"%string),
                    PyDict.del s k))
    by (unfold api.delete_scenario; now rewrite Hmem).
  rewrite Hdel. cbn [fst snd].
  pose proof (get_del_same s k ND) as Hgone.
  split; [reflexivity|]. split; [|split; [|split; [|split]]].
  - unfold api.get_scenario. now rewrite Hgone.
  - intros k' Hk'. unfold api.get_scenario. now rewrite get_del_other.
  - now apply length_del.
  - apply store_ok_del.
  - unfold api.delete_scenario, PyDict.mem. now rewrite Hgone.
Qed.

Lemma deleted_scenario_is_gone_witness :
  let a := api.Scenario.mk "id-1" "first" None [] [] "0123abcd" "t0" "t0" in
  let b := api.Scenario.mk "id-2" "second" None [] [] "89abcdef" "t1" "t1" in
  let s : api.storage := [ ("id-1"%string, a); ("id-2"%string, b) ] in
  snd (api.delete_scenario s "id-1") = [ ("id-2"%string, b) ] /\
  api.get_scenario (snd (api.delete_scenario s "id-1")) "id-1"
  = api.scenario_not_found "id-1".
Proof.
  cbv zeta. split; [reflexivity|].
  refine (proj1 (proj2 (deleted_scenario_is_gone
            [ ("id-1"%string,
               api.Scenario.mk "id-1" "first" None [] [] "0123abcd" "t0" "t0");
              ("id-2"%string,
               api.Scenario.mk "id-2" "second" None [] [] "89abcdef" "t1" "t1") ]
            "id-1" _ _))).
  - simpl. constructor; [simpl; intros [H|[]]; discriminate H|].
    constructor; [intros []|constructor].
  - reflexivity.
Defined.

Lemma compared_id_compare_one (tech_db : dict Tech.t) (scenario_id : string)
    (scenario : api.Scenario.t) :
  api.compared_id (api.compare_one tech_db scenario_id scenario) = scenario_id.
Proof.
  unfold api.compare_one.
  now destruct (calculate_route tech_db _ _).
Qed.

Lemma compare_loop_spec (tech_db : dict Tech.t) (s : api.storage)
    (ids : list string) :
  forall acc,
    match api.compare_loop tech_db s ids acc with
    | api.Return results =>
        exists new,
          results = acc ++ new /\
          Forall2 (fun id c => exists scenario,
                     PyDict.get s id = Some scenario /\
                     c = api.compare_one tech_db id scenario) ids new
    | api.HTTPException status_code d =>
        exists known k rest,
          ids = known ++ k :: rest /\
          (forall x, In x known -> PyDict.mem s x = true) /\
          PyDict.get s k = None /\
          api.HTTPException status_code d
          = api.scenario_not_found (A := list api.comparison) k
    end.
Proof.
  induction ids as [|id ids IH]; intros acc; simpl.
  - exists []. split; [now rewrite app_nil_r|constructor].
  - destruct (PyDict.get s id) as [scenario|] eqn:Hget.
    + specialize (IH (acc ++ [api.compare_one tech_db id scenario])).
      destruct (api.compare_loop tech_db s ids
                  (acc ++ [api.compare_one tech_db id scenario]))
        as [results|code d].
      * destruct IH as (new & -> & Hall).
        exists (api.compare_one tech_db id scenario :: new).
        split; [now rewrite <- app_assoc|].
        constructor; eauto.
      * destruct IH as (known & k & rest & -> & Hknown & Hk & Heq).
        exists (id :: known), k, rest. repeat split; auto.
        intros x [<-|Hx]; auto. unfold PyDict.mem. now rewrite Hget.
    + exists [], id, ids. repeat split; auto; intros x [].
Qed.

(** X20.  POST /api/compare answers in one of three ways.  With fewer than
    two ids it answers 400.  Otherwise it answers 404 for the first id
    that is not stored, whatever follows it; or, when every id is stored,
    it returns one entry per id, in the order of the request and under the
    request's ids, each being what [compare_one] makes of that scenario.
    A calculation that fails never fails the comparison. *)
Theorem compare_scenarios_responses
    (tech_db : dict Tech.t) (s : api.storage) (ids : list string) :
  match api.compare_scenarios tech_db s ids with
  | api.Return (ok, scenarios_compared, results) =>
      ok = true /\ 2 <= length ids /\ scenarios_compared = length ids /\
      map api.compared_id results = ids /\
      Forall2 (fun id c => exists scenario,
                 PyDict.get s id = Some scenario /\
                 c = api.compare_one tech_db id scenario) ids results
  | api.HTTPException status_code d =>
      (status_code = 400 /\ length ids < 2 /\
       d = api.Text "At least 2 scenarios required for comparison") \/
      (status_code = 404 /\ 2 <= length ids /\
       exists known k rest,
         ids = known ++ k :: rest /\
         (forall x, In x known -> PyDict.mem s x = true) /\
         PyDict.get s k = None /\
         d = api.Text ("Scenario '" ++ k ++ "' not found")%string)
  end.
Proof.
  unfold api.compare_scenarios.
  destruct (Nat.ltb (length ids) 2) eqn:Hlen.
  - apply Nat.ltb_lt in Hlen. left. auto.
  - apply Nat.ltb_ge in Hlen.
    pose proof (compare_loop_spec tech_db s ids []) as Hloop.
    destruct (api.compare_loop tech_db s ids []) as [results|code d].
    + destruct Hloop as (new & -> & Hall). simpl.
      split; [reflexivity|]. split; [exact Hlen|]. split; [reflexivity|].
      split; [|exact Hall].
      clear Hlen. induction Hall as [|id c ids new (sc & _ & ->) _ IH]; simpl.
      * reflexivity.
      * now rewrite compared_id_compare_one, IH.
    + destruct Hloop as (known & k & rest & -> & Hknown & Hk & Heq).
      right. unfold api.scenario_not_found in Heq.
      injection Heq as -> ->.
      split; [reflexivity|]. split; [exact Hlen|].
      exists known, k, rest. auto.
Qed.

(** X21.  An entry of a comparison carries the request's id and the stored
    name.  It holds the summary of a successful calculation, which happens
    only on an acyclic route; or the exception of a failed one, which is
    the cycle ValueError exactly when the route has a cycle and otherwise,
    for a scenario stored with float parameters, the error of a node
    (missing technology, KeyError('tech_id'), ZeroDivisionError). *)
Theorem comparison_entry_cases
    (tech_db : dict Tech.t) (scenario_id : string) (scenario : api.Scenario.t) :
  match api.compare_one tech_db scenario_id scenario with
  | api.Compared i n _ =>
      i = scenario_id /\ n = api.Scenario.name scenario /\
      acyclic (api.Scenario.edges scenario)
  | api.Failed i n e =>
      i = scenario_id /\ n = api.Scenario.name scenario /\
      ((e = ValueError cycle_message /\
        has_cycle (api.Scenario.edges scenario)) \/
       (acyclic (api.Scenario.edges scenario) /\ node_error e))
  end.
Proof.
  unfold api.compare_one.
  pose proof (calculate_route_cases tech_db (api.Scenario.nodes scenario)
                (api.Scenario.edges scenario)) as Hc.
  destruct (calculate_route tech_db _ _) as [r|e].
  - destruct Hc as [_ Hacyc]. auto.
  - auto.
Qed.

(** X22.  Every technology that GET /api/technologies/{category} lists has
    the requested category and is the one that
    GET /api/technologies/detail returns under its key; the list is never
    empty; and the answer is 404 exactly when no technology of the catalogue
    has the category. *)
Theorem listed_technology_has_detail
    (tech_db : dict Tech.t) (category : string) :
  NoDup (PyDict.keys tech_db) ->
  match api.get_technologies_by_category tech_db category with
  | api.Return (ok, c, count, technologies) =>
      ok = true /\ c = category /\ count = length technologies /\
      1 <= count /\
      (forall k tech, In (k, tech) technologies <->
                      (PyDict.get tech_db k = Some tech /\
                       Tech.category tech = category)) /\
      (forall k tech, In (k, tech) technologies ->
                      api.get_technology_detail tech_db k
                      = api.Return (true, tech))
  | api.HTTPException status_code _ =>
      status_code = 404 /\
      forall k tech, PyDict.get tech_db k = Some tech ->
                     Tech.category tech <> category
  end.
Proof.
  intros ND. unfold api.get_technologies_by_category.
  destruct (filter _ tech_db) as [|kv filtered] eqn:Hf; simpl.
  - split; [reflexivity|]. intros k tech Hget Hcat.
    apply get_In in Hget.
    assert (Hin : In (k, tech)
                     (filter (fun kv => String.eqb (Tech.category (snd kv))
                                          category) tech_db)).
    { apply filter_In. split; [exact Hget|]. simpl. now apply String.eqb_eq. }
    rewrite Hf in Hin. destruct Hin.
  - split; [reflexivity|]. split; [reflexivity|]. split; [reflexivity|].
    split; [lia|].
    assert (Hiff : forall k tech,
               In (k, tech) (kv :: filtered) <->
               (PyDict.get tech_db k = Some tech /\
                Tech.category tech = category)).
    { intros k tech. rewrite <- Hf, filter_In. simpl.
      rewrite String.eqb_eq. split.
      - intros [Hin Hcat]. split; [now apply In_get|exact Hcat].
      - intros [Hget Hcat]. split; [now apply get_In|exact Hcat]. }
    split; [exact Hiff|].
    intros k tech Hin. apply Hiff in Hin. destruct Hin as [Hget _].
    unfold api.get_technology_detail. now rewrite Hget.
Qed.

Lemma listed_technology_has_detail_witness :
  match api.get_technologies_by_category Catalogue.TECH_DATABASE "digester" with
  | api.Return (_, _, count, technologies) =>
      count = 2 /\
      api.get_technology_detail Catalogue.TECH_DATABASE "uasb"
      = api.Return (true, Catalogue.uasb)
  | api.HTTPException _ _ => False
  end.
Proof.
  assert (ND : NoDup (PyDict.keys Catalogue.TECH_DATABASE)).
  { repeat (constructor; [vm_compute; intuition discriminate|]). constructor. }
  pose proof (listed_technology_has_detail Catalogue.TECH_DATABASE
                "digester" ND) as H.
  destruct (api.get_technologies_by_category Catalogue.TECH_DATABASE "digester")
    as [[[[ok c] count] technologies]|code d] eqn:E.
  - vm_compute in E. injection E as _ _ <- <-.
    destruct H as (_ & _ & _ & _ & _ & Hdetail).
    split; [reflexivity|]. apply Hdetail. vm_compute. auto.
  - vm_compute in E. discriminate E.
Defined.

(** ** Rules that do not look at their inputs *)

(** X23.  A feedstock node is a source: the stream it emits and the metrics
    it reports are fixed by its technology and parameters alone.  Whatever
    is connected into it, and whatever the heap holds, the rule returns the
    same record as a new object and leaves the rest of the heap alone. *)
Theorem feedstock_ignores_inputs (tech : Tech.t) (params : dict float) :
  Tech.category tech = "feedstock"%string ->
  exists s results,
    forall inputs h,
      _calculate_node tech params inputs h = Ok (length h, results, h ++ [s]).
Proof.
  intros Hcat. unfold _calculate_node. rewrite Hcat. simpl.
  unfold _calc_feedstock.
  destruct (in_list (Tech.id tech) _).
  - eexists. eexists. intros inputs h.
    unfold bind, alloc, deref, ret. rewrite nth_alloc. reflexivity.
  - eexists. eexists. intros inputs h.
    unfold bind, alloc, ret. reflexivity.
Qed.

Lemma feedstock_ignores_inputs_witness :
  exists s results,
    forall inputs h,
      _calculate_node Catalogue.vinasse [("quantity"%string, 1000%float)]
        inputs h
      = Ok (length h, results, h ++ [s]).
Proof.
  apply feedstock_ignores_inputs. reflexivity.
Defined.

(** X24.  A byproduct node sums its inputs and then does not use the sum:
    its metrics are the technology's name and its "value" default (0 when
    absent), the same for every input, and the stream it emits is a new
    default stream. *)
Theorem byproduct_ignores_inputs (tech : Tech.t) (params : dict float) :
  Tech.category tech = "byproduct"%string ->
  forall inputs h,
    exists l h',
      _calculate_node tech params inputs h
      = Ok (l,
            [ ("tech_name"%string, VStr (Tech.name tech));
              ("value_per_unit"%string,
               VNum (PyDict.get_default (Tech.defaults tech) "value" 0%float)) ],
            h') /\
      length h <= l /\
      nth l h' StreamProperties_default = StreamProperties_default.
Proof.
  intros Hcat inputs h. unfold _calculate_node. rewrite Hcat. simpl.
  unfold _calc_byproduct, bind.
  destruct (sum_inputs_extends inputs h) as (c & ext & E).
  rewrite E. unfold alloc, ret.
  do 2 eexists. split; [reflexivity|]. split.
  - rewrite length_app. lia.
  - apply nth_alloc.
Qed.

Lemma byproduct_ignores_inputs_witness :
  let digestate_liquid :=
    Tech.mk "digestate_liquid" "byproduct" "Digestato Líquido"
      ["digestate"%string] ["biofertilizer"%string] []
      [ ("n_content"%string, 2.5%float); ("p_content"%string, 0.8%float);
        ("k_content"%string, 3.0%float); ("value"%string, 0.15%float) ] in
  let h := [ mkStream 0 500 0 0 40 28 35 1 ]%float in
  exists l h',
    _calculate_node digestate_liquid [] [0] h
    = Ok (l,
          [ ("tech_name"%string, VStr "Digestato Líquido");
            ("value_per_unit"%string, VNum 0.15%float) ],
          h') /\
    length h <= l /\
    nth l h' StreamProperties_default = StreamProperties_default.
Proof.
  cbv zeta.
  apply (byproduct_ignores_inputs
           (Tech.mk "digestate_liquid" "byproduct" "Digestato Líquido"
              ["digestate"%string] ["biofertilizer"%string] []
              [ ("n_content"%string, 2.5%float); ("p_content"%string, 0.8%float);
                ("k_content"%string, 3.0%float); ("value"%string, 0.15%float) ])
           []).
  reflexivity.
Defined.

(** * The loop over the nodes, turn by turn *)

Lemma process_nodes_app (tech_db : dict Tech.t) (g : nx.DiGraph)
    (l1 : list string) :
  forall l2 st h,
    process_nodes tech_db g (l1 ++ l2) st h
    = match process_nodes tech_db g l1 st h with
      | Ok (st', h') => process_nodes tech_db g l2 st' h'
      | Raise e => Raise e
      end.
Proof.
  induction l1 as [|n l1 IH]; intros l2 st h; [reflexivity|].
  cbn [app process_nodes]. unfold bind.
  destruct (process_node tech_db g st n h) as [[st' h']|e]; auto.
Qed.

(* a run that raises stopped at the turn of one node, after the turns of
   the nodes before it *)
Lemma process_nodes_raise_split (tech_db : dict Tech.t) (g : nx.DiGraph)
    (order : list string) :
  forall st h e,
    process_nodes tech_db g order st h = Raise e ->
    exists done n rest st' h',
      order = done ++ n :: rest /\
      process_nodes tech_db g done st h = Ok (st', h') /\
      process_node tech_db g st' n h' = Raise e.
Proof.
  induction order as [|n order IH]; intros st h e Hrun.
  - discriminate Hrun.
  - cbn [process_nodes] in Hrun. unfold bind in Hrun.
    destruct (process_node tech_db g st n h) as [[st1 h1]|e1] eqn:Hnode.
    + destruct (IH _ _ _ Hrun) as (done & m & rest & st' & h' & -> & Hd & Hm).
      exists (n :: done), m, rest, st', h'. split; [reflexivity|]. split; auto.
      cbn [process_nodes]. unfold bind. now rewrite Hnode.
    + injection Hrun as ->.
      exists [], n, order, st, h. auto.
Qed.

(* when every inbound key is bound, the inputs are the bound objects, one
   per predecessor and in their order; the defaults built for [get] are
   left behind on the heap *)
Lemma gather_inputs_bound (streams : dict loc) (node_id : string)
    (preds : list string) :
  (forall p, In p preds ->
             PyDict.get streams (stream_key p node_id) <> None) ->
  forall h, exists ins,
    gather_inputs streams node_id preds h
    = Ok (ins, h ++ repeat StreamProperties_default (length preds)) /\
    Forall2 (fun p l => PyDict.get streams (stream_key p node_id) = Some l)
            preds ins.
Proof.
  induction preds as [|p preds IH]; intros Hb h.
  - exists []. simpl. rewrite app_nil_r. split; [reflexivity|constructor].
  - cbn [gather_inputs]. unfold bind, alloc.
    destruct (IH (fun q Hq => Hb q (or_intror Hq))
                 (h ++ [StreamProperties_default])) as (ins & E & F).
    rewrite E. unfold ret.
    destruct (PyDict.get streams (stream_key p node_id)) as [l|] eqn:G;
      [|exfalso; apply (Hb p); [now left|exact G]].
    exists (l :: ins). split.
    + unfold PyDict.get_default. rewrite G. cbn [length repeat].
      now rewrite <- app_assoc.
    + constructor; auto.
Qed.

Lemma Forall2_impl_In {A B : Type} (P Q : A -> B -> Prop) (l : list A)
    (l' : list B) :
  (forall a b, In a l -> P a b -> Q a b) ->
  Forall2 P l l' -> Forall2 Q l l'.
Proof.
  intros H F. induction F as [|a b l l' Hab F IH]; constructor.
  - apply H; [now left|exact Hab].
  - apply IH. intros a' b' Ha'. apply H. now right.
Qed.

Lemma rule_output_later (tech_db : dict Tech.t) (g : nx.DiGraph)
    (done : list string) (q p : string) (out : loc) :
  rule_output tech_db g done p out ->
  rule_output tech_db g (done ++ [q]) p out.
Proof.
  intros (b1 & b2 & st & h & tid & params & tech & ins & h1 & res & h2
          & -> & H).
  exists b1, (b2 ++ [q]), st, h, tid, params, tech, ins, h1, res, h2.
  split; [|exact H]. now rewrite <- app_assoc.
Qed.

(* while stream keys are distinct, the object filed under the key of an
   edge out of a processed node is the one the rule of that node returned *)
Lemma streams_written (tech_db : dict Tech.t) (g : nx.DiGraph) :
  distinct_keys g ->
  forall done st h,
    process_nodes tech_db g done ([], []) [] = Ok (st, h) ->
    forall p s l,
      In p done -> In s (nx.successors g p) ->
      PyDict.get (fst st) (stream_key p s) = Some l ->
      rule_output tech_db g done p l.
Proof.
  intros Hkeys done. induction done as [|q d IH] using rev_ind;
    intros st h Hrun p s l Hp Hs Hget; [destruct Hp|].
  rewrite process_nodes_app in Hrun.
  destruct (process_nodes tech_db g d ([], []) []) as [[st0 h0]|e0] eqn:Hd;
    [|discriminate].
  cbn [process_nodes] in Hrun. unfold bind, ret in Hrun.
  destruct st0 as [streams0 results0].
  destruct (process_node tech_db g (streams0, results0) q h0)
    as [[[streams1 results1] h1]|e1] eqn:Hq; [|discriminate].
  injection Hrun as <- <-. cbn [fst] in Hget.
  pose proof Hq as Hinv. apply process_node_inversion in Hinv.
  destruct Hinv as (tid & params & tech & ins & hg & out & res
                    & Hnode & Hdb & Hin & Hcalc & Hstreams & _).
  subst streams1.
  destruct (string_dec p q) as [->|Hne].
  - rewrite propagate_get_hit in Hget by assumption.
    injection Hget as <-.
    exists d, [], (streams0, results0), h0, tid, params, tech, ins, hg, res, h1.
    split; [reflexivity|]. split; [exact Hd|]. split; [exact Hnode|].
    split; [exact Hdb|]. split; [exact Hin|exact Hcalc].
  - apply rule_output_later.
    rewrite propagate_get_miss in Hget.
    + apply (IH (streams0, results0) h0 eq_refl p s l); auto.
      apply in_app_iff in Hp. destruct Hp as [Hp|[Hp|[]]]; [exact Hp|].
      congruence.
    + intros s' Hs' K. apply Hne.
      apply (Hkeys p s q s'); [now apply successors_In
                              |now apply successors_In|exact K].
Qed.

(** ** When every node can be calculated *)

Lemma calculate_node_returns (tech : Tech.t) (params : dict float)
    (inputs : list loc) (h : heap) :
  (Tech.category tech = "digester"%string ->
   (PyDict.get_default (Tech.defaults tech) "ch4_content" 0.60 =? 0)%float
   = false) ->
  exists out results h',
    _calculate_node tech params inputs h = Ok (out, results, h').
Proof.
  intros Hsafe. unfold _calculate_node.
  destruct (sum_inputs_extends inputs h) as (l & ext & E).
  destruct (String.eqb (Tech.category tech) "feedstock").
  { unfold _calc_feedstock.
    destruct (in_list _ _); unfold bind, alloc, deref, ret; eauto. }
  destruct (String.eqb (Tech.category tech) "pretreatment").
  { unfold _calc_pretreatment, bind. rewrite E.
    unfold deref, assign, ret. eauto. }
  destruct (String.eqb (Tech.category tech) "digester") eqn:Hd.
  { apply String.eqb_eq in Hd. specialize (Hsafe Hd).
    unfold _calc_digester, bind. rewrite E. unfold deref.
    destruct (0 <? _)%float.
    - unfold py_div. rewrite Hsafe. unfold ret, alloc. eauto.
    - unfold ret, alloc. eauto. }
  destruct (String.eqb (Tech.category tech) "upgrading").
  { unfold _calc_upgrading, bind. rewrite E.
    unfold deref, alloc, ret. eauto. }
  destruct (String.eqb (Tech.category tech) "enduse").
  { unfold _calc_enduse, bind. rewrite E.
    unfold deref, alloc, ret. eauto. }
  destruct (String.eqb (Tech.category tech) "byproduct").
  { unfold _calc_byproduct, bind. rewrite E.
    unfold alloc, ret. eauto. }
  unfold bind. rewrite E. unfold ret. eauto.
Qed.

Lemma process_nodes_returns (tech_db : dict Tech.t) (g : nx.DiGraph)
    (order : list string) :
  (forall n, In n order ->
     exists tech_id params tech,
       PyDict.get (nx._node g) n = Some (Some (tech_id, params)) /\
       PyDict.get tech_db tech_id = Some tech /\
       (Tech.category tech = "digester"%string ->
        (PyDict.get_default (Tech.defaults tech) "ch4_content" 0.60 =? 0)%float
        = false)) ->
  forall st h, exists st' h',
    process_nodes tech_db g order st h = Ok (st', h').
Proof.
  induction order as [|n order IH]; intros Hall st h.
  - exists st, h. reflexivity.
  - cbn [process_nodes]. unfold bind.
    destruct (Hall n (or_introl eq_refl))
      as (tid & params & tech & Hnode & Hdb & Hsafe).
    assert (Hn : exists st1 h1, process_node tech_db g st n h = Ok (st1, h1)).
    { unfold process_node. destruct st as [streams results].
      rewrite Hnode, Hdb. unfold bind.
      destruct (gather_inputs_ok streams n (nx.predecessors g n) h)
        as (ins & h0 & Eg).
      rewrite Eg.
      destruct (calculate_node_returns tech params ins h0 Hsafe)
        as (out & res & h1 & Ec).
      rewrite Ec. unfold ret. eauto. }
    destruct Hn as (st1 & h1 & ->).
    apply IH. intros m Hm. apply Hall. now right.
Qed.

Lemma healthy_nodes (tech_db : dict Tech.t) (nodes : list Node.t)
    (edges : list Edge.t) :
  healthy tech_db nodes edges ->
  forall n, In n (nx.nodes (assembled nodes edges)) ->
    exists tech_id params tech,
      PyDict.get (nx._node (assembled nodes edges)) n
      = Some (Some (tech_id, params)) /\
      PyDict.get tech_db tech_id = Some tech /\
      (Tech.category tech = "digester"%string ->
       (PyDict.get_default (Tech.defaults tech) "ch4_content" 0.60 =? 0)%float
       = false).
Proof.
  intros [Hedges Htechs] n Hn.
  assert (Hdecl : In n (map Node.node_id nodes)).
  { apply assembled_nodes in Hn. destruct Hn as [Hn|(e & He & [<-|<-])]; auto.
    - now apply Hedges.
    - now apply Hedges. }
  assert (Hfind : exists m,
             find (fun m => String.eqb (Node.node_id m) n) (rev nodes)
             = Some m).
  { destruct (find (fun m => String.eqb (Node.node_id m) n) (rev nodes))
      as [m|] eqn:Hf; [eauto|exfalso].
    apply in_map_iff in Hdecl. destruct Hdecl as (m & Hm & Hin).
    apply in_rev in Hin.
    pose proof (find_none _ _ Hf m Hin) as Hno. simpl in Hno.
    rewrite Hm, String.eqb_refl in Hno. discriminate. }
  destruct Hfind as (m & Hfind).
  assert (Hm : In m nodes).
  { apply find_some in Hfind. apply in_rev. tauto. }
  destruct (Htechs m Hm) as (tech & Hdb & Hsafe).
  exists (Node.tech_id m), (Node.parameters m), tech.
  split; [|split; assumption].
  unfold assembled. rewrite get_fold_add_edge.
  - rewrite get_fold_add_node, Hfind. reflexivity.
  - apply fold_add_node_nodes. now right.
Qed.

Lemma healthy_route_returns (tech_db : dict Tech.t) (nodes : list Node.t)
    (edges : list Edge.t) :
  acyclic edges -> healthy tech_db nodes edges ->
  exists r, calculate_route tech_db nodes edges = Ok r /\ success r = true.
Proof.
  intros Hacyc Hh. unfold calculate_route.
  destruct (build_graph_spec nodes edges)
    as [(Hbuild & _ & order & Hsort & _ & _ & Hall)|(_ & x & Hx)];
    [|exfalso; exact (Hacyc x Hx)].
  rewrite Hbuild. simpl. rewrite Hsort. simpl. unfold run_route, bind.
  pose proof (process_nodes_errors tech_db (assembled nodes edges) order
                (fun n Hn => proj1 (Hall n) Hn) ([], []) []
                (Forall_nil _)) as Hnum.
  destruct (process_nodes_returns tech_db (assembled nodes edges) order
              (fun n Hn => healthy_nodes tech_db nodes edges Hh n
                             (proj1 (Hall n) Hn)) ([], []) [])
    as ([streams results] & h & Hrun).
  rewrite Hrun in Hnum |- *. simpl in Hnum. unfold _aggregate_results.
  destruct (sum_metrics_numeric results Hnum
              {| total_biogas := 0; total_methane := 0; total_biomethane := 0;
                 total_electricity := 0; total_thermal := 0;
                 total_revenue := 0 |}) as (t & ->).
  eexists. split; reflexivity.
Qed.

(** C1, as amended.  On an acyclic edge list [build_graph] succeeds and the
    topological sort returns; the calculation terminates (the bound of the
    sort's loop is never reached, every other loop runs over a list) and is
    the loop over that order, which lists every node of the graph, among
    them every declared node, exactly once and each node after all its
    predecessors.  When a node's turn comes, the nodes before it have been
    processed, once each, and its inputs are the objects filed under the
    keys of its inbound edges, one per predecessor and in their order, every
    predecessor having had its turn; while no two edges share a key, the
    object filed for the edge from p is the one the rule of p returned.
    A run that raises stopped at the turn of one node.  When every node can
    be calculated, the run returns a result, with the results of all the
    nodes recorded in that order. *)
Theorem calculate_route_topological
    (tech_db : dict Tech.t) (nodes : list Node.t) (edges : list Edge.t) :
  acyclic edges ->
  exists g order,
    build_graph nodes edges = Ok g /\
    nx.topological_sort g = Ok order /\
    calculate_route tech_db nodes edges <> Raise OutOfFuel /\
    calculate_route tech_db nodes edges
    = match run_route tech_db g order [] with
      | Ok (r, _) => Ok r
      | Raise e => Raise e
      end /\
    NoDup order /\
    (forall v, In v order <-> In v (nx.nodes g)) /\
    (forall node, In node nodes -> In (Node.node_id node) order) /\
    (forall p n, In p (nx.predecessors g n) -> before order p n) /\
    (forall u v, connects edges u v -> before order u v) /\
    (forall r, calculate_route tech_db nodes edges = Ok r ->
               PyDict.keys (node_details r) = order) /\
    (* the turn of a node *)
    (forall done n rest st h,
        order = done ++ n :: rest ->
        process_nodes tech_db g done ([], []) [] = Ok (st, h) ->
        PyDict.keys (snd st) = done /\
        exists ins,
          gather_inputs (fst st) n (nx.predecessors g n) h
          = Ok (ins,
                h ++ repeat StreamProperties_default
                       (length (nx.predecessors g n))) /\
          Forall2 (fun p l =>
                     In p done /\
                     PyDict.get (fst st) (stream_key p n) = Some l /\
                     (distinct_keys g -> rule_output tech_db g done p l))
                  (nx.predecessors g n) ins) /\
    (* a run that raises *)
    (forall e, calculate_route tech_db nodes edges = Raise e ->
       exists done n rest st h,
         order = done ++ n :: rest /\
         process_nodes tech_db g done ([], []) [] = Ok (st, h) /\
         process_node tech_db g st n h = Raise e) /\
    (* a run that returns *)
    (healthy tech_db nodes edges ->
     exists r, calculate_route tech_db nodes edges = Ok r /\
               success r = true /\
               PyDict.keys (node_details r) = order).
Proof.
  intros Hacyc.
  destruct (build_graph_spec nodes edges)
    as [(Hbuild & _ & order & Hsort & Hnd & Hord & Hall)|(_ & x & Hx)];
    [|exfalso; exact (Hacyc x Hx)].
  pose proof (assembled_wf nodes edges) as (wfN & wfE & wfC).
  set (g := assembled nodes edges) in *.
  assert (Hbefore : forall p n, In (p, n) (nx._adj g) -> before order p n).
  { intros p n Hedge. destruct (wfC p n Hedge) as [Hp Hn].
    unfold before. repeat split; try (apply Hall; assumption).
    apply Hord; auto. now apply Hall. }
  assert (Hcalc : calculate_route tech_db nodes edges
                  = match run_route tech_db g order [] with
                    | Ok (r, _) => Ok r
                    | Raise e => Raise e
                    end).
  { unfold calculate_route. rewrite Hbuild. simpl. rewrite Hsort. reflexivity. }
  assert (Hkeys : forall r, calculate_route tech_db nodes edges = Ok r ->
                            PyDict.keys (node_details r) = order).
  { intros r Hr. rewrite Hcalc in Hr. unfold run_route, bind in Hr.
    destruct (process_nodes tech_db g order ([], []) [])
      as [[[streams results] h]|] eqn:Hrun; try discriminate.
    apply process_nodes_ok in Hrun; auto.
    destruct Hrun as (Hk & _). simpl in Hk.
    unfold _aggregate_results in Hr.
    destruct (sum_metrics results _); try discriminate.
    injection Hr as <-. simpl. exact Hk. }
  exists g, order.
  split; [exact Hbuild|]. split; [exact Hsort|].
  split; [apply calculate_route_terminates|]. split; [exact Hcalc|].
  split; [exact Hnd|]. split; [exact Hall|].
  split.
  { intros node Hnode. apply Hall. apply assembled_nodes. left.
    now apply in_map. }
  split.
  { intros p n Hp. apply Hbefore. now apply predecessors_In. }
  split.
  { intros u v Huv. apply Hbefore. apply (assembled_edge nodes edges).
    exact Huv. }
  split; [exact Hkeys|].
  split.
  { intros done n rest st h Horder Hrun. subst order.
    assert (Hdone : forall p, In p (nx.predecessors g n) -> In p done).
    { intros p Hp. apply predecessors_In in Hp.
      eapply predecessor_done; eauto. }
    pose proof Hrun as Hok. apply process_nodes_ok in Hok.
    2:{ apply NoDup_app_remove_r in Hnd. exact Hnd. }
    2:{ simpl. tauto. }
    destruct Hok as (Hk & _ & Hsucc). simpl in Hk. split; [exact Hk|].
    destruct (gather_inputs_bound (fst st) n (nx.predecessors g n)) with (h := h)
      as (ins & Hg & HF).
    { intros p Hp Hno. apply get_None_keys in Hno. apply Hno.
      apply Hsucc; [now apply Hdone|].
      apply successors_In. now apply predecessors_In. }
    exists ins. split; [exact Hg|].
    apply (Forall2_impl_In
             (fun p l => PyDict.get (fst st) (stream_key p n) = Some l));
      [|exact HF].
    intros p l Hp Hget. split; [now apply Hdone|]. split; [exact Hget|].
    intros Hdist.
    apply (streams_written tech_db g Hdist done st h Hrun p n l);
      [now apply Hdone| |exact Hget].
    apply successors_In. now apply predecessors_In. }
  split.
  { intros e He. rewrite Hcalc in He. unfold run_route, bind in He.
    pose proof (process_nodes_errors tech_db g order
                  (fun n Hn => proj1 (Hall n) Hn) ([], []) []
                  (Forall_nil _)) as Hnum.
    destruct (process_nodes tech_db g order ([], []) [])
      as [[[streams results] h]|e'] eqn:Hrun.
    - exfalso. simpl in Hnum. unfold _aggregate_results in He.
      destruct (sum_metrics_numeric results Hnum
                  {| total_biogas := 0; total_methane := 0;
                     total_biomethane := 0; total_electricity := 0;
                     total_thermal := 0; total_revenue := 0 |}) as (t & Ht).
      rewrite Ht in He. discriminate.
    - injection He as ->.
      exact (process_nodes_raise_split tech_db g order _ _ _ Hrun). }
  intros Hh.
  destruct (healthy_route_returns tech_db nodes edges Hacyc Hh) as (r & Hr & Hs).
  exists r. split; [exact Hr|]. split; [exact Hs|]. now apply Hkeys.
Qed.

Lemma calculate_route_topological_witness :
  let nodes :=
    [ Node.mk "a" "vinasse" []; Node.mk "b" "uasb" [];
      Node.mk "c" "ice_cogen" [] ]%string in
  let edges := [ Edge.mk "a" "b"; Edge.mk "b" "c" ]%string in
  let g := assembled nodes edges in
  acyclic edges /\
  healthy Catalogue.TECH_DATABASE nodes edges /\
  distinct_keys g /\
  (exists r,
      calculate_route Catalogue.TECH_DATABASE nodes edges = Ok r /\
      PyDict.keys (node_details r) = [ "a"; "b"; "c" ]%string) /\
  (exists st h l,
      process_nodes Catalogue.TECH_DATABASE g [ "a"; "b" ]%string ([], []) []
      = Ok (st, h) /\
      gather_inputs (fst st) "c" (nx.predecessors g "c") h
      = Ok ([l], h ++ [StreamProperties_default]) /\
      PyDict.get (fst st) "b->c" = Some l /\
      rule_output Catalogue.TECH_DATABASE g [ "a"; "b" ]%string "b" l).
Proof.
  cbv zeta.
  set (nodes := [ Node.mk "a" "vinasse" []; Node.mk "b" "uasb" [];
                  Node.mk "c" "ice_cogen" [] ]%string).
  set (edges := [ Edge.mk "a" "b"; Edge.mk "b" "c" ]%string).
  assert (Hacyc : acyclic edges).
  { apply (sorted_acyclic nodes _ [ "a"; "b"; "c" ]%string).
    vm_compute. reflexivity. }
  assert (Hh : healthy Catalogue.TECH_DATABASE nodes edges).
  { split.
    - intros e [<-|[<-|[]]]; simpl; auto.
    - intros n [<-|[<-|[<-|[]]]].
      + exists Catalogue.vinasse. split; [reflexivity|].
        intros _. vm_compute. reflexivity.
      + exists Catalogue.uasb. split; [reflexivity|].
        intros _. vm_compute. reflexivity.
      + exists Catalogue.ice_cogen. split; [reflexivity|].
        intros _. vm_compute. reflexivity. }
  assert (Hdist : distinct_keys (assembled nodes edges)).
  { intros u v u' v' H H' K. vm_compute in H, H'.
    destruct H as [H|[H|[]]], H' as [H'|[H'|[]]];
      injection H as <- <-; injection H' as <- <-;
      first [reflexivity | vm_compute in K; discriminate K]. }
  split; [exact Hacyc|]. split; [exact Hh|]. split; [exact Hdist|].
  destruct (calculate_route_topological Catalogue.TECH_DATABASE nodes edges
              Hacyc)
    as (g & order & Hbuild & Hsort & _ & _ & _ & _ & _ & _ & _ & _
        & Hturn & _ & Hret).
  assert (Hg : g = assembled nodes edges).
  { vm_compute in Hbuild. injection Hbuild as <-. vm_compute. reflexivity. }
  subst g.
  assert (Horder : order = [ "a"; "b"; "c" ]%string).
  { vm_compute in Hsort. injection Hsort as <-. reflexivity. }
  subst order.
  split.
  { destruct (Hret Hh) as (r & Hr & _ & Hk). exists r. auto. }
  destruct (process_nodes Catalogue.TECH_DATABASE (assembled nodes edges)
              [ "a"; "b" ]%string ([], []) [])
    as [[st h]|e] eqn:Hrun; [|vm_compute in Hrun; discriminate Hrun].
  destruct (Hturn [ "a"; "b" ]%string "c"%string [] st h eq_refl Hrun)
    as (_ & ins & Hgather & HF).
  assert (Hpreds : nx.predecessors (assembled nodes edges) "c"
                   = [ "b"%string ]) by (vm_compute; reflexivity).
  rewrite Hpreds in HF, Hgather |- *.
  inversion HF as [|p l ps ls (_ & Hget & Hout) Hrest]; subst.
  inversion Hrest; subst.
  exists st, h, l. split; [reflexivity|]. split; [exact Hgather|].
  split; [exact Hget|]. exact (Hout Hdist).
Defined.

(** C1, the claim as stated fails: an acyclic route is not always processed
    to its end.  In the route a -> b, where a is vinasse and the technology
    of b is not in the catalogue, the turn of a succeeds and the turn of b
    raises the ValueError of the missing technology: [calculate_route]
    returns no result and b is never calculated. *)
Lemma acyclic_route_not_processed_to_the_end :
  let nodes :=
    [ Node.mk "a" "vinasse" []; Node.mk "b" "gasifier" [] ]%string in
  let edges := [ Edge.mk "a" "b" ]%string in
  acyclic edges /\
  nx.topological_sort (assembled nodes edges) = Ok [ "a"; "b" ]%string /\
  (exists st h,
      process_nodes Catalogue.TECH_DATABASE (assembled nodes edges)
        [ "a"%string ] ([], []) [] = Ok (st, h) /\
      PyDict.keys (snd st) = [ "a"%string ] /\
      process_node Catalogue.TECH_DATABASE (assembled nodes edges) st "b" h
      = Raise (ValueError "Technology 'gasifier' not found in database")) /\
  calculate_route Catalogue.TECH_DATABASE nodes edges
  = Raise (ValueError "Technology 'gasifier' not found in database") /\
  (forall r, calculate_route Catalogue.TECH_DATABASE nodes edges <> Ok r).
Proof.
  cbv zeta. split; [|split; [|split; [|split]]].
  - apply (sorted_acyclic
             [ Node.mk "a" "vinasse" []; Node.mk "b" "gasifier" [] ]%string
             _ [ "a"; "b" ]%string).
    vm_compute. reflexivity.
  - vm_compute. reflexivity.
  - destruct (process_nodes Catalogue.TECH_DATABASE
                (assembled
                   [ Node.mk "a" "vinasse" []; Node.mk "b" "gasifier" [] ]%string
                   [ Edge.mk "a" "b" ]%string)
                [ "a"%string ] ([], []) [])
      as [[st h]|e] eqn:Hrun; [|vm_compute in Hrun; discriminate Hrun].
    exists st, h. split; [reflexivity|].
    vm_compute in Hrun. injection Hrun as <- <-.
    split; vm_compute; reflexivity.
  - vm_compute. reflexivity.
  - intros r H. vm_compute in H. discriminate H.
Qed.

(** C4, as amended.  When an edge names a node id that the node list does
    not declare, [build_graph] raises no reference error: [add_edge] adds the
    id as a node without attributes, and [build_graph] returns the graph when
    the edges are acyclic; its only failure is the cycle error, when they
    have a cycle.  [calculate_route] never returns a result on such an input.
    In the acyclic case the added node z has its place in the calculation
    order; if the nodes before it are all calculated, their results are
    recorded and the turn of z raises KeyError('tech_id'), which is what
    [calculate_route] raises; otherwise [calculate_route] raises what the
    first failing node before z raised. *)
Theorem dangling_edge_is_not_checked
    (tech_db : dict Tech.t) (nodes : list Node.t) (edges : list Edge.t)
    (z : string) :
  dangling nodes edges z ->
  (forall r, calculate_route tech_db nodes edges <> Ok r) /\
  ((build_graph nodes edges = Ok (assembled nodes edges) /\
    acyclic edges /\
    In z (nx.nodes (assembled nodes edges)) /\
    PyDict.get (nx._node (assembled nodes edges)) z = Some None /\
    exists done rest,
      nx.topological_sort (assembled nodes edges) = Ok (done ++ z :: rest) /\
      match process_nodes tech_db (assembled nodes edges) done ([], []) [] with
      | Ok (st, h) =>
          PyDict.keys (snd st) = done /\
          process_node tech_db (assembled nodes edges) st z h
          = Raise (KeyError "tech_id") /\
          calculate_route tech_db nodes edges = Raise (KeyError "tech_id")
      | Raise e =>
          node_error e /\
          calculate_route tech_db nodes edges = Raise e
      end)
   \/
   (build_graph nodes edges = Raise (ValueError cycle_message) /\
    has_cycle edges)).
Proof.
  intros Hd. destruct (dangling_is_bare nodes edges z Hd) as [Hin Hbare].
  destruct (build_graph_spec nodes edges)
    as [(Hbuild & Hacyc & order & Hsort & Hnd & Hord & Hall)|(Hbuild & Hcyc)].
  - assert (Hz : In z order) by now apply Hall.
    destruct (in_split z order Hz) as (done & rest & ->).
    assert (Hraise : forall e,
               process_nodes tech_db (assembled nodes edges)
                 (done ++ z :: rest) ([], []) [] = Raise e ->
               calculate_route tech_db nodes edges = Raise e).
    { intros e He. unfold calculate_route. rewrite Hbuild. simpl.
      rewrite Hsort. simpl. unfold run_route, bind. now rewrite He. }
    assert (Hturn : forall st h,
               process_node tech_db (assembled nodes edges) st z h
               = Raise (KeyError "tech_id")).
    { intros [streams results] h. unfold process_node. now rewrite Hbare. }
    destruct (process_nodes tech_db (assembled nodes edges) done ([], []) [])
      as [[st h]|e] eqn:Hrun.
    + assert (Hcalc : calculate_route tech_db nodes edges
                      = Raise (KeyError "tech_id")).
      { apply Hraise. rewrite process_nodes_app, Hrun.
        cbn [process_nodes]. unfold bind. now rewrite Hturn. }
      split; [intros r Hr; rewrite Hcalc in Hr; discriminate|].
      left. split; [exact Hbuild|]. split; [exact Hacyc|].
      split; [exact Hin|]. split; [exact Hbare|].
      exists done, rest. split; [exact Hsort|]. rewrite Hrun.
      split; [|split; [apply Hturn|exact Hcalc]].
      destruct (process_nodes_ok tech_db (assembled nodes edges) done
                  ([], []) [] st h Hrun) as (Hk & _).
      * apply NoDup_app_remove_r in Hnd. exact Hnd.
      * simpl. tauto.
      * exact Hk.
    + assert (Hcalc : calculate_route tech_db nodes edges = Raise e).
      { apply Hraise. now rewrite process_nodes_app, Hrun. }
      split; [intros r Hr; rewrite Hcalc in Hr; discriminate|].
      left. split; [exact Hbuild|]. split; [exact Hacyc|].
      split; [exact Hin|]. split; [exact Hbare|].
      exists done, rest. split; [exact Hsort|]. rewrite Hrun.
      split; [|exact Hcalc].
      apply (process_nodes_node_error tech_db (assembled nodes edges) done
               (fun n Hn => proj1 (Hall n) (in_or_app _ _ _ (or_introl Hn)))
               ([], []) [] e Hrun).
  - split.
    + intros r Hr. unfold calculate_route in Hr. rewrite Hbuild in Hr.
      discriminate.
    + right. auto.
Qed.

Lemma dangling_edge_is_not_checked_witness :
  let nodes := [ Node.mk "A" "bagasse" [] ]%string in
  let edges := [ Edge.mk "A" "Z" ]%string in
  dangling nodes edges "Z" /\
  (forall r, calculate_route Catalogue.TECH_DATABASE nodes edges <> Ok r) /\
  nx.topological_sort (assembled nodes edges) = Ok [ "A"; "Z" ]%string /\
  (exists st h,
      process_nodes Catalogue.TECH_DATABASE (assembled nodes edges)
        [ "A"%string ] ([], []) [] = Ok (st, h) /\
      PyDict.keys (snd st) = [ "A"%string ] /\
      process_node Catalogue.TECH_DATABASE (assembled nodes edges) st "Z" h
      = Raise (KeyError "tech_id")) /\
  calculate_route Catalogue.TECH_DATABASE nodes edges
  = Raise (KeyError "tech_id").
Proof.
  cbv zeta.
  set (nodes := [ Node.mk "A" "bagasse" [] ]%string).
  set (edges := [ Edge.mk "A" "Z" ]%string).
  assert (Hd : dangling nodes edges "Z").
  { split.
    - simpl. intros [H|[]]. discriminate.
    - eexists. split; [left; reflexivity | right; reflexivity]. }
  split; [exact Hd|].
  destruct (dangling_edge_is_not_checked Catalogue.TECH_DATABASE nodes edges
              "Z" Hd)
    as (Hnever & [(_ & _ & _ & _ & done & rest & Hsort & Hrun)|(Hbuild & _)]);
    [|vm_compute in Hbuild; discriminate Hbuild].
  split; [exact Hnever|].
  assert (Horder : nx.topological_sort (assembled nodes edges)
                   = Ok [ "A"; "Z" ]%string) by (vm_compute; reflexivity).
  split; [exact Horder|].
  rewrite Horder in Hsort. injection Hsort as Hsplit.
  assert (Hdone : done = [ "A"%string ]).
  { destruct done as [|a [|b done]].
    - simpl in Hsplit. injection Hsplit as H _. discriminate H.
    - simpl in Hsplit. now injection Hsplit as <- _.
    - simpl in Hsplit. injection Hsplit as _ _ H.
      destruct done; discriminate H. }
  subst done.
  destruct (process_nodes Catalogue.TECH_DATABASE (assembled nodes edges)
              [ "A"%string ] ([], []) [])
    as [[st h]|e] eqn:Hok; [|vm_compute in Hok; discriminate Hok].
  destruct Hrun as (Hk & Hz & Hcalc).
  split; [|exact Hcalc].
  exists st, h. auto.
Defined.
